(** CMCD manager: state tracking, payload derivation and serialization

    A shallow embedding of [lib/util/cmcd_manager.js] (class
    [shaka.util.CmcdManager]).  Module [JS] collects the parts of the host
    language the class relies on: numbers (IEEE doubles), strings, dynamically
    typed values, plain objects and exceptions.  Module [Cmcd] follows the
    class member by member.  The properties are stated and proved after the
    two modules. *)

From Stdlib Require Import ZArith QArith Qabs Qround String Ascii.
From Stdlib Require Import Floats.PrimFloat Floats.FloatOps Floats.SpecFloat.
From Stdlib Require Import Floats.FloatAxioms.
From stdpp Require Import base list sorting strings pretty.

(** * The host language *)

Module JS.

(** ** Numbers

    A JavaScript number is a double: the kernel's primitive [float], with its
    own arithmetic.  [===] on numbers is [PrimFloat.eqb] (NaN differs from
    itself, the two zeros are equal). *)

Abbreviation number := float.

(** The double with the integer value [z], exact below 2^53. *)
Definition number_of_Z (z : Z) : number :=
  match z with
  | Z0 => zero
  | Zpos m => SF2Prim (S754_finite false m 0)
  | Zneg m => SF2Prim (S754_finite true m 0)
  end.

(** [Math.round(x)]: the integer closest to [x], a tie going towards
    +Infinity; NaN, the infinities and the zeros are returned as they are,
    and a negative [x] that rounds to zero gives -0.  A finite double is
    [m * 2^e]; with [e] not negative it is an integer already. *)
Definition Math_round (x : number) : number :=
  match Prim2SF x with
  | S754_finite s m e =>
      if (0 <=? e)%Z then x
      else
        let d := (2 ^ (- e))%Z in
        let q := (Z.pos m / d)%Z in
        let r := (Z.pos m mod d)%Z in
        if s then (- number_of_Z (if (d <? 2 * r)%Z then q + 1 else q))%float
        else number_of_Z (if (d <=? 2 * r)%Z then q + 1 else q)
  | _ => x
  end.

(** [Number::toString(x)] in radix 10.  For a positive finite [x] the
    language takes integers [n], [k] and [s] with [10^(k-1) <= s < 10^k],
    [s * 10^(n-k)] a real that converts to [x], and [k] as small as can be;
    of several [s] the one closest to [x], the even one on a tie.  The search
    below does that with exact rationals. *)
Definition Qpow (b : Z) (e : Z) : Q := Qpower (inject_Z b) e.

Definition Qdist (a b : Q) : Q := Qabs (a - b)%Q.

(** The real [v] converts to the double [m * 2^e]: it lies between the
    midpoints to the two neighbouring doubles, the midpoints included when
    [m] is even. *)
Definition rounds_to (m : positive) (e : Z) (v : Q) : bool :=
  let x := (inject_Z (Z.pos m) * Qpow 2 e)%Q in
  let below := if ((m =? 4503599627370496)%positive && (-1074 <? e)%Z)%bool
               then Qpow 2 (e - 2) else Qpow 2 (e - 1) in
  let lo := (x - below)%Q in
  let hi := (x + Qpow 2 (e - 1))%Q in
  if Z.even (Z.pos m) then (Qle_bool lo v && Qle_bool v hi)%bool
  else (negb (Qle_bool v lo) && negb (Qle_bool hi v))%bool.

(** The [s] of [k] digits next to [x] at exponent [n] that convert to it. *)
Definition digit_candidates (m : positive) (e : Z) (k n : Z) : list (Z * Z) :=
  let x := (inject_Z (Z.pos m) * Qpow 2 e)%Q in
  let s0 := Qfloor (x / Qpow 10 (n - k))%Q in
  filter (λ '(s, n), bool_decide (10 ^ (k - 1) ≤ s < 10 ^ k)%Z
                     ∧ rounds_to m e (inject_Z s * Qpow 10 (n - k))%Q)
         [(s0, n); ((s0 + 1)%Z, n)].

Definition closer (m : positive) (e : Z) (k : Z) (a b : Z * Z) : Z * Z :=
  let x := (inject_Z (Z.pos m) * Qpow 2 e)%Q in
  let da := Qdist (inject_Z a.1 * Qpow 10 (a.2 - k))%Q x in
  let db := Qdist (inject_Z b.1 * Qpow 10 (b.2 - k))%Q x in
  match Qcompare da db with
  | Lt => a
  | Gt => b
  | Eq => if Z.even a.1 then a else b
  end.

Definition best (m : positive) (e : Z) (k : Z) (cs : list (Z * Z)) : option (Z * Z) :=
  match cs with
  | [] => None
  | c :: cs => Some (foldl (closer m e k) c cs)
  end.

(** Tries [k], [k + 1], ... with [n] around the estimate [n0]; seventeen
    digits tell any two doubles apart, so the fuel is never used up. *)
Fixpoint shortest_go (m : positive) (e : Z) (n0 : Z) (fuel : nat) (k : Z) : Z * Z * Z :=
  match fuel with
  | O => (0, 0, 0)%Z
  | S fuel =>
      let cs := mjoin ((λ i, digit_candidates m e k (n0 + i))
                         <$> [-2; -1; 0; 1; 2; 3; 4]%Z) in
      match best m e k cs with
      | Some (s, n) => (s, k, n)
      | None => shortest_go m e n0 fuel (k + 1)
      end
  end.

Definition shortest (m : positive) (e : Z) : Z * Z * Z :=
  let n0 := ((Z.log2 (Z.pos m) + e) * 30103 / 100000)%Z in
  shortest_go m e n0 17 1.

Definition digits (s : Z) : string := pretty (Z.to_N s).

Fixpoint zeros (n : nat) : string :=
  match n with
  | O => EmptyString
  | S n => String "0" (zeros n)
  end.

Definition take_str (n : nat) (s : string) : string := String.substring 0 n s.

Definition drop_str (n : nat) (s : string) : string :=
  String.substring n (String.length s - n) s.

Definition Number_toString_pos (m : positive) (e : Z) : string :=
  let '(s, k, n) := shortest m e in
  let ds := digits s in
  if bool_decide (k ≤ n ≤ 21)%Z then ds +:+ zeros (Z.to_nat (n - k))
  else if bool_decide (0 < n ≤ 21)%Z then
    take_str (Z.to_nat n) ds +:+ "." +:+ drop_str (Z.to_nat n) ds
  else if bool_decide (-6 < n ≤ 0)%Z then "0." +:+ zeros (Z.to_nat (- n)) +:+ ds
  else
    let ex := (n - 1)%Z in
    let sign := if (ex <? 0)%Z then "-" else "+" in
    let mant := if (k =? 1)%Z then ds else take_str 1 ds +:+ "." +:+ drop_str 1 ds in
    mant +:+ "e" +:+ sign +:+ digits (Z.abs ex).

Definition Number_toString (x : number) : string :=
  match Prim2SF x with
  | S754_nan => "NaN"
  | S754_zero _ => "0"
  | S754_infinity s => if s then "-Infinity" else "Infinity"
  | S754_finite s m e =>
      (if s then "-" else EmptyString) +:+ Number_toString_pos m e
  end.

(** [StringToNumber(str)]: the value of [str] read as a numeric literal
    between white space, converted to the nearest double; NaN when [str] is
    no such literal.  (The class reaches it when a string sits under a key
    with a numeric formatter.) *)
Definition is_white_space (c : ascii) : bool :=
  bool_decide (nat_of_ascii c ∈ [9; 10; 11; 12; 13; 32; 160]).

Fixpoint trim_start (s : string) : string :=
  match s with
  | String c r => if is_white_space c then trim_start r else s
  | EmptyString => s
  end.

Definition trim (s : string) : string :=
  String.rev (trim_start (String.rev (trim_start s))).

Definition digit_value (base : Z) (c : ascii) : option Z :=
  let n := Z.of_nat (nat_of_ascii c) in
  let v := if bool_decide (48 ≤ n ≤ 57)%Z then Some (n - 48)%Z
           else if bool_decide (97 ≤ n ≤ 102)%Z then Some (n - 87)%Z
           else if bool_decide (65 ≤ n ≤ 70)%Z then Some (n - 55)%Z
           else None in
  v ≫= λ d, if (d <? base)%Z then Some d else None.

(** Reads the longest run of digits: their value, how many, and the rest. *)
Fixpoint read_digits (base : Z) (s : string) (acc : Z) (count : Z) : Z * Z * string :=
  match s with
  | String c r =>
      match digit_value base c with
      | Some d => read_digits base r (acc * base + d)%Z (count + 1)%Z
      | None => (acc, count, s)
      end
  | EmptyString => (acc, count, s)
  end.

Definition round_ratio (neg : bool) (num den : Z) : number :=
  match num, den with
  | Zpos n, Zpos d =>
      let r := SF2Prim (SFdiv prec emax (S754_finite false n 0) (S754_finite false d 0)) in
      if neg then (- r)%float else r
  | _, _ => if neg then neg_zero else zero
  end.

Definition decimal_value (neg : bool) (n e : Z) : number :=
  let size := (Z.of_nat (String.length (digits n)) + e)%Z in
  if (n =? 0)%Z then (if neg then neg_zero else zero)
  else if (400 <? size)%Z then (if neg then neg_infinity else infinity)
  else if (size <? -400)%Z then (if neg then neg_zero else zero)
  else round_ratio neg (n * 10 ^ Z.max e 0) (10 ^ Z.max (- e) 0).

Definition read_exponent (s : string) : option (Z * string) :=
  match s with
  | String c r =>
      if bool_decide (c = "e"%char ∨ c = "E"%char) then
        let '(neg, r) := match r with
                         | String "-" r' => (true, r')
                         | String "+" r' => (false, r')
                         | _ => (false, r)
                         end in
        let '(v, count, rest) := read_digits 10 r 0 0 in
        if (count =? 0)%Z then None
        else Some (if neg then (- v)%Z else v, rest)
      else Some (0%Z, s)
  | EmptyString => Some (0%Z, s)
  end.

Definition StrUnsignedDecimalLiteral (neg : bool) (s : string) : number :=
  if bool_decide (s = "Infinity") then (if neg then neg_infinity else infinity)
  else
    let '(ip, ni, r1) := read_digits 10 s 0 0 in
    let '(fp, nf, r2) := match r1 with
                         | String "." r => read_digits 10 r ip 0
                         | _ => (ip, 0%Z, r1)
                         end in
    if (ni + nf =? 0)%Z then nan
    else match read_exponent r2 with
         | Some (ex, EmptyString) => decimal_value neg fp (ex - nf)
         | _ => nan
         end.

Definition NonDecimalIntegerLiteral (base : Z) (s : string) : number :=
  match read_digits base s 0 0 with
  | (v, count, EmptyString) => if (count =? 0)%Z then nan else round_ratio false v 1
  | _ => nan
  end.

Definition StringToNumber (str : string) : number :=
  match trim str with
  | EmptyString => zero
  | String "+" r => StrUnsignedDecimalLiteral false r
  | String "-" r => StrUnsignedDecimalLiteral true r
  | String "0" (String c r) as s =>
      if bool_decide (c = "x"%char ∨ c = "X"%char) then NonDecimalIntegerLiteral 16 r
      else if bool_decide (c = "o"%char ∨ c = "O"%char) then NonDecimalIntegerLiteral 8 r
      else if bool_decide (c = "b"%char ∨ c = "B"%char) then NonDecimalIntegerLiteral 2 r
      else StrUnsignedDecimalLiteral false s
  | s => StrUnsignedDecimalLiteral false s
  end.


(** ** Strings

    A string is a sequence of code units; the model keeps the code units
    below 256, which is what [string] holds. *)

Definition dquote : ascii := "034"%char.

(** [s.includes(searchString)] *)
Fixpoint includes (s searchString : string) : bool :=
  if String.prefix searchString s then true
  else match s with
       | String _ r => includes r searchString
       | EmptyString => false
       end.

(** [s.replace(/c/g, replacement)] for a pattern that is the single
    character [c] and a replacement without [$]. *)
Fixpoint replace_all (c : ascii) (replacement s : string) : string :=
  match s with
  | EmptyString => EmptyString
  | String a r =>
      (if Ascii.eqb a c then replacement else String a EmptyString)
        +:+ replace_all c replacement r
  end.

(** [array.join(separator)] on an array of strings *)
Definition join (separator : string) (array : list string) : string :=
  String.concat separator array.

Definition hex_digit (n : nat) : ascii :=
  default "0"%char (String.get n "0123456789ABCDEF").

Definition percent (byte : nat) : string :=
  String "%" (String (hex_digit (byte / 16)) (String (hex_digit (byte mod 16)) EmptyString)).

Definition uri_unreserved (c : ascii) : bool :=
  let n := nat_of_ascii c in
  bool_decide (48 ≤ n ≤ 57 ∨ 65 ≤ n ≤ 90 ∨ 97 ≤ n ≤ 122)
  || bool_decide (c ∈ list_ascii_of_string "-_.!~*'()").

(** [encodeURIComponent] on a string: a code unit that is not unreserved is
    replaced by the percent-escapes of its UTF-8 bytes (one byte below 128,
    two from 128 to 255).  It throws a URIError on a string with a lone
    surrogate and on no other.  The strings of the model are those of code
    units below 256, none of which has a surrogate: on them the function is
    total, and what is proved of a query is proved for session ids, content
    ids, formats and payload strings among them. *)
Definition encode_unit (c : ascii) : string :=
  let n := nat_of_ascii c in
  if uri_unreserved c then String c EmptyString
  else if n <? 128 then percent n
  else percent (192 + n / 64) +:+ percent (128 + n mod 64).

Fixpoint encodeURIComponent (s : string) : string :=
  match s with
  | EmptyString => EmptyString
  | String c r => encode_unit c +:+ encodeURIComponent r
  end.

(** ** Values, exceptions and conversions *)

Inductive value : Type :=
  | undefined
  | null
  | VBool (b : bool)
  | VNum (x : number)
  | VStr (s : string)
  | VSym (description : option string).

Inductive exn : Type := TypeError.

(** The outcome of evaluating an expression: a value or a thrown exception. *)
Inductive completion (A : Type) : Type :=
  | Normal (a : A)
  | Throw (e : exn).
Arguments Normal {A} a.
Arguments Throw {A} e.

#[global] Instance completion_ret : MRet completion := λ A, @Normal A.
#[global] Instance completion_bind : MBind completion := λ A B f c,
  match c with
  | Normal a => f a
  | Throw e => Throw e
  end.
#[global] Instance completion_fmap : FMap completion := λ A B f c,
  match c with
  | Normal a => Normal (f a)
  | Throw e => Throw e
  end.
Arguments completion_ret {A} a /.
Arguments completion_bind {A B} f !c /.
Arguments completion_fmap {A B} f !c /.

Definition typeof (v : value) : string :=
  match v with
  | undefined => "undefined"
  | null => "object"
  | VBool _ => "boolean"
  | VNum _ => "number"
  | VStr _ => "string"
  | VSym _ => "symbol"
  end.

Definition ToNumber (v : value) : completion number :=
  match v with
  | undefined => Normal nan
  | null => Normal zero
  | VBool b => Normal (if b then one else zero)
  | VNum x => Normal x
  | VStr s => Normal (StringToNumber s)
  | VSym _ => Throw TypeError
  end.

Definition ToString (v : value) : completion string :=
  match v with
  | undefined => Normal "undefined"
  | null => Normal "null"
  | VBool b => Normal (if b then "true" else "false")
  | VNum x => Normal (Number_toString x)
  | VStr s => Normal s
  | VSym _ => Throw TypeError
  end.

Definition ToBoolean (v : value) : bool :=
  match v with
  | undefined | null => false
  | VBool b => b
  | VNum x => negb (is_nan x || is_zero x)
  | VStr s => negb (bool_decide (s = EmptyString))
  | VSym _ => true
  end.

(** [v === c] against a primitive [c]; the class never compares two symbols,
    which the model could not tell apart. *)
Definition strict_eq (v c : value) : bool :=
  match v, c with
  | undefined, undefined | null, null => true
  | VBool a, VBool b => Bool.eqb a b
  | VNum x, VNum y => PrimFloat.eqb x y
  | VStr s, VStr t => bool_decide (s = t)
  | _, _ => false
  end.

(** [v.description] in a template literal, for a symbol [v]: the
    description, or the text undefined where the symbol has none. *)
Definition symbol_description (v : value) : string :=
  match v with
  | VSym (Some description) => description
  | _ => "undefined"
  end.

(** [v == null] *)
Definition is_nullish (v : value) : bool :=
  match v with
  | undefined | null => true
  | _ => false
  end.

(** [Number.isNaN(v)] *)
Definition Number_isNaN (v : value) : bool :=
  match v with
  | VNum x => is_nan x
  | _ => false
  end.

(** ** Plain objects

    An object is the list of its own properties in insertion order, each key
    once.  (Integer-like keys are enumerated first by the language; every use
    below sorts or counts the keys, so the model leaves that out.) *)

Definition object (V : Type) : Type := list (string * V).

Definition is_object {V} (o : object V) : Prop := NoDup o.*1.

Fixpoint obj_lookup {V} (o : object V) (key : string) : option V :=
  match o with
  | [] => None
  | (k, v) :: o => if bool_decide (k = key) then Some v else obj_lookup o key
  end.

(** [o[key]] on an object of values *)
Definition obj_get (o : object value) (key : string) : value :=
  default undefined (obj_lookup o key).

(** [o[key] = v] *)
Fixpoint obj_set {V} (key : string) (v : V) (o : object V) : object V :=
  match o with
  | [] => [(key, v)]
  | (k, w) :: o =>
      if bool_decide (k = key) then (k, v) :: o else (k, w) :: obj_set key v o
  end.

Definition Object_keys {V} (o : object V) : list string := o.*1.

(** [Object.assign(target, source)] *)
Definition Object_assign {V} (target source : object V) : object V :=
  foldl (λ t '(k, v), obj_set k v t) target source.

(** [array.sort()] on an array of strings: ascending code-unit order. *)
Definition sort (array : list string) : list string :=
  merge_sort String.le array.

End JS.

(** * The class [shaka.util.CmcdManager] *)

Module Cmcd.
Import JS.

(** ** Enumerations: each member is the string it stands for. *)

Module ObjectType.
Definition MANIFEST : string := "m".
Definition AUDIO : string := "a".
Definition VIDEO : string := "v".
Definition MUXED : string := "av".
Definition INIT : string := "i".
Definition CAPTION : string := "c".
Definition TIMED_TEXT : string := "tt".
Definition KEY : string := "k".
Definition OTHER : string := "o".
End ObjectType.

Module StreamType.
Definition VOD : string := "v".
Definition LIVE : string := "l".
End StreamType.

Module StreamingFormat.
Definition DASH : string := "d".
Definition HLS : string := "h".
Definition SMOOTH : string := "s".
Definition OTHER : string := "o".
End StreamingFormat.

(** The CMCD spec version *)
Definition Version : number := 1%float.

(** ** Types *)

(** [shaka.extern.CmcdConfiguration] *)
Record CmcdConfiguration : Type := {
  enabled : bool;
  useHeaders : bool;
  sessionId : string;
  contentId : string;
}.

(** One buffered range, [{start, end}]. *)
Record BufferedRange : Type := {
  range_start : number;
  range_end : number;
}.

(** [shaka.extern.BufferedInfo] *)
Record BufferedInfo : Type := {
  buffered_total : list BufferedRange;
  buffered_audio : list BufferedRange;
  buffered_video : list BufferedRange;
  buffered_text : list BufferedRange;
}.

(** [shaka.extern.Stream], of which the class reads [bandwidth]
    ([number|undefined]). *)
Record Stream : Type := {
  stream_bandwidth : option number;
}.

(** [shaka.extern.Variant], of which the class reads [audio], [video] (a
    stream or null) and [bandwidth]. *)
Record Variant : Type := {
  variant_audio : option Stream;
  variant_video : option Stream;
  variant_bandwidth : number;
}.

(** [shaka.extern.Manifest], of which the class reads the two arrays. *)
Record Manifest : Type := {
  variants : list Variant;
  textStreams : list Stream;
}.

(** [PlayerInterface]: what each callback of the player returns during the
    call at hand.  The callbacks are read once per call of an entry point, so
    one record per call says all the class can see.  (A callback that throws
    is left out of the model.) *)
Record PlayerInterface : Type := {
  getBandwidthEstimate : number;
  getBufferedInfo : BufferedInfo;
  getCurrentTime : number;
  getManifest : option Manifest;
  getPlaybackRate : number;
  isLive : bool;
}.

(** [SegmentInfo] *)
Record SegmentInfo : Type := {
  segment_type : string;
  segment_init : bool;
  segment_duration : number;
  segment_mimeType : string;
  segment_codecs : string;
  segment_bandwidth : option number;
}.

(** [ManifestInfo] *)
Record ManifestInfo : Type := {
  format : string;
}.

(** [Data]: the CMCD payload, a plain object from key to value. *)
Abbreviation Data := (object value).

(** [shaka.extern.Request], of which the class touches [uris] and
    [headers]. *)
Record Request : Type := {
  uris : list string;
  headers : object string;
}.

(** The fields of a [CmcdManager] instance ([playerInterface_] is passed to
    the methods that call it, see [PlayerInterface]). *)
Record CmcdManager : Type := {
  config_ : CmcdConfiguration;
  sid_ : string;
  sf_ : option string;
  playbackStarted_ : bool;
  buffering_ : bool;
  starved_ : bool;
}.

(** ** Methods as state transformers

    A method runs on a state: the instance and the ids [shaka.log.warnOnce]
    has already reported.  It ends normally or by throwing; a throw keeps the
    state changes made before it. *)

Record State : Type := {
  this : CmcdManager;
  warned : list string;
}.

Definition M (A : Type) : Type := State → completion A * State.

#[global] Instance M_ret : MRet M := λ A a st, (Normal a, st).
#[global] Instance M_bind : MBind M := λ A B f m st,
  match m st with
  | (Normal a, st') => f a st'
  | (Throw e, st') => (Throw e, st')
  end.

Definition get_this : M CmcdManager := λ st, (Normal (this st), st).

Definition set_this (f : CmcdManager → CmcdManager) : M unit :=
  λ st, (Normal (), {| this := f (this st); warned := warned st |}).

(** Evaluation of an expression that touches no state. *)
Definition lift {A} (c : completion A) : M A := λ st, (c, st).

(** [try { body } catch (error) { handler }] *)
Definition try_catch {A} (body : M A) (handler : exn → M A) : M A := λ st,
  match body st with
  | (Normal a, st') => (Normal a, st')
  | (Throw e, st') => handler e st'
  end.

(** Modelled from the spec: [shaka.log.warnOnce] is not part of this file; a
    failure is logged once per failure class, deduplicated by a stable error
    code.  The model records the code the first time it is reported. *)
Definition warnOnce (id : string) : M unit := λ st,
  (Normal (),
   if bool_decide (id ∈ warned st) then st
   else {| this := this st; warned := warned st ++ [id] |}).

Definition set_sf_ (v : option string) (c : CmcdManager) : CmcdManager :=
  {| config_ := config_ c; sid_ := sid_ c; sf_ := v;
     playbackStarted_ := playbackStarted_ c; buffering_ := buffering_ c;
     starved_ := starved_ c |}.

Definition set_playbackStarted_ (v : bool) (c : CmcdManager) : CmcdManager :=
  {| config_ := config_ c; sid_ := sid_ c; sf_ := sf_ c;
     playbackStarted_ := v; buffering_ := buffering_ c;
     starved_ := starved_ c |}.

Definition set_buffering_ (v : bool) (c : CmcdManager) : CmcdManager :=
  {| config_ := config_ c; sid_ := sid_ c; sf_ := sf_ c;
     playbackStarted_ := playbackStarted_ c; buffering_ := v;
     starved_ := starved_ c |}.

Definition set_starved_ (v : bool) (c : CmcdManager) : CmcdManager :=
  {| config_ := config_ c; sid_ := sid_ c; sf_ := sf_ c;
     playbackStarted_ := playbackStarted_ c; buffering_ := buffering_ c;
     starved_ := v |}.

(** [constructor(playerInterface, config)]; [randomUUID] is what
    [window.crypto.randomUUID()] returns. *)
Definition constructor (config : CmcdConfiguration) (randomUUID : string) : CmcdManager :=
  {| config_ := config;
     sid_ := if bool_decide (sessionId config = "") then randomUUID
             else sessionId config;
     sf_ := None;
     playbackStarted_ := false;
     buffering_ := true;
     starved_ := false |}.

(** [setBuffering(buffering)] *)
Definition setBuffering (buffering : bool) : M unit :=
  this ← get_this;
  (if negb buffering && negb (playbackStarted_ this)
   then set_this (set_playbackStarted_ true) else mret ());;
  this ← get_this;
  (if playbackStarted_ this && buffering
   then set_this (set_starved_ true) else mret ());;
  set_this (set_buffering_ buffering).

(** ** Static functions *)

(** The local functions of [serialize]. *)
Definition isValid (value : value) : bool :=
  negb (Number_isNaN value) && negb (is_nullish value)
  && negb (strict_eq value (VStr "")) && negb (strict_eq value (VBool false)).

Definition toRounded (value : value) : completion JS.value :=
  x ← ToNumber value; Normal (VNum (Math_round x)).

Definition toHundred (value : value) : completion JS.value :=
  x ← ToNumber value;
  r ← toRounded (VNum (x / 100)%float);
  y ← ToNumber r;
  Normal (VNum (y * 100)%float).

Definition toUrlSafe (value : value) : completion JS.value :=
  s ← ToString value; Normal (VStr (encodeURIComponent s)).

(** The table [formatters].  A key is looked up among the entries written
    here.  Under a name every object inherits (the list [inherited] below:
    [constructor], [toString], ...) the code finds a member of
    [Object.prototype] instead, which the table of the model does not hold: the
    model is [formatters[key]] for every other key, and a theorem that
    depends on the lookup for the keys of a payload assumes [plain_keys]. *)
Definition formatters : object (value → completion value) :=
  [("br", toRounded);
   ("d", toRounded);
   ("bl", toHundred);
   ("dl", toHundred);
   ("mtp", toHundred);
   ("nor", toUrlSafe);
   ("rtp", toHundred);
   ("tb", toRounded)].

(** Certain values require special formatting: [formatters[key]], applied
    to the value where there is one. *)
Definition format_value (key : string) (value : value) : completion JS.value :=
  match obj_lookup formatters key with
  | Some formatter => formatter value
  | None => Normal value
  end.

(** Serialize the key/value pair: the result for [key] and the formatted
    [value], by [typeof value].  The replacement made in a string puts a
    double quote for each double quote. *)
Definition serialize_pair (key : string) (value : value) : completion string :=
  let type := typeof value in
  if bool_decide (type = "string") && negb (bool_decide (key = "ot"))
     && negb (bool_decide (key = "sf")) && negb (bool_decide (key = "st"))
  then
    s ← ToString value;
    Normal (key +:+ "=" +:+ String dquote (
              replace_all dquote (String dquote EmptyString) s
              +:+ String dquote EmptyString))
  else if bool_decide (type = "boolean") then Normal key
  else if bool_decide (type = "symbol") then
    Normal (key +:+ "=" +:+ symbol_description value)
  else
    s ← ToString value;
    Normal (key +:+ "=" +:+ s).

(** One turn of the loop of [serialize] for [key]: [None] where the loop
    continues without a result, [Some result] where it pushes [result]. *)
Definition serialize_key (data : Data) (key : string) : completion (option string) :=
  let value := obj_get data key in
  (* ignore invalid values *)
  if negb (isValid value) then Normal None
  (* Version should only be reported if not equal to 1. *)
  else if bool_decide (key = "v") && strict_eq value (VNum 1) then Normal None
  (* Playback rate should only be sent if not equal to 1. *)
  else if bool_decide (key = "pr") && strict_eq value (VNum 1) then Normal None
  else
    value ← format_value key value;
    result ← serialize_pair key value;
    Normal (Some result).

Fixpoint serialize_loop (data : Data) (keys : list string) : completion (list string) :=
  match keys with
  | [] => Normal []
  | key :: keys =>
      result ← serialize_key data key;
      results ← serialize_loop data keys;
      Normal (match result with
              | Some result => result :: results
              | None => results
              end)
  end.

(** [serialize(data)]; a null [data] is read as the empty object, [[]]. *)
Definition serialize (data : Data) : completion string :=
  let keys := sort (Object_keys data) in
  results ← serialize_loop data keys;
  Normal (join "," results).

(** The loop of [serialize] again, each result next to the key it was pushed
    for: the keys are not part of what the function computes, they are kept
    to state properties of the output token by token. *)
Fixpoint serialize_tokens (data : Data) (keys : list string)
  : completion (list (string * string)) :=
  match keys with
  | [] => Normal []
  | key :: keys =>
      result ← serialize_key data key;
      results ← serialize_tokens data keys;
      Normal (match result with
              | Some result => (key, result) :: results
              | None => results
              end)
  end.

(** The constants of [toHeaders].  As for [formatters], [headerMap] is
    looked up among the entries written here: the model is [headerMap[key]]
    for every key but the inherited names, under which the code finds a
    member of [Object.prototype], takes it for the index and throws. *)
Definition headerNames : list string := ["Object"; "Request"; "Session"; "Status"].

Definition headerMap : object nat :=
  [("br", 0); ("d", 0); ("ot", 0); ("tb", 0);
   ("bl", 1); ("dl", 1); ("mtp", 1); ("nor", 1); ("nrr", 1); ("su", 1);
   ("cid", 2); ("pr", 2); ("sf", 2); ("sid", 2); ("st", 2); ("v", 2);
   ("bs", 3); ("rtp", 3)].

(** The first loop of [toHeaders]: each key goes to its group. *)
Definition headerGroups (data : Data) : list Data :=
  foldl (λ groups key,
           (* Unmapped fields are mapped to the Request header *)
           let index := default 1 (obj_lookup headerMap key) in
           alter (obj_set key (obj_get data key)) index groups)
        [[]; []; []; []] (Object_keys data).

(** The second loop of [toHeaders], over the groups and their names. *)
Fixpoint headers_loop (names : list string) (groups : list Data)
    (headers : object string) : completion (object string) :=
  match names, groups with
  | name :: names, group :: groups =>
      value ← serialize group;
      headers_loop names groups
        (if bool_decide (value = "") then headers
         else obj_set ("CMCD-" +:+ name) value headers)
  | _, _ => Normal headers
  end.

(** [toHeaders(data)] *)
Definition toHeaders (data : Data) : completion (object string) :=
  headers_loop headerNames (headerGroups data) [].

(** [toQuery(data)] *)
Definition toQuery (data : Data) : completion string :=
  s ← serialize data; Normal ("CMCD=" +:+ encodeURIComponent s).

(** [appendQueryToUri(uri, query)] *)
Definition appendQueryToUri (uri query : string) : string :=
  if bool_decide (query = "") then uri
  else if includes uri "offline:" then uri
  else
    let separator := if includes uri "?" then "&" else "?" in
    uri +:+ separator +:+ query.

(** ** Private methods *)

(** [createData_()] *)
Definition createData_ (playerInterface_ : PlayerInterface) : M Data :=
  this ← get_this;
  mret [("v", VNum Version);
        ("sf", from_option VStr undefined (sf_ this));
        ("sid", VStr (sid_ this));
        ("cid", VStr (contentId (config_ this)));
        ("mtp", VNum (getBandwidthEstimate playerInterface_ / 1000)%float)].

Definition set_headers (v : object string) (request : Request) : Request :=
  {| uris := uris request; headers := v |}.

Definition set_uris (v : list string) (request : Request) : Request :=
  {| uris := v; headers := headers request |}.

(** [apply_(request, data, useHeaders)].  The method changes [request] and
    [data] in place and returns nothing: the model returns both as they are
    when the method ends.  [useHeaders] is [None] where the caller leaves the
    argument out, which every caller in the class does; every caller passes
    [data]. *)
Definition apply_ (playerInterface_ : PlayerInterface) (request : Request)
    (data : Data) (useHeaders : option bool) : M (Request * Data) :=
  this ← get_this;
  let useHeaders := default (Cmcd.useHeaders (config_ this)) useHeaders in
  if negb (enabled (config_ this)) then mret (request, data)
  else
    (* apply baseline data *)
    baseline ← createData_ playerInterface_;
    let data := Object_assign data baseline in
    let data := obj_set "pr" (VNum (getPlaybackRate playerInterface_)) data in
    let isVideo := strict_eq (obj_get data "ot") (VStr ObjectType.VIDEO)
                   || strict_eq (obj_get data "ot") (VStr ObjectType.MUXED) in
    this ← get_this;
    data ← (if starved_ this && isVideo then
              let data := obj_set "bs" (VBool true) data in
              let data := obj_set "su" (VBool true) data in
              set_this (set_starved_ false);; mret data
            else mret data);
    this ← get_this;
    let data := if is_nullish (obj_get data "su")
                then obj_set "su" (VBool (buffering_ this)) data else data in
    if useHeaders then
      headers ← lift (toHeaders data);
      if bool_decide (length (Object_keys headers) = 0) then mret (request, data)
      else mret (set_headers (Object_assign (Cmcd.headers request) headers) request, data)
    else
      query ← lift (toQuery data);
      if bool_decide (query = "") then mret (request, data)
      else mret (set_uris ((λ uri, appendQueryToUri uri query) <$> uris request) request, data).

(** [getObjectType_(segmentInfo)] *)
Definition getObjectType_ (segmentInfo : SegmentInfo) : value :=
  let type := segment_type segmentInfo in
  if segment_init segmentInfo then VStr ObjectType.INIT
  else if bool_decide (type = "video") then
    if includes (segment_codecs segmentInfo) "," then VStr ObjectType.MUXED
    else VStr ObjectType.VIDEO
  else if bool_decide (type = "audio") then VStr ObjectType.AUDIO
  else if bool_decide (type = "text") then
    if bool_decide (segment_mimeType segmentInfo = "application/mp4")
    then VStr ObjectType.TIMED_TEXT
    else VStr ObjectType.CAPTION
  else undefined.

(** [getObjectTypeFromMimeType_(mimeType)] *)
Definition getObjectTypeFromMimeType_ (mimeType : string) : value :=
  if bool_decide (mimeType = "video/webm") || bool_decide (mimeType = "video/mp4")
  then VStr ObjectType.MUXED
  else if bool_decide (mimeType = "application/x-mpegurl")
  then VStr ObjectType.MANIFEST
  else undefined.

(** [bufferedInfo[type]]: [None] where the object has no such property.
    The object has the four properties below and inherits the members of
    [Object.prototype]: the model is [bufferedInfo[type]] for every [type]
    but the inherited names. *)
Definition BufferedInfo_get (info : BufferedInfo) (type : string)
  : option (list BufferedRange) :=
  if bool_decide (type = "total") then Some (buffered_total info)
  else if bool_decide (type = "audio") then Some (buffered_audio info)
  else if bool_decide (type = "video") then Some (buffered_video info)
  else if bool_decide (type = "text") then Some (buffered_text info)
  else None.

(** [getBufferLength_(type)]; reading [length] of an undefined [ranges]
    throws. *)
Definition getBufferLength_ (playerInterface_ : PlayerInterface) (type : string)
  : completion number :=
  match BufferedInfo_get (getBufferedInfo playerInterface_) type with
  | None => Throw TypeError
  | Some ranges =>
      if bool_decide (length ranges = 0) then Normal nan
      else
        let start := getCurrentTime playerInterface_ in
        match find (λ r, (range_start r <=? start)%float
                         && (start <=? range_end r)%float) ranges with
        | None => Normal nan
        | Some range => Normal ((range_end range - start) * 1000)%float
        end
  end.

(** [getStreamType_()] *)
Definition getStreamType_ (playerInterface_ : PlayerInterface) : string :=
  if isLive playerInterface_ then StreamType.LIVE else StreamType.VOD.

(** [(variant[type] || variant).bandwidth] for a variant, [type] being a
    content type: a variant has streams under [audio] and [video], and
    nothing under another content type.  Under a [type] that names another
    property of a variant ([bandwidth], an inherited name) the code reads
    that property instead: the theorems on the top bandwidth take [type]
    among audio, video and text. *)
Definition variant_stream_bandwidth (variant : Variant) (type : string) : option number :=
  let stream := if bool_decide (type = "audio") then variant_audio variant
                else if bool_decide (type = "video") then variant_video variant
                else None in
  match stream with
  | Some stream => stream_bandwidth stream
  | None => Some (variant_bandwidth variant)
  end.

(** [a > b] on two [number|undefined]: undefined converts to NaN, which
    compares false. *)
Definition bandwidth_gt (a b : option number) : bool :=
  (default nan b <? default nan a)%float.

(** [getTopBandwidth_(type)].  Of [top] and [stream] the method reads
    [bandwidth] alone, so the model keeps that property for each.  With an
    empty array [variants[0]] is undefined and reading a property of it
    throws. *)
Definition getTopBandwidth_ (playerInterface_ : PlayerInterface) (type : string)
  : completion (option number) :=
  match getManifest playerInterface_ with
  | None => Normal (Some nan)
  | Some manifest =>
      let variants :=
        if bool_decide (type = "text")
        then stream_bandwidth <$> textStreams manifest
        else (λ variant, variant_stream_bandwidth variant type) <$> Cmcd.variants manifest in
      match variants with
      | [] => Throw TypeError
      | first :: _ =>
          Normal (foldl (λ top stream, if bandwidth_gt stream top then stream else top)
                      first variants)
      end
  end.

(** ** Public methods *)

(** [applyManifestData(request, manifestInfo)] *)
Definition applyManifestData (playerInterface_ : PlayerInterface)
    (request : Request) (manifestInfo : ManifestInfo) : M Request :=
  try_catch
    (this ← get_this;
     if negb (enabled (config_ this)) then mret request
     else
       set_this (set_sf_ (Some (format manifestInfo)));;
       this ← get_this;
       '(request, _) ← apply_ playerInterface_ request
           [("ot", VStr ObjectType.MANIFEST);
            ("su", VBool (negb (playbackStarted_ this)))] None;
       mret request)
    (λ error, warnOnce "CMCD_MANIFEST_ERROR";; mret request).

(** [applySegmentData(request, segmentInfo)] *)
Definition applySegmentData (playerInterface_ : PlayerInterface)
    (request : Request) (segmentInfo : SegmentInfo) : M Request :=
  try_catch
    (this ← get_this;
     if negb (enabled (config_ this)) then mret request
     else
       let data : Data :=
         [("d", VNum (segment_duration segmentInfo * 1000)%float);
          ("st", VStr (getStreamType_ playerInterface_))] in
       let data := obj_set "ot" (getObjectType_ segmentInfo) data in
       let isMedia :=
         strict_eq (obj_get data "ot") (VStr ObjectType.VIDEO)
         || strict_eq (obj_get data "ot") (VStr ObjectType.AUDIO)
         || strict_eq (obj_get data "ot") (VStr ObjectType.MUXED)
         || strict_eq (obj_get data "ot") (VStr ObjectType.TIMED_TEXT) in
       data ← (if isMedia then
                 bl ← lift (getBufferLength_ playerInterface_ (segment_type segmentInfo));
                 mret (obj_set "bl" (VNum bl) data)
               else mret data);
       let data :=
         match segment_bandwidth segmentInfo with
         | Some bandwidth =>
             if ToBoolean (VNum bandwidth)
             then obj_set "br" (VNum (bandwidth / 1000)%float) data else data
         | None => data
         end in
       top ← lift (getTopBandwidth_ playerInterface_ (segment_type segmentInfo));
       let data := obj_set "tb" (VNum (default nan top / 1000)%float) data in
       '(request, _) ← apply_ playerInterface_ request data None;
       mret request)
    (λ error, warnOnce "CMCD_SEGMENT_ERROR";; mret request).

(** [applyTextData(request)] *)
Definition applyTextData (playerInterface_ : PlayerInterface)
    (request : Request) : M Request :=
  try_catch
    ('(request, _) ← apply_ playerInterface_ request
         [("ot", VStr ObjectType.CAPTION); ("su", VBool true)] None;
     mret request)
    (λ error, warnOnce "CMCD_TEXT_ERROR";; mret request).

(** [appendSrcData(uri, mimeType)] *)
Definition appendSrcData (playerInterface_ : PlayerInterface)
    (uri mimeType : string) : M string :=
  try_catch
    (this ← get_this;
     if negb (enabled (config_ this)) then mret uri
     else
       data ← createData_ playerInterface_;
       let data := obj_set "ot" (getObjectTypeFromMimeType_ mimeType) data in
       let data := obj_set "su" (VBool true) data in
       query ← lift (toQuery data);
       mret (appendQueryToUri uri query))
    (λ error, warnOnce "CMCD_SRC_ERROR";; mret uri).

(** [appendTextTrackData(uri)] *)
Definition appendTextTrackData (playerInterface_ : PlayerInterface)
    (uri : string) : M string :=
  try_catch
    (this ← get_this;
     if negb (enabled (config_ this)) then mret uri
     else
       data ← createData_ playerInterface_;
       let data := obj_set "ot" (VStr ObjectType.CAPTION) data in
       let data := obj_set "su" (VBool true) data in
       query ← lift (toQuery data);
       mret (appendQueryToUri uri query))
    (λ error, warnOnce "CMCD_TEXT_TRACK_ERROR";; mret uri).

End Cmcd.

(** * Vocabulary of the properties *)

Import JS Cmcd.

(** [s] between two double-quote characters. *)
Definition quoted (s : string) : string :=
  String dquote (s +:+ String dquote EmptyString).

(** [t] occurs in [s]. *)
Definition occurs_in (t s : string) : Prop :=
  ∃ before after, s = before +:+ t +:+ after.

(** Strictly ascending code-unit order on strings. *)
Definition strictly_below (s t : string) : Prop := String.ltb s t.

(** No value of [data] is a symbol: the values of a payload are numbers,
    strings and booleans, or missing. *)
Definition is_symbol (v : value) : bool :=
  match v with
  | VSym _ => true
  | _ => false
  end.

Definition symbol_free (data : Data) : Prop :=
  Forall (λ kv, is_symbol kv.2 = false) data.

(** The type the [Data] typedef gives to the value of each key: a number
    under the keys of [number_keys], a string under those of [string_keys]
    (the three enumerations are strings), a boolean under those of
    [boolean_keys], each of them possibly undefined.  A key the typedef does
    not name is left free. *)
Definition number_keys : list string :=
  ["br"; "d"; "tb"; "bl"; "dl"; "mtp"; "pr"; "v"; "rtp"].

Definition string_keys : list string :=
  ["nor"; "nrr"; "cid"; "sid"; "ot"; "sf"; "st"].

Definition boolean_keys : list string := ["su"; "bs"].

Definition conforms (key : string) (v : value) : Prop :=
  match v with
  | undefined => True
  | VNum _ => (key ∉ string_keys) ∧ (key ∉ boolean_keys)
  | VStr _ => (key ∉ number_keys) ∧ (key ∉ boolean_keys)
  | VBool _ => (key ∉ number_keys) ∧ (key ∉ string_keys)
  | null | VSym _ =>
      (key ∉ number_keys) ∧ (key ∉ string_keys) ∧ (key ∉ boolean_keys)
  end.

Definition well_typed (data : Data) : Prop :=
  Forall (λ kv, conforms kv.1 kv.2) data.

(** The names a plain object inherits from [Object.prototype].  Under such
    a name [formatters[key]], [headerMap[key]] and [bufferedInfo[type]] find
    a member of the prototype, which the tables of the model do not hold; a
    payload with plain keys has none of them among its keys.  No key of the
    [Data] typedef is among them. *)
Definition inherited : list string :=
  ["constructor"; "hasOwnProperty"; "isPrototypeOf"; "propertyIsEnumerable";
   "toLocaleString"; "toString"; "valueOf"; "__proto__";
   "__defineGetter__"; "__defineSetter__"; "__lookupGetter__";
   "__lookupSetter__"].

Definition plain_keys (data : Data) : Prop :=
  Forall (λ kv, kv.1 ∉ inherited) data.

(** The condition under which [serialize] keeps the field [key] of [data]. *)
Definition kept (data : Data) (key : string) : Prop :=
  let v := obj_get data key in
  Number_isNaN v = false ∧ v ≠ null ∧ v ≠ undefined
  ∧ v ≠ VStr EmptyString ∧ v ≠ VBool false
  ∧ ¬ (key = "v" ∧ strict_eq v (VNum 1) = true)
  ∧ ¬ (key = "pr" ∧ strict_eq v (VNum 1) = true).

(** What the table [formatters] makes of a number under [key]. *)
Definition formatted_number (key : string) (x : number) : number :=
  if bool_decide (key = "br") || bool_decide (key = "d")
     || bool_decide (key = "tb")
  then Math_round x
  else if bool_decide (key = "bl") || bool_decide (key = "dl")
          || bool_decide (key = "mtp") || bool_decide (key = "rtp")
  then (Math_round (x / 100) * 100)%float
  else x.

(** The baseline data [createData_] returns for a manager. *)
Definition baseline (playerInterface_ : PlayerInterface) (this : CmcdManager) : Data :=
  [("v", VNum Version);
   ("sf", from_option VStr undefined (sf_ this));
   ("sid", VStr (sid_ this));
   ("cid", VStr (contentId (config_ this)));
   ("mtp", VNum (getBandwidthEstimate playerInterface_ / 1000)%float)].

(** The object type of a payload is VIDEO or MUXED. *)
Definition is_video (data : Data) : Prop :=
  obj_get data "ot" = VStr ObjectType.VIDEO
  ∨ obj_get data "ot" = VStr ObjectType.MUXED.

(** The manager after a run. *)
Definition manager_after {A} (r : completion A * State) : CmcdManager := this r.2.

(** ** Sample inputs *)

Definition sample_payload : Data :=
  [("su", VBool true); ("ot", VStr "v"); ("br", VNum 500)].

Definition sample_config (headers_mode : bool) : CmcdConfiguration :=
  {| enabled := true; useHeaders := headers_mode;
     sessionId := "sid-1"; contentId := "cid-1" |}.

Definition empty_manifest : Manifest := {| variants := []; textStreams := [] |}.

Definition sample_player (manifest : option Manifest) : PlayerInterface :=
  {| getBandwidthEstimate := 5000000;
     getBufferedInfo :=
       {| buffered_total := []; buffered_audio := [];
          buffered_video := [{| range_start := 0; range_end := 5 |}];
          buffered_text := [] |};
     getCurrentTime := 3;
     getManifest := manifest;
     getPlaybackRate := 1;
     isLive := false |}.

Definition sample_segment : SegmentInfo :=
  {| segment_type := "video"; segment_init := false; segment_duration := 4;
     segment_mimeType := "video/mp4"; segment_codecs := "avc1";
     segment_bandwidth := Some 2000000%float |}.

Definition sample_request : Request :=
  {| uris := ["http://a/b"; "http://m/b?x=1"]; headers := [("Accept", "x")] |}.

(** A new manager, in header mode or in query mode. *)
Definition sample_state (headers_mode : bool) : State :=
  {| this := constructor (sample_config headers_mode) "uuid"; warned := [] |}.

(** A new manager whose configuration is not enabled. *)
Definition disabled_state : State :=
  {| this := constructor {| enabled := false; useHeaders := true;
                            sessionId := "sid-1"; contentId := "cid-1" |} "uuid";
     warned := [] |}.

(** The payload of a video segment as [applySegmentData] starts it. *)
Definition sample_video_data : Data :=
  [("d", VNum 4000); ("st", VStr StreamType.VOD); ("ot", VStr ObjectType.VIDEO)].

(** A manager that has started playback and then starved. *)
Definition sample_starved_state : State :=
  ((setBuffering false;; setBuffering true) (sample_state true)).2.

(** ** Vocabulary of the further properties *)

(** The index of the group [toHeaders] puts [key] in. *)
Definition header_index (key : string) : nat :=
  default 1 (obj_lookup headerMap key).

(** The fields of [data] whose key belongs to the group [index]. *)
Definition group_fields (index : nat) (data : Data) : Data :=
  filter (λ kv, header_index kv.1 = index) (data : list (string * value)).

(** The header [toHeaders] writes for the group [index]. *)
Definition header_name (index : nat) : string :=
  "CMCD-" +:+ default EmptyString (headerNames !! index).

(** [m] leaves every state it runs on in relation [R] with the state it
    ends in, whether it ends normally or by throwing. *)
Definition keeps {A} (R : relation State) (m : M A) : Prop :=
  ∀ st, R st (m st).2.

(** What a request or uri method leaves of a state: the configuration, the
    session id and the two playback flags as they are, [starved] as it is or
    cleared, the log as it is or longer. *)
Definition playback_kept (st st' : State) : Prop :=
  config_ (this st') = config_ (this st)
  ∧ sid_ (this st') = sid_ (this st)
  ∧ playbackStarted_ (this st') = playbackStarted_ (this st)
  ∧ buffering_ (this st') = buffering_ (this st)
  ∧ (starved_ (this st') = true → starved_ (this st) = true)
  ∧ warned st `prefix_of` warned st'.

Definition format_kept (st st' : State) : Prop :=
  sf_ (this st') = sf_ (this st).

Definition manager_kept (st st' : State) : Prop :=
  this st' = this st.

(** The calls a player makes on a manager, and the state a sequence of them
    leaves. *)
Inductive call : Type :=
  | call_setBuffering (buffering : bool)
  | call_applyManifestData (playerInterface_ : PlayerInterface)
      (request : Request) (manifestInfo : ManifestInfo)
  | call_applySegmentData (playerInterface_ : PlayerInterface)
      (request : Request) (segmentInfo : SegmentInfo)
  | call_applyTextData (playerInterface_ : PlayerInterface) (request : Request)
  | call_appendSrcData (playerInterface_ : PlayerInterface)
      (uri mimeType : string)
  | call_appendTextTrackData (playerInterface_ : PlayerInterface) (uri : string).

Definition run_call (c : call) (st : State) : State :=
  match c with
  | call_setBuffering buffering => (setBuffering buffering st).2
  | call_applyManifestData playerInterface_ request manifestInfo =>
      (applyManifestData playerInterface_ request manifestInfo st).2
  | call_applySegmentData playerInterface_ request segmentInfo =>
      (applySegmentData playerInterface_ request segmentInfo st).2
  | call_applyTextData playerInterface_ request =>
      (applyTextData playerInterface_ request st).2
  | call_appendSrcData playerInterface_ uri mimeType =>
      (appendSrcData playerInterface_ uri mimeType st).2
  | call_appendTextTrackData playerInterface_ uri =>
      (appendTextTrackData playerInterface_ uri st).2
  end.

Definition run_calls (calls : list call) (st : State) : State :=
  foldl (λ st c, run_call c st) st calls.

(** The state of a manager just constructed. *)
Definition new_state (config : CmcdConfiguration) (randomUUID : string) : State :=
  {| this := constructor config randomUUID; warned := [] |}.

(** [request'] is [request] with the payload applied, in header mode or in
    query mode.  In header mode the uris are those of [request] and a header
    is the one [toHeaders] makes of the payload, or the one [request] has
    where [toHeaders] makes none of that name; in query mode the headers are
    those of [request] and each uri has the query of the payload appended. *)
Definition applied (useHeaders : bool) (payload : Data)
    (request request' : Request) : Prop :=
  if useHeaders then
    uris request' = uris request
    ∧ ∃ new, toHeaders payload = Normal new
        ∧ ∀ name, obj_lookup (headers request') name
            = from_option Some (obj_lookup (headers request) name)
                (obj_lookup new name)
  else
    headers request' = headers request
    ∧ ∃ s, serialize payload = Normal s
        ∧ uris request'
          = (λ uri, appendQueryToUri uri ("CMCD=" +:+ encodeURIComponent s))
            <$> uris request.

(** The fields of a payload whose value [serialize] does not ignore. *)
Definition valid_fields (data : Data) : Data :=
  filter (λ kv, isValid kv.2 = true) (data : list (string * value)).

(** The buffered range [range] contains the time [time]. *)
Definition contains (range : BufferedRange) (time : number) : bool :=
  (range_start range <=? time)%float && (time <=? range_end range)%float.

(** * Properties *)

(** ** Tactics *)

(** Decides the comparisons of two string literals in the goal. *)
Ltac decide_keys :=
  repeat match goal with
    | |- context [bool_decide (?a = ?b)] =>
        first [ rewrite (bool_decide_true (a = b)) by done
              | rewrite (bool_decide_false (a = b)) by done ]
    end.

(** Membership of a string literal in a list of literals, and its negation. *)
Ltac in_list := by repeat constructor.
Ltac not_in_list := by apply (bool_decide_unpack _).

(** Unfolds the monad of the methods. *)
Ltac run_method :=
  unfold try_catch, lift, get_this, set_this, warnOnce, createData_;
  unfold mbind, mret, M_bind, M_ret;
  cbn -[Object_assign obj_get obj_set toHeaders toQuery appendQueryToUri
        getBufferLength_ getTopBandwidth_ getObjectType_
        getObjectTypeFromMimeType_ strict_eq ToBoolean].


(** ** Strings *)

Lemma append_nil_l (s : string) : "" +:+ s = s.
Proof. reflexivity. Qed.

Lemma append_cons (a : ascii) (s t : string) :
  String a s +:+ t = String a (s +:+ t).
Proof. reflexivity. Qed.

Lemma append_nil_r (s : string) : s +:+ "" = s.
Proof. induction s as [|a s IH]; [done|]. by rewrite append_cons, IH. Qed.

Lemma append_assoc (s t u : string) : (s +:+ t) +:+ u = s +:+ t +:+ u.
Proof.
  induction s as [|a s IH]; [done|]. by rewrite !append_cons, IH.
Qed.

Lemma prefix_spec (t s : string) :
  String.prefix t s = true ↔ ∃ after, s = t +:+ after.
Proof.
  revert s. induction t as [|a t IH]; intros s.
  - split; [intros _; by exists s|]. by destruct s.
  - destruct s as [|b s]; simpl.
    + split; [done|]. by intros [after Hs].
    + destruct (ascii_dec a b) as [->|Hab].
      * rewrite IH. split; intros [after Hs]; exists after.
        -- by rewrite append_cons, <- Hs.
        -- rewrite append_cons in Hs. by simplify_eq.
      * split; [done|]. intros [after Hs].
        rewrite append_cons in Hs. by simplify_eq.
Qed.

Lemma includes_spec (s t : string) : includes s t = true ↔ occurs_in t s.
Proof.
  induction s as [|a s IH].
  - cbn [includes]. destruct (String.prefix t "") eqn:Hp.
    + split; [intros _|done]. apply prefix_spec in Hp as [after Hs].
      by exists "", after.
    + split; [done|]. intros (before & after & Hs).
      destruct before; [|done]. rewrite append_nil_l in Hs.
      assert (String.prefix t "" = true) by (apply prefix_spec; eauto).
      congruence.
  - cbn [includes]. destruct (String.prefix t (String a s)) eqn:Hp.
    + split; [intros _|done]. apply prefix_spec in Hp as [after Hs].
      by exists "", after.
    + rewrite IH. split.
      * intros (before & after & ->). exists (String a before), after.
        by rewrite append_cons.
      * intros (before & after & Hs). destruct before as [|b before].
        -- rewrite append_nil_l in Hs.
           assert (String.prefix t (String a s) = true)
             by (apply prefix_spec; eauto).
           congruence.
        -- rewrite append_cons in Hs. simplify_eq. by exists before, after.
Qed.

Lemma replace_all_same (c : ascii) (s : string) :
  replace_all c (String c "") s = s.
Proof.
  induction s as [|a s IH]; [done|]. cbn [replace_all]. rewrite IH.
  destruct (Ascii.eqb_spec a c) as [->|]; by rewrite append_cons, append_nil_l.
Qed.

(** ** [appendQueryToUri] *)

Lemma appendQueryToUri_cases (uri query : string) :
  appendQueryToUri uri query =
    if bool_decide (query = "") then uri
    else if includes uri "offline:" then uri
    else if includes uri "?" then uri +:+ "&" +:+ query
    else uri +:+ "?" +:+ query.
Proof. unfold appendQueryToUri. by repeat case_match. Qed.

(** C7, as amended: [appendQueryToUri] returns the uri as it is when the
    query is empty or the text [offline:] occurs anywhere in the uri (a
    substring test: it holds of every uri whose scheme is [offline:], and of
    any other uri that has the text somewhere); where the query is not empty
    and [offline:] does not occur in the uri, it returns the uri, then [&] if
    [?] occurs in the uri and [?] if not, then the query.  The two examples
    of the specification follow. *)
Theorem appendQueryToUri_spec :
  (∀ uri query : string,
     (query = "" → appendQueryToUri uri query = uri)
     ∧ ((∃ rest, uri = "offline:" +:+ rest) → appendQueryToUri uri query = uri)
     ∧ (occurs_in "offline:" uri → appendQueryToUri uri query = uri)
     ∧ (query ≠ "" → ¬ occurs_in "offline:" uri →
        (occurs_in "?" uri → appendQueryToUri uri query = uri +:+ "&" +:+ query)
        ∧ (¬ occurs_in "?" uri → appendQueryToUri uri query = uri +:+ "?" +:+ query)))
  ∧ appendQueryToUri "http://a/b?x=1" "CMCD=foo" = "http://a/b?x=1&CMCD=foo"
  ∧ appendQueryToUri "http://a/b" "CMCD=foo" = "http://a/b?CMCD=foo".
Proof.
  split; [|done]. intros uri query.
  rewrite appendQueryToUri_cases.
  assert (Hoff : occurs_in "offline:" uri → includes uri "offline:" = true)
    by apply includes_spec.
  split_and!.
  - intros ->. done.
  - intros [rest ->]. rewrite Hoff; [by case_bool_decide|].
    by exists "", rest.
  - intros H. rewrite (Hoff H). by case_bool_decide.
  - intros Hq Hno. rewrite bool_decide_false by done.
    destruct (includes uri "offline:") eqn:Ho.
    { by apply includes_spec in Ho. }
    destruct (includes uri "?") eqn:Hm.
    + split; [done|]. intros []. by apply includes_spec.
    + split; [|done]. intros Hin%includes_spec. congruence.
Qed.

Lemma appendQueryToUri_spec_witness :
  appendQueryToUri "offline:manifest/1" "CMCD=foo" = "offline:manifest/1"
  ∧ appendQueryToUri "http://a/b?x=1" "CMCD=foo" = "http://a/b?x=1&CMCD=foo".
Proof.
  destruct (proj1 appendQueryToUri_spec "offline:manifest/1" "CMCD=foo")
    as (_ & Hscheme & _ & _).
  destruct (proj1 appendQueryToUri_spec "http://a/b?x=1" "CMCD=foo")
    as (_ & _ & _ & Hother).
  split.
  - apply Hscheme. exists "manifest/1". reflexivity.
  - apply Hother.
    + discriminate.
    + intros Hin. apply includes_spec in Hin. vm_compute in Hin. discriminate.
    + apply includes_spec. vm_compute. reflexivity.
Defined.

(** C7 as the specification words it does not hold: an http uri that is no
    offline resource (its scheme is http, it does not start with [offline:])
    but has [offline:] in its query string is returned as it is although the
    query is not empty, where the specification has the query appended after
    [&]. *)
Lemma appendQueryToUri_not_appended_to_http_uri :
  let uri := "http://a/b?next=offline:c" in
  String.prefix "http://" uri = true
  ∧ String.prefix "offline:" uri = false
  ∧ "CMCD=foo" ≠ ""
  ∧ includes uri "?" = true
  ∧ appendQueryToUri uri "CMCD=foo" = uri
  ∧ appendQueryToUri uri "CMCD=foo" ≠ uri +:+ "&" +:+ "CMCD=foo".
Proof. by vm_compute. Qed.

(** C9: with a non-empty query, [appendQueryToUri] returns the uri as it is
    whenever [offline:] occurs anywhere in it, not only as its scheme; so
    does an http uri with [offline:] in its query string. *)
Theorem appendQueryToUri_offline_anywhere :
  (∀ uri query : string,
     query ≠ "" → occurs_in "offline:" uri → appendQueryToUri uri query = uri)
  ∧ appendQueryToUri "http://a/b?next=offline:c" "CMCD=foo"
    = "http://a/b?next=offline:c".
Proof.
  split; [|done]. intros uri query _ Hin%includes_spec.
  rewrite appendQueryToUri_cases, Hin. by case_bool_decide.
Qed.

Lemma appendQueryToUri_offline_anywhere_witness :
  "CMCD=foo" ≠ "" ∧ occurs_in "offline:" "http://a/offline:b"
  ∧ appendQueryToUri "http://a/offline:b" "CMCD=foo" = "http://a/offline:b".
Proof.
  assert (Hq : "CMCD=foo" ≠ "") by done.
  assert (Hin : occurs_in "offline:" "http://a/offline:b")
    by (by exists "http://a/", "b").
  split_and!; [done..|].
  exact (proj1 appendQueryToUri_offline_anywhere _ _ Hq Hin).
Defined.

(** ** [setBuffering] *)

Lemma setBuffering_run (buffering : bool) (st : State) :
  setBuffering buffering st =
    (Normal (),
     {| this :=
          {| config_ := config_ (this st);
             sid_ := sid_ (this st);
             sf_ := sf_ (this st);
             playbackStarted_ := playbackStarted_ (this st) || negb buffering;
             buffering_ := buffering;
             starved_ := starved_ (this st)
                         || (playbackStarted_ (this st) && buffering) |};
        warned := warned st |}).
Proof.
  destruct st as [[c sid sf started buf starved] w].
  by destruct buffering, started, starved.
Qed.

(** C2, as amended: [setBuffering] compares nothing with the previous
    buffering value.  It always ends normally; it sets [starved] exactly when
    playback had already started and the new value is true, whatever the
    value before, and leaves [starved] as it was otherwise; it sets
    [buffering] to the new value and marks playback started on a false
    value.  A call repeated at once changes nothing more, and a call with
    true on a started manager whose [starved] is false and whose [buffering]
    is already true sets [starved]. *)
Theorem setBuffering_level_triggered (buffering : bool) (st : State) :
  let st' := (setBuffering buffering st).2 in
  (setBuffering buffering st).1 = Normal ()
  ∧ starved_ (this st')
    = starved_ (this st) || (playbackStarted_ (this st) && buffering)
  ∧ buffering_ (this st') = buffering
  ∧ playbackStarted_ (this st') = playbackStarted_ (this st) || negb buffering
  ∧ (setBuffering buffering st').2 = st'
  ∧ starved_ (this (setBuffering true
       {| this := set_buffering_ true (set_starved_ false
                    (set_playbackStarted_ true (this st)));
          warned := warned st |}).2) = true.
Proof.
  rewrite !setBuffering_run. cbn.
  split_and!; try done.
  destruct st as [[c sid sf started buf starved] w]; cbn.
  by destruct buffering, started, starved.
Qed.

(** C2, as stated, fails: the manager starts playback, starves, a video
    segment request consumes [starved], and a second [setBuffering(true)]
    with no [setBuffering(false)] in between sets [starved] again.  So a
    call with the value [buffering] already has does not always leave
    [starved] as it was. *)
Lemma setBuffering_repeated_true_sets_starved :
  let st1 := (setBuffering false;; setBuffering true;;
              applySegmentData (sample_player None) sample_request sample_segment)
               (sample_state true) in
  (buffering_ (manager_after st1) = true
   ∧ playbackStarted_ (manager_after st1) = true
   ∧ starved_ (manager_after st1) = false
   ∧ starved_ (manager_after (setBuffering true st1.2)) = true)
  ∧ ¬ (∀ (buffering : bool) (st : State),
         buffering_ (this st) = buffering →
         starved_ (manager_after (setBuffering buffering st)) = starved_ (this st)).
Proof.
  split; [by vm_compute|].
  intros Hclaim.
  specialize (Hclaim true
    ((setBuffering false;; setBuffering true;;
      applySegmentData (sample_player None) sample_request sample_segment)
       (sample_state true)).2 eq_refl).
  vm_compute in Hclaim. done.
Qed.

(** ** [serialize]: one key *)

Lemma serialize_pair_string (key s : string) :
  key ≠ "ot" → key ≠ "sf" → key ≠ "st" →
  serialize_pair key (VStr s) = Normal (key +:+ "=" +:+ quoted s).
Proof.
  intros. unfold serialize_pair. cbn [typeof].
  rewrite (bool_decide_true ("string" = "string")) by done.
  rewrite !(bool_decide_false (key = _)) by done. cbn.
  by rewrite replace_all_same.
Qed.

Lemma serialize_singleton (key : string) (v : value) :
  serialize [(key, v)] = r ← serialize_key [(key, v)] key; Normal (default "" r).
Proof.
  unfold serialize, Object_keys, sort. cbn.
  destruct (serialize_key _ _) as [[r|]|e]; cbn; [|done..].
  unfold join. cbn. done.
Qed.

(** C1 (the code departs from it): a string under [cid] is written between
    double quotes with its own double quotes left as they are, since the
    replacement the method makes puts a double quote for each double quote.
    So the three characters a, double quote, b under [cid] give [cid=], a
    double quote, the same three characters and a double quote: nothing is
    escaped. *)
Theorem serialize_embedded_quote_unescaped :
  (∀ s : string,
     serialize [("cid", VStr s)]
     = Normal (if bool_decide (s = "") then "" else "cid=" +:+ quoted s))
  ∧ serialize [("cid", VStr (String "a" (String dquote "b")))]
    = Normal ("cid=" +:+ String dquote (String "a" (String dquote (String "b" (String dquote ""))))).
Proof.
  split; [|by vm_compute].
  intros s. rewrite serialize_singleton.
  unfold serialize_key, obj_get, isValid, format_value. cbn. decide_keys. cbn.
  case_bool_decide; cbn; [done|].
  by rewrite serialize_pair_string.
Qed.

(** ** Objects *)

Section objects.
Context {V : Type}.
Implicit Types (o : object V) (key : string) (v : V).

Lemma obj_lookup_elem_of o key v : obj_lookup o key = Some v → (key, v) ∈ o.
Proof.
  induction o as [|[k w] o IH]; [done|]. cbn.
  case_bool_decide; intros; simplify_eq; [left|right; auto].
Qed.

Lemma obj_lookup_None o key : obj_lookup o key = None ↔ key ∉ o.*1.
Proof.
  induction o as [|[k w] o IH]; cbn.
  - split; [intros _; apply not_elem_of_nil|done].
  - rewrite not_elem_of_cons. case_bool_decide as Hk.
    + split; [done|]. by intros [? _].
    + rewrite IH. split; [done|]. by intros [_ ?].
Qed.

Lemma obj_lookup_unique o key v :
  is_object o → (key, v) ∈ o → obj_lookup o key = Some v.
Proof.
  unfold is_object. induction o as [|[k w] o IH]; cbn; [by intros _ ?%elem_of_nil|].
  intros [Hk Ho]%NoDup_cons [?|Hin]%elem_of_cons; simplify_eq.
  - by rewrite bool_decide_true.
  - rewrite bool_decide_false; [by apply IH|].
    intros ->. apply Hk. apply list_elem_of_fmap. by exists (key, v).
Qed.

Lemma obj_lookup_Permutation o o' key :
  is_object o → o' ≡ₚ o → obj_lookup o' key = obj_lookup o key.
Proof.
  intros Ho Hperm.
  assert (Ho' : is_object o') by (unfold is_object; by rewrite Hperm).
  apply option_eq. intros v. split; intros Hv%obj_lookup_elem_of.
  - apply obj_lookup_unique; [done|]. by rewrite <- Hperm.
  - apply obj_lookup_unique; [done|]. by rewrite Hperm.
Qed.

Lemma obj_lookup_set o key key' v :
  obj_lookup (obj_set key v o) key'
  = if bool_decide (key = key') then Some v else obj_lookup o key'.
Proof.
  induction o as [|[k w] o IH]; cbn.
  - done.
  - repeat (case_bool_decide; cbn; simplify_eq); try done;
      rewrite IH; by repeat (case_bool_decide; simplify_eq).
Qed.

Lemma obj_set_keys o key v :
  Object_keys (obj_set key v o)
  = if bool_decide (key ∈ Object_keys o) then Object_keys o
    else Object_keys o ++ [key].
Proof.
  unfold Object_keys. induction o as [|[k w] o IH]; cbn; [done|].
  destruct (decide (k = key)) as [->|Hne].
  - rewrite bool_decide_true by done. cbn.
    rewrite bool_decide_true; [done|left].
  - rewrite bool_decide_false by done. cbn. rewrite IH.
    destruct (decide (key ∈ o.*1)) as [Hin|Hin].
    + rewrite !bool_decide_true; [done|by right|done].
    + rewrite !bool_decide_false; [done| |done].
      intros [?|?]%elem_of_cons; by simplify_eq.
Qed.

Lemma obj_set_is_object o key v : is_object o → is_object (obj_set key v o).
Proof.
  unfold is_object. intros Ho.
  pose proof (obj_set_keys o key v) as Hk. unfold Object_keys in Hk.
  rewrite Hk. case_bool_decide; [done|].
  apply NoDup_app. split_and!; [done| |apply NoDup_singleton].
  intros x Hx ->%list_elem_of_singleton. done.
Qed.
Lemma Object_assign_is_object (target source : object V) :
  is_object target → is_object (Object_assign target source).
Proof.
  unfold Object_assign. revert target.
  induction source as [|[k v] source IH]; intros target Ht; cbn; [done|].
  apply IH. by apply obj_set_is_object.
Qed.
End objects.

Lemma obj_get_set (o : Data) (key key' : string) (v : value) :
  obj_get (obj_set key v o) key'
  = if bool_decide (key = key') then v else obj_get o key'.
Proof. unfold obj_get. rewrite obj_lookup_set. by case_bool_decide. Qed.

Lemma obj_get_conforms (data : Data) (key : string) :
  well_typed data → conforms key (obj_get data key).
Proof.
  intros Hwt. unfold obj_get.
  destruct (obj_lookup data key) as [v|] eqn:Hv; [|done].
  apply obj_lookup_elem_of in Hv.
  by apply (proj1 (Forall_forall _ _) Hwt (key, v)).
Qed.

Lemma obj_get_symbol_free (data : Data) (key : string) :
  symbol_free data → is_symbol (obj_get data key) = false.
Proof.
  intros Hsf. unfold obj_get.
  destruct (obj_lookup data key) as [v|] eqn:Hv; [|done].
  apply obj_lookup_elem_of in Hv.
  by apply (proj1 (Forall_forall _ _) Hsf (key, v)).
Qed.

Lemma obj_get_Permutation (data data' : Data) (key : string) :
  is_object data → data' ≡ₚ data → obj_get data' key = obj_get data key.
Proof. intros. unfold obj_get. by erewrite obj_lookup_Permutation. Qed.

Lemma obj_set_symbol_free (data : Data) (key : string) (v : value) :
  symbol_free data → is_symbol v = false → symbol_free (obj_set key v data).
Proof.
  unfold symbol_free. intros Hsf Hv.
  induction data as [|[k w] data IH]; cbn.
  - by constructor.
  - apply Forall_cons in Hsf as [Hw Hsf].
    case_bool_decide; constructor; auto.
Qed.

Lemma Object_assign_symbol_free (target source : Data) :
  symbol_free target → symbol_free source →
  symbol_free (Object_assign target source).
Proof.
  unfold Object_assign. intros Ht Hs. revert target Ht.
  induction Hs as [|[k v] source Hv Hs IH]; intros target Ht; cbn; [done|].
  apply IH. by apply obj_set_symbol_free.
Qed.

(** ** Sorting the keys *)

Lemma sort_Permutation (keys : list string) : sort keys ≡ₚ keys.
Proof. apply merge_sort_Permutation. Qed.

Lemma sort_ascending (keys : list string) : StronglySorted String.le (sort keys).
Proof. apply (StronglySorted_merge_sort _). Qed.

Lemma sort_Permutation_eq (keys keys' : list string) :
  keys ≡ₚ keys' → sort keys = sort keys'.
Proof.
  intros Hperm. apply (StronglySorted_unique String.le); [apply sort_ascending..|].
  by rewrite !sort_Permutation.
Qed.

Lemma strictly_below_iff (s t : string) : strictly_below s t ↔ String.le s t ∧ s ≠ t.
Proof.
  unfold strictly_below, String.le, String.ltb, String.leb.
  destruct (String.compare s t) eqn:Hc; cbn.
  - split; [done|]. intros [_ Hne]. apply Hne. by apply String.compare_eq_iff.
  - split; [|done]. intros _. split; [done|]. intros ->.
    pose proof (String.compare_antisym t t) as Ha. rewrite Hc in Ha. done.
  - split; [done|]. by intros [? _].
Qed.

Lemma StronglySorted_sublist {A} (R : relation A) (l1 l2 : list A) :
  l1 `sublist_of` l2 → StronglySorted R l2 → StronglySorted R l1.
Proof.
  induction 1 as [|x l1 l2 Hsub IH|x l1 l2 Hsub IH]; [done|..].
  - intros [Hx Hl2]%StronglySorted_cons. constructor; [auto|].
    apply Forall_forall. intros y Hy. eapply Forall_forall in Hx; [done|].
    by eapply sublist_subseteq.
  - intros [Hx Hl2]%StronglySorted_cons. auto.
Qed.

Lemma StronglySorted_strict (keys : list string) :
  NoDup keys → StronglySorted String.le keys → StronglySorted strictly_below keys.
Proof.
  induction keys as [|k keys IH]; [constructor|].
  intros [Hk Hnd]%NoDup_cons [Hle Hs]%StronglySorted_cons.
  constructor; [auto|].
  apply Forall_forall. intros k' Hk'. apply strictly_below_iff. split.
  - by eapply Forall_forall in Hle.
  - by intros ->.
Qed.

(** ** [serialize]: the loop *)

Lemma isValid_true (v : value) :
  isValid v = true ↔
  Number_isNaN v = false ∧ v ≠ null ∧ v ≠ undefined ∧ v ≠ VStr "" ∧ v ≠ VBool false.
Proof.
  unfold isValid. destruct v as [| |[]|x|s|d]; cbn;
    try (intuition congruence).
  - destruct (is_nan x); cbn; intuition congruence.
  - case_bool_decide; cbn; intuition congruence.
Qed.

Lemma kept_iff (data : Data) (key : string) :
  kept data key ↔
  isValid (obj_get data key) = true
  ∧ bool_decide (key = "v") && strict_eq (obj_get data key) (VNum 1) = false
  ∧ bool_decide (key = "pr") && strict_eq (obj_get data key) (VNum 1) = false.
Proof.
  unfold kept. cbv zeta. rewrite isValid_true.
  rewrite !andb_false_iff, !bool_decide_eq_false.
  destruct (strict_eq _ (VNum 1)); intuition congruence.
Qed.

Lemma serialize_key_None (data : Data) (key : string) :
  serialize_key data key = Normal None → ¬ kept data key.
Proof.
  rewrite kept_iff. unfold serialize_key.
  destruct (isValid _); cbn; [|by intros _ [? _]].
  destruct (_ && _); cbn; [by intros _ (_ & ? & _)|].
  destruct (_ && _); cbn; [by intros _ (_ & _ & ?)|].
  destruct (format_value _ _) as [v|]; cbn; [|done].
  by destruct (serialize_pair _ _).
Qed.

Lemma serialize_key_Some (data : Data) (key result : string) :
  serialize_key data key = Normal (Some result) →
  kept data key
  ∧ ∃ v, format_value key (obj_get data key) = Normal v
         ∧ serialize_pair key v = Normal result.
Proof.
  rewrite kept_iff. unfold serialize_key.
  destruct (isValid _); cbn; [|done].
  destruct (_ && _); cbn; [done|].
  destruct (_ && _); cbn; [done|].
  destruct (format_value _ _) as [v|]; cbn; [|done].
  destruct (serialize_pair _ _) as [r|] eqn:Hr; cbn; [|done].
  intros. simplify_eq. split_and!; [done..|]. eauto.
Qed.

(** The result for a formatted value, by the kind of value. *)
Lemma serialize_pair_cases (key : string) (v : value) :
  serialize_pair key v =
    match v with
    | VStr s =>
        if bool_decide (key ∈ ["ot"; "sf"; "st"])
        then Normal (key +:+ "=" +:+ s)
        else Normal (key +:+ "=" +:+ quoted s)
    | VBool _ => Normal key
    | VSym _ => Normal (key +:+ "=" +:+ symbol_description v)
    | undefined => Normal (key +:+ "=undefined")
    | null => Normal (key +:+ "=null")
    | VNum x => Normal (key +:+ "=" +:+ Number_toString x)
    end.
Proof.
  unfold serialize_pair.
  destruct v as [| |b|x|s|d]; cbn [typeof]; decide_keys; cbn; try done.
  destruct (decide (key = "ot")) as [->|?]; [by decide_keys|].
  destruct (decide (key = "sf")) as [->|?]; [by decide_keys|].
  destruct (decide (key = "st")) as [->|?]; [by decide_keys|].
  rewrite !(bool_decide_false (key = _)) by done. cbn.
  rewrite replace_all_same, bool_decide_false; [done|].
  intros [->|[->|[->|[]%elem_of_nil]%elem_of_cons]%elem_of_cons]%elem_of_cons;
    done.
Qed.

Lemma serialize_pair_total (key : string) (v : value) :
  ∃ result, serialize_pair key v = Normal result.
Proof.
  rewrite serialize_pair_cases. destruct v; eauto. case_bool_decide; eauto.
Qed.

Lemma serialize_pair_begins (key : string) (v : value) (result : string) :
  serialize_pair key v = Normal result → ∃ rest, result = key +:+ rest.
Proof.
  rewrite serialize_pair_cases.
  destruct v; try case_bool_decide; intros; simplify_eq; eauto.
  exists EmptyString. by rewrite append_nil_r.
Qed.

Lemma format_value_symbol_free (key : string) (v : value) :
  is_symbol v = false →
  ∃ v', format_value key v = Normal v' ∧ is_symbol v' = false.
Proof.
  intros Hv. unfold format_value, formatters. cbn.
  repeat (case_bool_decide; [destruct v; cbn; by eauto|]).
  eauto.
Qed.

Lemma serialize_key_total (data : Data) (key : string) :
  symbol_free data → ∃ result, serialize_key data key = Normal result.
Proof.
  intros Hsf. unfold serialize_key.
  repeat (case_match; [by eauto|]).
  destruct (format_value_symbol_free key (obj_get data key)) as (v & -> & _).
  { by apply obj_get_symbol_free. }
  cbn. destruct (serialize_pair_total key v) as [r ->]. cbn. eauto.
Qed.

Lemma serialize_loop_tokens (data : Data) (keys : list string) :
  serialize_loop data keys = (λ tokens, tokens.*2) <$> serialize_tokens data keys.
Proof.
  induction keys as [|key keys IH]; [done|]. cbn.
  destruct (serialize_key data key) as [result|]; cbn; [|done].
  rewrite IH. destruct (serialize_tokens data keys); cbn; [|done].
  by destruct result.
Qed.

Lemma serialize_tokens_total (data : Data) (keys : list string) :
  symbol_free data → ∃ tokens, serialize_tokens data keys = Normal tokens.
Proof.
  intros Hsf. induction keys as [|key keys [tokens IH]]; cbn; [by eauto|].
  destruct (serialize_key_total data key Hsf) as [r ->]. cbn.
  rewrite IH. cbn. eauto.
Qed.

Lemma serialize_tokens_keys (data : Data) (keys : list string)
    (tokens : list (string * string)) :
  serialize_tokens data keys = Normal tokens →
  tokens.*1 `sublist_of` keys
  ∧ (∀ key, key ∈ keys → kept data key → key ∈ tokens.*1)
  ∧ Forall (λ kt, kept data kt.1
                  ∧ ∃ v, format_value kt.1 (obj_get data kt.1) = Normal v
                         ∧ serialize_pair kt.1 v = Normal kt.2) tokens.
Proof.
  revert tokens. induction keys as [|key keys IH]; intros tokens; cbn.
  - intros. simplify_eq. split_and!; [done| |done].
    by intros key ?%elem_of_nil.
  - destruct (serialize_key data key) as [result|] eqn:Hkey; cbn; [|done].
    destruct (serialize_tokens data keys) as [rest|]; cbn; [|done].
    destruct (IH rest eq_refl) as (Hsub & Hall & Hin).
    destruct result as [result|]; intros; simplify_eq; cbn.
    + apply serialize_key_Some in Hkey. split_and!.
      * by constructor.
      * intros k [->|Hk]%elem_of_cons Hkept; [left|right; auto].
      * by constructor.
    + apply serialize_key_None in Hkey. split_and!.
      * by constructor.
      * intros k [->|Hk]%elem_of_cons Hkept; [done|auto].
      * done.
Qed.

Lemma serialize_by_tokens (data : Data) (out : string) :
  serialize data = Normal out →
  ∃ tokens, serialize_tokens data (sort (Object_keys data)) = Normal tokens
            ∧ out = join "," tokens.*2.
Proof.
  unfold serialize. rewrite serialize_loop_tokens.
  destruct (serialize_tokens _ _) as [tokens|]; cbn; [|done].
  intros. simplify_eq. eauto.
Qed.

Lemma serialize_total (data : Data) :
  symbol_free data → ∃ out, serialize data = Normal out.
Proof.
  intros Hsf. unfold serialize. rewrite serialize_loop_tokens.
  destruct (serialize_tokens_total data (sort (Object_keys data)) Hsf) as [t ->].
  cbn. eauto.
Qed.

Lemma serialize_key_ext (data data' : Data) (key : string) :
  obj_get data' key = obj_get data key →
  serialize_key data' key = serialize_key data key.
Proof. unfold serialize_key. by intros ->. Qed.

Lemma serialize_loop_ext (data data' : Data) (keys : list string) :
  (∀ key, obj_get data' key = obj_get data key) →
  serialize_loop data' keys = serialize_loop data keys.
Proof.
  intros Hget. induction keys as [|key keys IH]; [done|]. cbn.
  by rewrite IH, (serialize_key_ext data data').
Qed.

Lemma serialize_Permutation (data data' : Data) :
  is_object data → data' ≡ₚ data → serialize data' = serialize data.
Proof.
  intros Hobj Hperm. unfold serialize.
  rewrite (sort_Permutation_eq (Object_keys data') (Object_keys data)).
  - rewrite (serialize_loop_ext data data'); [done|].
    intros key. by apply obj_get_Permutation.
  - unfold Object_keys. by rewrite Hperm.
Qed.

(** ** [serialize]: the properties *)

(** C4: the keys of the tokens [serialize] writes are in strictly ascending
    code-unit order, whatever the order in which the payload got its fields:
    the output is the tokens of [serialize_tokens] joined, each token begins
    with its key, which is a key of the payload, and a payload with the same
    fields in another order gives the same output. *)
Theorem serialize_keys_ascending (data : Data) (out : string) :
  is_object data →
  serialize data = Normal out →
  ∃ tokens : list (string * string),
    serialize_tokens data (sort (Object_keys data)) = Normal tokens
    ∧ out = join "," tokens.*2
    ∧ Forall (λ kt, kt.1 ∈ Object_keys data ∧ ∃ rest, kt.2 = kt.1 +:+ rest) tokens
    ∧ StronglySorted strictly_below tokens.*1
    ∧ ∀ data', data' ≡ₚ data → serialize data' = Normal out.
Proof.
  intros Hobj Hout.
  destruct (serialize_by_tokens data out Hout) as (tokens & Htokens & ->).
  exists tokens.
  destruct (serialize_tokens_keys _ _ _ Htokens) as (Hsub & _ & Hall).
  split_and!; [done..| | |].
  - apply Forall_forall. intros [key token] Hin. cbn. split.
    + rewrite <- (sort_Permutation (Object_keys data)).
      eapply sublist_subseteq; [done|].
      by apply (list_elem_of_fmap_2 fst _ (key, token)).
    + eapply Forall_forall in Hall as (_ & v & _ & Hpair); [|done].
      by eapply serialize_pair_begins.
  - eapply StronglySorted_sublist; [done|].
    apply StronglySorted_strict; [|apply sort_ascending].
    by rewrite sort_Permutation.
  - intros data' Hperm. by rewrite (serialize_Permutation data data').
Qed.

Lemma sample_payload_is_object : is_object sample_payload.
Proof. apply (bool_decide_unpack _). by vm_compute. Defined.

Lemma serialize_keys_ascending_witness :
  ∃ tokens : list (string * string),
    serialize_tokens sample_payload (sort (Object_keys sample_payload))
    = Normal tokens
    ∧ "br=500,ot=v,su" = join "," tokens.*2
    ∧ Forall (λ kt, kt.1 ∈ Object_keys sample_payload
                    ∧ ∃ rest, kt.2 = kt.1 +:+ rest) tokens
    ∧ StronglySorted strictly_below tokens.*1
    ∧ ∀ data', data' ≡ₚ sample_payload → serialize data' = Normal "br=500,ot=v,su".
Proof.
  apply (serialize_keys_ascending sample_payload "br=500,ot=v,su").
  - exact sample_payload_is_object.
  - vm_compute. reflexivity.
Defined.

(** C5: [serialize] writes a token for a field exactly when its value is not
    NaN, not null, not undefined, not the empty string and not false, and the
    field is neither [v] with the value 1 nor [pr] with the value 1.  So
    [{v: 1, pr: 1, br: 500}] gives [br=500]. *)
Theorem serialize_keeps_valid_fields :
  (∀ (data : Data) (out : string),
     serialize data = Normal out →
     ∃ tokens : list (string * string),
       serialize_tokens data (sort (Object_keys data)) = Normal tokens
       ∧ out = join "," tokens.*2
       ∧ ∀ key, key ∈ tokens.*1 ↔ key ∈ Object_keys data ∧ kept data key)
  ∧ serialize [("v", VNum 1); ("pr", VNum 1); ("br", VNum 500)] = Normal "br=500".
Proof.
  split; [|by vm_compute].
  intros data out Hout.
  destruct (serialize_by_tokens data out Hout) as (tokens & Htokens & ->).
  exists tokens. split_and!; [done..|].
  destruct (serialize_tokens_keys _ _ _ Htokens) as (Hsub & Hkept & Hall).
  intros key. split.
  - intros Hin. split.
    + rewrite <- (sort_Permutation (Object_keys data)).
      by eapply sublist_subseteq.
    + apply list_elem_of_fmap in Hin as ([k token] & -> & Hin).
      by eapply Forall_forall in Hall as [? _].
  - intros [Hin Hk]. apply Hkept; [|done]. by rewrite sort_Permutation.
Qed.

Lemma serialize_keeps_valid_fields_witness :
  ∃ tokens : list (string * string),
    serialize_tokens sample_payload (sort (Object_keys sample_payload))
    = Normal tokens
    ∧ "br=500,ot=v,su" = join "," tokens.*2
    ∧ ∀ key, key ∈ tokens.*1
             ↔ key ∈ Object_keys sample_payload ∧ kept sample_payload key.
Proof.
  apply (proj1 serialize_keeps_valid_fields sample_payload "br=500,ot=v,su").
  vm_compute. reflexivity.
Defined.

Lemma format_value_unlisted (key : string) (v : value) :
  key ∉ number_keys → key ≠ "nor" → format_value key v = Normal v.
Proof.
  intros Hnum Hnor. unfold format_value, formatters. cbn [obj_lookup].
  repeat (rewrite bool_decide_false;
          [|intros <-; first [done | apply Hnum; in_list]]).
  done.
Qed.

Lemma format_value_number (key : string) (x : number) :
  key ≠ "nor" →
  format_value key (VNum x) = Normal (VNum (formatted_number key x)).
Proof.
  intros Hnor. unfold format_value, formatters, formatted_number.
  cbn [obj_lookup].
  repeat match goal with
    | |- context [bool_decide (?a = key)] =>
        destruct (decide (a = key)) as [<-|?];
          [by decide_keys | rewrite (bool_decide_false (a = key)) by done]
    end.
  by rewrite !bool_decide_false by done.
Qed.

Lemma join_cons (separator token : string) (tokens : list string) :
  tokens ≠ [] →
  join separator (token :: tokens) = token +:+ separator +:+ join separator tokens.
Proof. by destruct tokens. Qed.

(** C6: on a payload typed as the [Data] typedef types it and with plain
    keys (none of them a name inherited from [Object.prototype]), [serialize]
    writes a true field as its bare key, a string field under [ot], [sf] or
    [st] as [key=value] without quotes, and a number field as [key=value],
    the number being the one the table [formatters] makes of it; the tokens
    are joined by one comma and nothing else.  So the object type v with a
    true [su] gives [ot=v,su]. *)
Theorem serialize_token_formats :
  (∀ (data : Data) (out : string),
     well_typed data →
     plain_keys data →
     serialize data = Normal out →
     ∃ tokens : list (string * string),
       serialize_tokens data (sort (Object_keys data)) = Normal tokens
       ∧ out = join "," tokens.*2
       ∧ ∀ key, key ∈ Object_keys data → kept data key →
           key ∈ tokens.*1
           ∧ ∀ token, (key, token) ∈ tokens →
               (obj_get data key = VBool true → token = key)
               ∧ (∀ s, key ∈ ["ot"; "sf"; "st"] → obj_get data key = VStr s →
                       token = key +:+ "=" +:+ s)
               ∧ (∀ x, obj_get data key = VNum x →
                       token = key +:+ "=" +:+ Number_toString (formatted_number key x)))
  ∧ join "," [] = ""
  ∧ (∀ token, join "," [token] = token)
  ∧ (∀ token tokens, tokens ≠ [] →
       join "," (token :: tokens) = token +:+ "," +:+ join "," tokens)
  ∧ serialize [("ot", VStr "v"); ("su", VBool true)] = Normal "ot=v,su".
Proof.
  split_and!; [|done|done|apply join_cons|by vm_compute].
  intros data out Hwt _ Hout.
  destruct (serialize_by_tokens data out Hout) as (tokens & Htokens & ->).
  exists tokens. split_and!; [done..|].
  destruct (serialize_tokens_keys _ _ _ Htokens) as (Hsub & Hkept & Hall).
  intros key Hin Hk. split.
  { apply Hkept; [|done]. by rewrite sort_Permutation. }
  intros token Htoken.
  eapply Forall_forall in Hall as (_ & v & Hv & Hpair); [|done]. cbn in Hv, Hpair.
  pose proof (obj_get_conforms data key Hwt) as Hconf.
  split_and!.
  - intros Hget. rewrite Hget in Hv, Hconf. destruct Hconf as [Hnum Hstr].
    rewrite format_value_unlisted in Hv; [|done|].
    + simplify_eq. rewrite serialize_pair_cases in Hpair. by simplify_eq.
    + intros ->. apply Hstr. in_list.
  - intros s Hkey Hget. rewrite Hget in Hv.
    rewrite format_value_unlisted in Hv.
    + simplify_eq. rewrite serialize_pair_cases in Hpair.
      rewrite bool_decide_true in Hpair by done. by simplify_eq.
    + intros Hnum. revert Hkey Hnum. clear.
      intros [->|[->|[->|[]%elem_of_nil]%elem_of_cons]%elem_of_cons]%elem_of_cons;
        not_in_list.
    + intros ->. revert Hkey. not_in_list.
  - intros x Hget. rewrite Hget in Hv, Hconf. destruct Hconf as [Hstr Hbool].
    rewrite format_value_number in Hv.
    + simplify_eq. rewrite serialize_pair_cases in Hpair. by simplify_eq.
    + intros ->. apply Hstr. in_list.
Qed.

Lemma sample_payload_well_typed : well_typed sample_payload.
Proof.
  unfold well_typed, sample_payload, conforms.
  repeat constructor; cbn; not_in_list.
Defined.

Lemma serialize_token_formats_witness :
  ∃ tokens : list (string * string),
    serialize_tokens sample_payload (sort (Object_keys sample_payload))
    = Normal tokens
    ∧ "br=500,ot=v,su" = join "," tokens.*2
    ∧ ∀ key, key ∈ Object_keys sample_payload → kept sample_payload key →
        key ∈ tokens.*1
        ∧ ∀ token, (key, token) ∈ tokens →
            (obj_get sample_payload key = VBool true → token = key)
            ∧ (∀ s, key ∈ ["ot"; "sf"; "st"] → obj_get sample_payload key = VStr s →
                    token = key +:+ "=" +:+ s)
            ∧ (∀ x, obj_get sample_payload key = VNum x →
                    token = key +:+ "=" +:+ Number_toString (formatted_number key x)).
Proof.
  apply (proj1 serialize_token_formats sample_payload "br=500,ot=v,su").
  - exact sample_payload_well_typed.
  - repeat constructor; cbn; not_in_list.
  - vm_compute. reflexivity.
Defined.

(** ** [toHeaders] and [toQuery] *)

Lemma headerGroups_symbol_free (data : Data) :
  symbol_free data →
  Forall symbol_free (headerGroups data) ∧ length (headerGroups data) = 4.
Proof.
  intros Hsf. unfold headerGroups.
  assert (Hinit : Forall symbol_free ([[]; []; []; []] : list Data)
                  ∧ length ([[]; []; []; []] : list Data) = 4).
  { split; [|done]. repeat constructor. }
  revert Hinit. generalize ([[]; []; []; []] : list Data).
  induction (Object_keys data) as [|key keys IH]; intros groups [Hall Hlen]; [done|].
  cbn [foldl]. apply IH. split.
  - apply Forall_alter; [done|]. intros group _ Hgroup.
    apply obj_set_symbol_free; [done|]. by apply obj_get_symbol_free.
  - by rewrite length_alter.
Qed.

Lemma headers_loop_total (names : list string) (groups : list Data)
    (headers : object string) :
  Forall symbol_free groups →
  ∃ result, headers_loop names groups headers = Normal result.
Proof.
  intros Hall. revert names headers.
  induction Hall as [|group groups Hgroup Hall IH]; intros names headers.
  - destruct names; cbn; eauto.
  - destruct names as [|name names]; cbn; [by eauto|].
    destruct (serialize_total group Hgroup) as [value ->]. cbn. apply IH.
Qed.

Lemma toHeaders_total (data : Data) :
  symbol_free data → ∃ headers, toHeaders data = Normal headers.
Proof.
  intros Hsf. apply headers_loop_total. by apply headerGroups_symbol_free.
Qed.

Lemma toQuery_total (data : Data) :
  symbol_free data → ∃ query, toQuery data = Normal query.
Proof.
  intros Hsf. unfold toQuery.
  destruct (serialize_total data Hsf) as [s ->]. cbn. eauto.
Qed.

(** ** [apply_] *)

Lemma apply__disabled (playerInterface_ : PlayerInterface) (request : Request)
    (data : Data) (useHeaders : option bool) (st : State) :
  enabled (config_ (this st)) = false →
  apply_ playerInterface_ request data useHeaders st = (Normal (request, data), st).
Proof. intros Hoff. unfold apply_. run_method. by rewrite Hoff. Qed.

Lemma baseline_symbol_free (playerInterface_ : PlayerInterface) (this : CmcdManager) :
  symbol_free (baseline playerInterface_ this).
Proof. unfold baseline. repeat constructor. by destruct (sf_ this). Qed.

Lemma obj_get_assign_baseline (playerInterface_ : PlayerInterface)
    (this : CmcdManager) (data : Data) (key : string) :
  key ∉ ["v"; "sf"; "sid"; "cid"; "mtp"] →
  obj_get (Object_assign data (baseline playerInterface_ this)) key
  = obj_get data key.
Proof.
  intros Hkey. unfold Object_assign, baseline. cbn [foldl].
  rewrite !obj_get_set.
  repeat (rewrite bool_decide_false; [|intros <-; apply Hkey; in_list]).
  done.
Qed.

(** The payload [apply_] builds from [data] on an enabled manager [this],
    and the manager it leaves, when the method ends normally. *)
Lemma apply__enabled (playerInterface_ : PlayerInterface) (request : Request)
    (data : Data) (useHeaders : option bool) (st : State) :
  enabled (config_ (this st)) = true →
  symbol_free data →
  let data1 := obj_set "pr" (VNum (getPlaybackRate playerInterface_))
                 (Object_assign data (baseline playerInterface_ (this st))) in
  let consumed := starved_ (this st)
                  && (strict_eq (obj_get data "ot") (VStr ObjectType.VIDEO)
                      || strict_eq (obj_get data "ot") (VStr ObjectType.MUXED)) in
  let data2 := if consumed
               then obj_set "su" (VBool true) (obj_set "bs" (VBool true) data1)
               else data1 in
  let data3 := if is_nullish (obj_get data2 "su")
               then obj_set "su" (VBool (buffering_ (this st))) data2
               else data2 in
  ∃ request',
    apply_ playerInterface_ request data useHeaders st
    = (Normal (request', data3),
       {| this := if consumed then set_starved_ false (this st) else this st;
          warned := warned st |}).
Proof.
  intros Hon Hsf data1 consumed data2 data3.
  assert (Hot : obj_get data1 "ot" = obj_get data "ot").
  { unfold data1. rewrite obj_get_set, bool_decide_false by done.
    apply obj_get_assign_baseline. not_in_list. }
  assert (Hsf3 : symbol_free data3).
  { assert (symbol_free data1).
    { apply obj_set_symbol_free; [|done].
      apply Object_assign_symbol_free; [done|apply baseline_symbol_free]. }
    assert (symbol_free data2).
    { unfold data2. destruct consumed; [|done].
      apply obj_set_symbol_free; [apply obj_set_symbol_free|]; done. }
    unfold data3. destruct (is_nullish _); [|done].
    by apply obj_set_symbol_free. }
  destruct (toHeaders_total data3 Hsf3) as [headers Hheaders].
  destruct (toQuery_total data3 Hsf3) as [query Hquery].
  unfold apply_. run_method. rewrite Hon. cbn [negb].
  fold (baseline playerInterface_ (this st)). fold data1. rewrite Hot.
  fold consumed. clearbody consumed data1.
  destruct st as [this0 warned0]. cbn [this warned] in *.
  destruct consumed; cbn [this warned buffering_ set_starved_];
    fold data2; fold data3; clearbody data3;
    destruct (default _ useHeaders); rewrite ?Hheaders, ?Hquery;
    case_bool_decide; eauto.
Qed.

(** C3: on an enabled manager whose [starved] is true, an [apply_] call
    whose payload has object type VIDEO or MUXED ends with [bs] and [su] true
    in the payload and [starved] false in the manager; and from a manager
    whose [starved] is false (the one just left, or a later one with no new
    starvation) an [apply_] call for a video or muxed payload that carries no
    [bs] ends with [bs] still missing from the payload and [starved] still
    false. *)
Theorem starvation_consumed_once
    (playerInterface_ playerInterface_' : PlayerInterface)
    (request request' : Request) (data data' : Data)
    (useHeaders useHeaders' : option bool) (st st' : State) :
  enabled (config_ (this st)) = true →
  starved_ (this st) = true →
  is_video data → symbol_free data →
  starved_ (this st') = false →
  is_video data' → symbol_free data' → obj_get data' "bs" = undefined →
  ∃ r1 payload1 st1 r2 payload2 st2,
    apply_ playerInterface_ request data useHeaders st
    = (Normal (r1, payload1), st1)
    ∧ obj_get payload1 "bs" = VBool true
    ∧ obj_get payload1 "su" = VBool true
    ∧ starved_ (this st1) = false
    ∧ apply_ playerInterface_' request' data' useHeaders' st'
      = (Normal (r2, payload2), st2)
    ∧ obj_get payload2 "bs" = undefined
    ∧ starved_ (this st2) = false.
Proof.
  intros Hon Hstarved Hvideo Hsf Hfed Hvideo' Hsf' Hbs.
  destruct (apply__enabled playerInterface_ request data useHeaders st Hon Hsf)
    as [r1 Hfirst].
  assert (Hconsumed :
    starved_ (this st)
    && (strict_eq (obj_get data "ot") (VStr ObjectType.VIDEO)
        || strict_eq (obj_get data "ot") (VStr ObjectType.MUXED)) = true).
  { rewrite Hstarved. by destruct Hvideo as [-> | ->]. }
  cbv zeta in Hfirst. rewrite Hconsumed in Hfirst.
  rewrite (obj_get_set _ "su" "su"), bool_decide_true in Hfirst by done.
  cbn [is_nullish] in Hfirst.
  destruct (enabled (config_ (this st'))) eqn:Hon'.
  - destruct (apply__enabled playerInterface_' request' data' useHeaders' st'
                Hon' Hsf') as [r2 Hsecond].
    cbv zeta in Hsecond. rewrite Hfed in Hsecond. cbn [andb] in Hsecond.
    eexists _, _, _, _, _, _. split_and!; [exact Hfirst| | |done|exact Hsecond| |done].
    + by rewrite !obj_get_set.
    + by rewrite !obj_get_set.
    + assert (Hpr : obj_get (obj_set "pr" (VNum (getPlaybackRate playerInterface_'))
                      (Object_assign data' (baseline playerInterface_' (this st'))))
                      "bs" = undefined).
      { rewrite obj_get_set, bool_decide_false by done.
        rewrite obj_get_assign_baseline; [done|not_in_list]. }
      destruct (is_nullish _); [|done].
      by rewrite obj_get_set, bool_decide_false.
  - eexists _, _, _, _, _, _.
    split_and!; [exact Hfirst| | |done|by apply apply__disabled|done|done].
    + by rewrite !obj_get_set.
    + by rewrite !obj_get_set.
Qed.

Lemma starvation_consumed_once_witness :
  ∃ r1 payload1 st1 r2 payload2 st2,
    apply_ (sample_player None) sample_request sample_video_data None
      sample_starved_state
    = (Normal (r1, payload1), st1)
    ∧ obj_get payload1 "bs" = VBool true
    ∧ obj_get payload1 "su" = VBool true
    ∧ starved_ (this st1) = false
    ∧ apply_ (sample_player None) sample_request sample_video_data None
        (apply_ (sample_player None) sample_request sample_video_data None
           sample_starved_state).2
      = (Normal (r2, payload2), st2)
    ∧ obj_get payload2 "bs" = undefined
    ∧ starved_ (this st2) = false.
Proof.
  apply (starvation_consumed_once (sample_player None) (sample_player None)
           sample_request sample_request sample_video_data sample_video_data
           None None sample_starved_state
           (apply_ (sample_player None) sample_request sample_video_data None
              sample_starved_state).2).
  - reflexivity.
  - reflexivity.
  - left. reflexivity.
  - repeat constructor.
  - vm_compute. reflexivity.
  - left. reflexivity.
  - repeat constructor.
  - reflexivity.
Defined.

(** The same through [applySegmentData]: for a video segment, when the top
    bandwidth can be read, the method is an [apply_] call on a video or muxed
    payload; on an enabled manager whose [starved] is true the payload ends
    with [bs] and [su] true and the manager with [starved] false. *)
Lemma applySegmentData_consumes_starvation
    (playerInterface_ : PlayerInterface) (request : Request)
    (segmentInfo : SegmentInfo) (st : State) (top : option number) :
  enabled (config_ (this st)) = true →
  starved_ (this st) = true →
  segment_type segmentInfo = "video" →
  segment_init segmentInfo = false →
  getTopBandwidth_ playerInterface_ "video" = Normal top →
  ∃ data request' payload st',
    is_video data
    ∧ apply_ playerInterface_ request data None st
      = (Normal (request', payload), st')
    ∧ applySegmentData playerInterface_ request segmentInfo st
      = (Normal request', st')
    ∧ obj_get payload "bs" = VBool true
    ∧ obj_get payload "su" = VBool true
    ∧ starved_ (this st') = false.
Proof.
  intros Hon Hstarved Htype Hinit Htop.
  assert (Hbl : ∃ bl, getBufferLength_ playerInterface_ "video" = Normal bl).
  { unfold getBufferLength_, BufferedInfo_get. decide_keys.
    repeat case_match; eauto. }
  destruct Hbl as [bl Hbl].
  assert (Hot : getObjectType_ segmentInfo = VStr ObjectType.VIDEO
                ∨ getObjectType_ segmentInfo = VStr ObjectType.MUXED).
  { unfold getObjectType_. rewrite Hinit, Htype. decide_keys.
    destruct (includes _ _); auto. }
  set (data0 := obj_set "bl" (VNum bl)
                  (obj_set "ot" (getObjectType_ segmentInfo)
                     [("d", VNum (segment_duration segmentInfo * 1000)%float);
                      ("st", VStr (getStreamType_ playerInterface_))])).
  set (data1 := match segment_bandwidth segmentInfo with
                | Some bandwidth =>
                    if ToBoolean (VNum bandwidth)
                    then obj_set "br" (VNum (bandwidth / 1000)%float) data0
                    else data0
                | None => data0
                end).
  set (data := obj_set "tb" (VNum (default nan top / 1000)%float) data1).
  assert (Hget : ∀ key, key ∉ ["bl"; "br"; "tb"] →
            obj_get data key
            = obj_get (obj_set "ot" (getObjectType_ segmentInfo)
                [("d", VNum (segment_duration segmentInfo * 1000)%float);
                 ("st", VStr (getStreamType_ playerInterface_))]) key).
  { intros key Hkey.
    assert (H0 : obj_get data0 key
                 = obj_get (obj_set "ot" (getObjectType_ segmentInfo)
                     [("d", VNum (segment_duration segmentInfo * 1000)%float);
                      ("st", VStr (getStreamType_ playerInterface_))]) key).
    { unfold data0. rewrite obj_get_set, bool_decide_false; [done|].
      intros <-. apply Hkey. in_list. }
    unfold data, data1.
    rewrite obj_get_set, bool_decide_false by (intros <-; apply Hkey; in_list).
    destruct (segment_bandwidth segmentInfo) as [bandwidth|]; [|done].
    destruct (ToBoolean _); [|done].
    rewrite obj_get_set, bool_decide_false; [done|].
    intros <-. apply Hkey. in_list. }
  assert (Hvideo : is_video data).
  { unfold is_video. rewrite Hget by not_in_list.
    by destruct Hot as [-> | ->]; [left|right]. }
  assert (Hsf : symbol_free data).
  { assert (symbol_free data0).
    { unfold data0. apply obj_set_symbol_free; [|done].
      apply obj_set_symbol_free; [by repeat constructor|].
      by destruct Hot as [-> | ->]. }
    assert (symbol_free data1).
    { unfold data1. destruct (segment_bandwidth segmentInfo); [|done].
      destruct (ToBoolean _); [|done]. by apply obj_set_symbol_free. }
    by apply obj_set_symbol_free. }
  destruct (apply__enabled playerInterface_ request data None st Hon Hsf)
    as [request' Happly].
  cbv zeta in Happly.
  assert (Hconsumed :
    starved_ (this st)
    && (strict_eq (obj_get data "ot") (VStr ObjectType.VIDEO)
        || strict_eq (obj_get data "ot") (VStr ObjectType.MUXED)) = true).
  { rewrite Hstarved. by destruct Hvideo as [-> | ->]. }
  rewrite Hconsumed in Happly.
  rewrite (obj_get_set _ "su" "su"), bool_decide_true in Happly by done.
  cbn [is_nullish] in Happly.
  eexists data, request', _, _.
  split_and!; [done|exact Happly| | | |done].
  - unfold applySegmentData. run_method. rewrite Hon. cbn [negb].
    rewrite Htype, Hbl, Htop.
    assert (Hmedia :
      strict_eq (obj_get (obj_set "ot" (getObjectType_ segmentInfo)
                   [("d", VNum (segment_duration segmentInfo * 1000)%float);
                    ("st", VStr (getStreamType_ playerInterface_))]) "ot")
                (VStr ObjectType.VIDEO)
      || strict_eq (obj_get (obj_set "ot" (getObjectType_ segmentInfo)
                   [("d", VNum (segment_duration segmentInfo * 1000)%float);
                    ("st", VStr (getStreamType_ playerInterface_))]) "ot")
                (VStr ObjectType.AUDIO)
      || strict_eq (obj_get (obj_set "ot" (getObjectType_ segmentInfo)
                   [("d", VNum (segment_duration segmentInfo * 1000)%float);
                    ("st", VStr (getStreamType_ playerInterface_))]) "ot")
                (VStr ObjectType.MUXED)
      || strict_eq (obj_get (obj_set "ot" (getObjectType_ segmentInfo)
                   [("d", VNum (segment_duration segmentInfo * 1000)%float);
                    ("st", VStr (getStreamType_ playerInterface_))]) "ot")
                (VStr ObjectType.TIMED_TEXT) = true).
    { rewrite obj_get_set, bool_decide_true by done.
      by destruct Hot as [-> | ->]. }
    rewrite Hmedia. fold data0. fold data1. fold data.
    by rewrite Happly.
  - by rewrite !obj_get_set.
  - by rewrite !obj_get_set.
Qed.

(** ** The entry points *)

(** C8: on a manager whose configuration is not enabled every entry point
    ends normally with its input as the result, and leaves the manager and
    the log as they were: the three request methods return the request with
    the same uris and headers, the two uri methods return the uri.
    [applyTextData] tests nothing itself; [apply_], which it calls, does. *)
Theorem disabled_leaves_input_unchanged
    (playerInterface_ : PlayerInterface) (st : State) (request : Request)
    (manifestInfo : ManifestInfo) (segmentInfo : SegmentInfo)
    (uri mimeType : string) :
  enabled (config_ (this st)) = false →
  applyManifestData playerInterface_ request manifestInfo st = (Normal request, st)
  ∧ applySegmentData playerInterface_ request segmentInfo st = (Normal request, st)
  ∧ applyTextData playerInterface_ request st = (Normal request, st)
  ∧ appendSrcData playerInterface_ uri mimeType st = (Normal uri, st)
  ∧ appendTextTrackData playerInterface_ uri st = (Normal uri, st)
  ∧ ∀ data useHeaders,
      apply_ playerInterface_ request data useHeaders st
      = (Normal (request, data), st).
Proof.
  intros Hoff. split_and!.
  - unfold applyManifestData. run_method. by rewrite Hoff.
  - unfold applySegmentData. run_method. by rewrite Hoff.
  - unfold applyTextData, try_catch, mbind, M_bind.
    by rewrite apply__disabled.
  - unfold appendSrcData. run_method. by rewrite Hoff.
  - unfold appendTextTrackData. run_method. by rewrite Hoff.
  - intros. by apply apply__disabled.
Qed.

Lemma disabled_leaves_input_unchanged_witness :
  applyManifestData (sample_player None) sample_request
    {| format := StreamingFormat.DASH |} disabled_state
  = (Normal sample_request, disabled_state)
  ∧ applySegmentData (sample_player None) sample_request sample_segment
      disabled_state
    = (Normal sample_request, disabled_state)
  ∧ applyTextData (sample_player None) sample_request disabled_state
    = (Normal sample_request, disabled_state)
  ∧ appendSrcData (sample_player None) "http://a/b" "video/mp4" disabled_state
    = (Normal "http://a/b", disabled_state)
  ∧ appendTextTrackData (sample_player None) "http://a/b" disabled_state
    = (Normal "http://a/b", disabled_state)
  ∧ ∀ data useHeaders,
      apply_ (sample_player None) sample_request data useHeaders disabled_state
      = (Normal (sample_request, data), disabled_state).
Proof.
  apply (disabled_leaves_input_unchanged (sample_player None) disabled_state
           sample_request {| format := StreamingFormat.DASH |} sample_segment
           "http://a/b" "video/mp4").
  reflexivity.
Defined.

Lemma getBufferLength__media (playerInterface_ : PlayerInterface)
    (segmentInfo : SegmentInfo) :
  getObjectType_ segmentInfo ∈
    [VStr ObjectType.VIDEO; VStr ObjectType.AUDIO; VStr ObjectType.MUXED;
     VStr ObjectType.TIMED_TEXT] →
  ∃ bl, getBufferLength_ playerInterface_ (segment_type segmentInfo) = Normal bl.
Proof.
  unfold getObjectType_, getBufferLength_, BufferedInfo_get.
  destruct (segment_init segmentInfo).
  { intros Hin.
    repeat (apply elem_of_cons in Hin as [?|Hin]; [done|]).
    by apply elem_of_nil in Hin. }
  destruct (decide (segment_type segmentInfo = "video")) as [->|?].
  { intros _. decide_keys. repeat case_match; eauto. }
  rewrite (bool_decide_false (_ = "video")) by done.
  destruct (decide (segment_type segmentInfo = "audio")) as [->|?].
  { intros _. decide_keys. repeat case_match; eauto. }
  rewrite (bool_decide_false (_ = "audio")) by done.
  destruct (decide (segment_type segmentInfo = "text")) as [->|?].
  { intros _. decide_keys. repeat case_match; eauto. }
  rewrite (bool_decide_false (_ = "text")) by done.
  intros Hin.
  repeat (apply elem_of_cons in Hin as [?|Hin]; [done|]).
  by apply elem_of_nil in Hin.
Qed.

(** C10: when the player's manifest is not null and the array
    [getTopBandwidth_] reads for the segment type ([textStreams] for
    [text], [variants] otherwise) is empty, [getTopBandwidth_] throws; the
    buffer length read before it does not throw where it is read; and
    [applySegmentData] on an enabled manager ends normally with the request
    as it was given, no header and no query added, the manager unchanged
    and the failure reported under CMCD_SEGMENT_ERROR (on a manager that is
    not enabled it returns the request at once). *)
Theorem empty_manifest_drops_all_fields
    (playerInterface_ : PlayerInterface) (request : Request)
    (segmentInfo : SegmentInfo) (st : State) (manifest : Manifest) :
  getManifest playerInterface_ = Some manifest →
  (if bool_decide (segment_type segmentInfo = "text")
   then textStreams manifest = [] else variants manifest = []) →
  getTopBandwidth_ playerInterface_ (segment_type segmentInfo) = Throw TypeError
  ∧ (getObjectType_ segmentInfo ∈
       [VStr ObjectType.VIDEO; VStr ObjectType.AUDIO; VStr ObjectType.MUXED;
        VStr ObjectType.TIMED_TEXT] →
     ∃ bl, getBufferLength_ playerInterface_ (segment_type segmentInfo) = Normal bl)
  ∧ applySegmentData playerInterface_ request segmentInfo st
    = (Normal request,
       if enabled (config_ (this st))
       then (warnOnce "CMCD_SEGMENT_ERROR" st).2 else st)
  ∧ this (warnOnce "CMCD_SEGMENT_ERROR" st).2 = this st
  ∧ "CMCD_SEGMENT_ERROR" ∈ warned (warnOnce "CMCD_SEGMENT_ERROR" st).2.
Proof.
  intros Hmanifest Hempty.
  assert (Htop : getTopBandwidth_ playerInterface_ (segment_type segmentInfo)
                 = Throw TypeError).
  { unfold getTopBandwidth_. rewrite Hmanifest.
    destruct (bool_decide (segment_type segmentInfo = "text")); by rewrite Hempty. }
  split_and!; [done|apply getBufferLength__media| | |].
  - unfold applySegmentData. run_method.
    destruct (enabled (config_ (this st))); cbn [negb]; [|done].
    rewrite Htop.
    destruct (_ || _); [|done].
    by destruct (getBufferLength_ _ _).
  - unfold warnOnce. cbn. by destruct (bool_decide (_ ∈ warned st)).
  - unfold warnOnce. cbn.
    destruct (bool_decide (_ ∈ warned st)) eqn:Hwarned.
    + by apply bool_decide_eq_true in Hwarned.
    + cbn. apply elem_of_app. right. left.
Qed.

Lemma empty_manifest_drops_all_fields_witness :
  getTopBandwidth_ (sample_player (Some empty_manifest))
    (segment_type sample_segment) = Throw TypeError
  ∧ (getObjectType_ sample_segment ∈
       [VStr ObjectType.VIDEO; VStr ObjectType.AUDIO; VStr ObjectType.MUXED;
        VStr ObjectType.TIMED_TEXT] →
     ∃ bl, getBufferLength_ (sample_player (Some empty_manifest))
             (segment_type sample_segment) = Normal bl)
  ∧ applySegmentData (sample_player (Some empty_manifest)) sample_request
      sample_segment (sample_state true)
    = (Normal sample_request,
       if enabled (config_ (this (sample_state true)))
       then (warnOnce "CMCD_SEGMENT_ERROR" (sample_state true)).2
       else sample_state true)
  ∧ this (warnOnce "CMCD_SEGMENT_ERROR" (sample_state true)).2
    = this (sample_state true)
  ∧ "CMCD_SEGMENT_ERROR" ∈ warned (warnOnce "CMCD_SEGMENT_ERROR" (sample_state true)).2.
Proof.
  apply (empty_manifest_drops_all_fields (sample_player (Some empty_manifest))
           sample_request sample_segment (sample_state true) empty_manifest).
  - reflexivity.
  - reflexivity.
Defined.

(** ** Sample runs *)

(** The run of the specification: playback starts, the player starves, and
    of two video segment requests in header mode the first carries [bs] and
    [su], the second carries no [CMCD-Status] header. *)
Example starvation_run :
  let run :=
    (setBuffering false;; setBuffering true;;
     first ← applySegmentData (sample_player None) sample_request sample_segment;
     second ← applySegmentData (sample_player None) sample_request sample_segment;
     mret (headers first, headers second)) (sample_state true) in
  run.1 = Normal
    ([("Accept", "x");
      ("CMCD-Object", "br=2000,d=4000,ot=v");
      ("CMCD-Request", "bl=2000,mtp=5000,su");
      ("CMCD-Session", "cid=" +:+ quoted "cid-1" +:+ ",sid=" +:+ quoted "sid-1" +:+ ",st=v");
      ("CMCD-Status", "bs")],
     [("Accept", "x");
      ("CMCD-Object", "br=2000,d=4000,ot=v");
      ("CMCD-Request", "bl=2000,mtp=5000,su");
      ("CMCD-Session", "cid=" +:+ quoted "cid-1" +:+ ",sid=" +:+ quoted "sid-1" +:+ ",st=v")])
  ∧ starved_ (this run.2) = false.
Proof. vm_compute. done. Qed.

(** With no manifest the same request gets every field but [tb]; with an
    empty manifest it gets none. *)
Example manifest_runs :
  (applySegmentData (sample_player None) sample_request sample_segment
     (sample_state false)).1
  = Normal
      {| uris :=
           ["http://a/b?CMCD=bl%3D2000%2Cbr%3D2000%2Ccid%3D%22cid-1%22%2Cd%3D4000%2Cmtp%3D5000%2Cot%3Dv%2Csid%3D%22sid-1%22%2Cst%3Dv%2Csu";
            "http://m/b?x=1&CMCD=bl%3D2000%2Cbr%3D2000%2Ccid%3D%22cid-1%22%2Cd%3D4000%2Cmtp%3D5000%2Cot%3Dv%2Csid%3D%22sid-1%22%2Cst%3Dv%2Csu"];
         headers := [("Accept", "x")] |}
  ∧ (applySegmentData (sample_player (Some empty_manifest)) sample_request
       sample_segment (sample_state false)).1
    = Normal sample_request.
Proof. by vm_compute. Qed.

(** Numbers are written as the language writes them. *)
Example number_strings :
  Number_toString 500 = "500"
  ∧ Number_toString 1.5 = "1.5"
  ∧ Number_toString (Math_round 2.5) = "3"
  ∧ Number_toString (Math_round (-2.5)) = "-2"
  ∧ Number_toString (Math_round (1234 / 100) * 100) = "1200"
  ∧ Number_toString 1e21 = "1e+21"
  ∧ Number_toString (1 / 10 + 2 / 10) = "0.30000000000000004"
  ∧ StringToNumber "12.5" = 12.5%float
  ∧ is_nan (StringToNumber "12px") = true.
Proof. by vm_compute. Qed.

(** * Further properties *)

(** ** [toHeaders] *)

Lemma obj_set_fresh {V} (o : object V) (key : string) (v : V) :
  key ∉ o.*1 → obj_set key v o = o ++ [(key, v)].
Proof.
  induction o as [|[k w] o IH]; cbn; [done|].
  intros [Hk Ho]%not_elem_of_cons.
  rewrite bool_decide_false by done. by rewrite IH.
Qed.

Lemma header_index_bound (key : string) : header_index key < 4.
Proof.
  unfold header_index, headerMap. cbn [obj_lookup].
  repeat (case_bool_decide; [cbn; lia|]). cbn. lia.
Qed.

(** One step of the first loop of [toHeaders] on groups whose keys are all
    other than [key]. *)
Lemma headerGroups_step (g0 g1 g2 g3 : Data) (key : string) (v : value) :
  key ∉ (g0 ++ g1 ++ g2 ++ g3).*1 →
  alter (obj_set key v) (header_index key) [g0; g1; g2; g3]
  = [g0 ++ group_fields 0 [(key, v)]; g1 ++ group_fields 1 [(key, v)];
     g2 ++ group_fields 2 [(key, v)]; g3 ++ group_fields 3 [(key, v)]].
Proof.
  rewrite !fmap_app, !elem_of_app. intros Hfresh.
  pose proof (header_index_bound key) as Hbound.
  unfold group_fields. rewrite !filter_cons, !filter_nil. cbn [fst].
  destruct (header_index key) as [|[|[|[|n]]]]; [..|lia];
    repeat case_decide; try lia; cbn;
    rewrite ?app_nil_r; rewrite obj_set_fresh; tauto.
Qed.

Lemma headerGroups_fold (l : Data) (g0 g1 g2 g3 : Data) :
  NoDup ((g0 ++ g1 ++ g2 ++ g3) ++ l).*1 →
  foldl (λ groups kv, alter (obj_set kv.1 kv.2) (header_index kv.1) groups)
        [g0; g1; g2; g3] l
  = [g0 ++ group_fields 0 l; g1 ++ group_fields 1 l;
     g2 ++ group_fields 2 l; g3 ++ group_fields 3 l].
Proof.
  revert g0 g1 g2 g3.
  induction l as [|[key v] l IH]; intros g0 g1 g2 g3 Hnodup.
  { unfold group_fields. by rewrite !filter_nil, !app_nil_r. }
  cbn [foldl fst snd].
  assert (Hfresh : key ∉ (g0 ++ g1 ++ g2 ++ g3).*1).
  { rewrite fmap_app in Hnodup. apply NoDup_app in Hnodup as (_ & Hdisj & _).
    intros Hin. apply (Hdisj key Hin). left. }
  rewrite headerGroups_step by done.
  rewrite IH.
  - unfold group_fields. rewrite !(filter_cons _ (key, v)), !filter_nil.
    cbn [fst]. by repeat case_decide; rewrite <- ?app_assoc.
  - assert (Hperm : ((g0 ++ group_fields 0 [(key, v)])
                     ++ (g1 ++ group_fields 1 [(key, v)])
                     ++ (g2 ++ group_fields 2 [(key, v)])
                     ++ g3 ++ group_fields 3 [(key, v)]) ++ l
                    ≡ₚ (g0 ++ g1 ++ g2 ++ g3) ++ (key, v) :: l).
    { pose proof (header_index_bound key) as Hbound.
      unfold group_fields. rewrite !filter_cons, !filter_nil. cbn [fst].
      destruct (header_index key) as [|[|[|[|n]]]]; [..|lia];
        repeat case_decide; try lia; rewrite ?app_nil_r.
      all: rewrite <- !app_assoc; cbn.
      all: repeat (apply Permutation_app; [done|]).
      all: by rewrite <- ?Permutation_middle. }
    by rewrite Hperm.
Qed.

Lemma headerGroups_pairs (data l : Data) (groups : list Data) :
  (∀ kv, kv ∈ l → obj_get data kv.1 = kv.2) →
  foldl (λ groups key,
           let index := default 1 (obj_lookup headerMap key) in
           alter (obj_set key (obj_get data key)) index groups)
        groups l.*1
  = foldl (λ groups kv, alter (obj_set kv.1 kv.2) (header_index kv.1) groups)
          groups l.
Proof.
  revert groups. induction l as [|[key v] l IH]; intros groups Hget; [done|].
  cbn [fmap list_fmap foldl fst snd].
  pose proof (Hget (key, v)) as Hv. cbn [fst snd] in Hv.
  rewrite Hv by left. fold (header_index key).
  apply IH. intros kv Hkv. apply Hget. by right.
Qed.

Lemma headerGroups_by_index (data : Data) :
  is_object data →
  headerGroups data
  = [group_fields 0 data; group_fields 1 data;
     group_fields 2 data; group_fields 3 data].
Proof.
  intros Hobj. unfold headerGroups, Object_keys.
  rewrite (headerGroups_pairs data data).
  - by apply (headerGroups_fold data [] [] [] []).
  - intros [key v] Hin. unfold obj_get. cbn [fst snd].
    by rewrite (obj_lookup_unique data key v).
Qed.

Lemma group_fields_concat (data : Data) :
  group_fields 0 data ++ group_fields 1 data
  ++ group_fields 2 data ++ group_fields 3 data ≡ₚ data.
Proof.
  unfold group_fields. induction data as [|[key v] data IH]; [done|].
  rewrite !filter_cons. cbn [fst].
  pose proof (header_index_bound key) as Hbound.
  destruct (header_index key) as [|[|[|[|n]]]]; [..|lia];
    repeat case_decide; try lia; cbn [app];
    rewrite <- ?Permutation_middle; by constructor.
Qed.

(** X1: for a payload object with plain keys, the first loop of [toHeaders]
    splits the fields into the four groups by key: each field is in the group
    of its key with its value, the fields of a group are in the order
    [Object.keys] gives them for the payload, the four groups together hold the fields of the
    payload and nothing else, and a field whose key the table does not name
    is in the second group (Request). *)
Theorem headerGroups_partition (data : Data) :
  is_object data →
  plain_keys data →
  headerGroups data
  = [group_fields 0 data; group_fields 1 data;
     group_fields 2 data; group_fields 3 data]
  ∧ concat (headerGroups data) ≡ₚ data
  ∧ ∀ key v, (key, v) ∈ data → key ∉ headerMap.*1 →
      ∃ group, headerGroups data !! 1 = Some group ∧ (key, v) ∈ group.
Proof.
  intros Hobj _. rewrite (headerGroups_by_index data Hobj). split_and!.
  - done.
  - cbn [concat]. rewrite app_nil_r. apply group_fields_concat.
  - intros key v Hin Hkey. eexists. split; [done|].
    apply list_elem_of_filter. split; [|done]. cbn [fst].
    apply obj_lookup_None in Hkey. unfold header_index. by rewrite Hkey.
Qed.

Lemma sample_payload_plain_keys : plain_keys sample_payload.
Proof. repeat constructor; cbn; not_in_list. Defined.

Lemma headerGroups_partition_witness :
  headerGroups sample_payload
  = [group_fields 0 sample_payload; group_fields 1 sample_payload;
     group_fields 2 sample_payload; group_fields 3 sample_payload]
  ∧ concat (headerGroups sample_payload) ≡ₚ sample_payload
  ∧ ∀ key v, (key, v) ∈ sample_payload → key ∉ headerMap.*1 →
      ∃ group, headerGroups sample_payload !! 1 = Some group ∧ (key, v) ∈ group.
Proof.
  apply (headerGroups_partition sample_payload).
  - apply (bool_decide_unpack _). vm_compute. exact I.
  - exact sample_payload_plain_keys.
Defined.

(** The second loop of [toHeaders], once each group is serialized. *)
Lemma headers_loop_four (g0 g1 g2 g3 : Data) (v0 v1 v2 v3 : string) :
  serialize g0 = Normal v0 → serialize g1 = Normal v1 →
  serialize g2 = Normal v2 → serialize g3 = Normal v3 →
  headers_loop headerNames [g0; g1; g2; g3] []
  = Normal ((if bool_decide (v0 = "") then [] else [(header_name 0, v0)])
            ++ (if bool_decide (v1 = "") then [] else [(header_name 1, v1)])
            ++ (if bool_decide (v2 = "") then [] else [(header_name 2, v2)])
            ++ (if bool_decide (v3 = "") then [] else [(header_name 3, v3)])).
Proof.
  intros H0 H1 H2 H3. unfold headerNames. cbn [headers_loop].
  rewrite H0. cbn. rewrite H1. cbn. rewrite H2. cbn. rewrite H3. cbn.
  destruct (bool_decide (v0 = "")), (bool_decide (v1 = "")),
    (bool_decide (v2 = "")), (bool_decide (v3 = "")); by vm_compute.
Qed.

Lemma sort_filter (P : string → Prop) `{!∀ k, Decision (P k)} (keys : list string) :
  sort (filter P keys) = filter P (sort keys).
Proof.
  apply (StronglySorted_unique String.le).
  - apply sort_ascending.
  - eapply StronglySorted_sublist; [apply sublist_filter|apply sort_ascending].
  - by rewrite !sort_Permutation.
Qed.

Lemma group_fields_keys (index : nat) (data : Data) :
  Object_keys (group_fields index data)
  = filter (λ key, header_index key = index) (Object_keys data).
Proof.
  unfold Object_keys, group_fields.
  induction data as [|[key v] data IH]; [done|].
  rewrite filter_cons. cbn [fmap list_fmap fst]. rewrite filter_cons.
  case_decide; cbn [fmap list_fmap fst]; by rewrite IH.
Qed.

Lemma group_fields_lookup (index : nat) (data : Data) (key : string) :
  obj_lookup (group_fields index data) key
  = if decide (header_index key = index) then obj_lookup data key else None.
Proof.
  unfold group_fields.
  induction data as [|[k w] data IH]; [cbn; by case_decide|].
  rewrite filter_cons. cbn [fst obj_lookup].
  destruct (decide (header_index k = index)) as [Hk|Hk]; cbn [obj_lookup].
  - destruct (decide (k = key)) as [->|?].
    + rewrite !bool_decide_true by done. by rewrite decide_True.
    + rewrite !bool_decide_false by done. done.
  - rewrite IH. destruct (decide (k = key)) as [->|?].
    + by rewrite !decide_False.
    + by rewrite bool_decide_false.
Qed.

Lemma group_fields_get (index : nat) (data : Data) (key : string) :
  header_index key = index →
  obj_get (group_fields index data) key = obj_get data key.
Proof.
  intros Hkey. unfold obj_get. rewrite group_fields_lookup.
  by rewrite decide_True.
Qed.

Lemma serialize_tokens_filter (P : string → Prop) `{!∀ k, Decision (P k)}
    (data group : Data) (keys : list string) (tokens : list (string * string)) :
  (∀ key, P key → obj_get group key = obj_get data key) →
  serialize_tokens data keys = Normal tokens →
  serialize_tokens group (filter P keys)
  = Normal (filter (λ kt, P kt.1) tokens).
Proof.
  intros Hget. revert tokens.
  induction keys as [|key keys IH]; intros tokens Htokens.
  { cbn in Htokens. by simplify_eq. }
  cbn [serialize_tokens] in Htokens.
  destruct (serialize_key data key) as [result|] eqn:Hkey; [|done].
  destruct (serialize_tokens data keys) as [rest|]; [|done].
  cbn in Htokens. specialize (IH rest eq_refl). rewrite filter_cons.
  destruct (decide (P key)) as [HP|HP].
  - cbn [serialize_tokens].
    rewrite (serialize_key_ext data group) by auto.
    rewrite Hkey, IH. cbn.
    destruct result; simplify_eq; [|done].
    rewrite filter_cons. cbn [fst]. by rewrite decide_True.
  - rewrite IH. destruct result; simplify_eq; [|done].
    rewrite filter_cons. cbn [fst]. by rewrite decide_False.
Qed.

Lemma serialize_group (index : nat) (data : Data) (tokens : list (string * string)) :
  serialize_tokens data (sort (Object_keys data)) = Normal tokens →
  serialize (group_fields index data)
  = Normal (join "," (filter (λ kt, header_index kt.1 = index) tokens).*2).
Proof.
  intros Htokens. unfold serialize.
  rewrite serialize_loop_tokens, group_fields_keys.
  rewrite (sort_filter (λ key, header_index key = index)).
  rewrite (serialize_tokens_filter (λ key, header_index key = index)
             data _ _ tokens); [done| |done].
  intros key Hkey. by apply group_fields_get.
Qed.

(** [toHeaders] on a payload object, by the tokens of its serialization. *)
Lemma toHeaders_fields (data : Data) (tokens : list (string * string)) :
  is_object data →
  serialize_tokens data (sort (Object_keys data)) = Normal tokens →
  let field index :=
    join "," (filter (λ kt, header_index kt.1 = index) tokens).*2 in
  toHeaders data
  = Normal ((if bool_decide (field 0 = "") then [] else [(header_name 0, field 0)])
            ++ (if bool_decide (field 1 = "") then [] else [(header_name 1, field 1)])
            ++ (if bool_decide (field 2 = "") then [] else [(header_name 2, field 2)])
            ++ (if bool_decide (field 3 = "") then [] else [(header_name 3, field 3)])).
Proof.
  intros Hobj Htokens field. unfold toHeaders.
  rewrite (headerGroups_by_index data Hobj).
  by apply headers_loop_four; apply serialize_group.
Qed.

(** X2: for a payload object with plain keys, the headers [toHeaders]
    returns carry the tokens [serialize] makes of the payload, split by the
    group of their key and in the same order: the header of a group is the
    tokens of its keys joined by commas, a group without a token has no
    header, and there is no other header. *)
Theorem toHeaders_by_group (data : Data) (tokens : list (string * string)) :
  is_object data →
  plain_keys data →
  serialize_tokens data (sort (Object_keys data)) = Normal tokens →
  let field index :=
    join "," (filter (λ kt, header_index kt.1 = index) tokens).*2 in
  serialize data = Normal (join "," tokens.*2)
  ∧ ∃ headers,
      toHeaders data = Normal headers
      ∧ is_object headers
      ∧ (∀ index, index < 4 →
           obj_lookup headers (header_name index)
           = if bool_decide (field index = "") then None else Some (field index))
      ∧ ∀ name, name ∈ Object_keys headers →
          name ∈ ["CMCD-Object"; "CMCD-Request"; "CMCD-Session"; "CMCD-Status"].
Proof.
  intros Hobj _ Htokens field. split.
  { unfold serialize. by rewrite serialize_loop_tokens, Htokens. }
  pose proof (toHeaders_fields data tokens Hobj Htokens) as Hheaders.
  cbv zeta in Hheaders. fold field in Hheaders.
  eexists. split; [exact Hheaders|]. clearbody field.
  destruct (bool_decide (field 0 = "")) eqn:E0,
    (bool_decide (field 1 = "")) eqn:E1,
    (bool_decide (field 2 = "")) eqn:E2,
    (bool_decide (field 3 = "")) eqn:E3.
  all: split; [apply (bool_decide_unpack _); by vm_compute|].
  all: split; [intros [|[|[|[|index]]]] Hindex; try lia;
               rewrite ?E0, ?E1, ?E2, ?E3; by vm_compute|].
  all: intros name Hname; vm_compute in Hname.
  all: repeat (apply elem_of_cons in Hname as [->|Hname]; [in_list|]).
  all: by apply elem_of_nil in Hname.
Qed.

Lemma toHeaders_by_group_witness :
  let tokens := [("br", "br=500"); ("ot", "ot=v"); ("su", "su")] in
  let field index :=
    join "," (filter (λ kt, header_index kt.1 = index) tokens).*2 in
  serialize sample_payload = Normal (join "," tokens.*2)
  ∧ ∃ headers,
      toHeaders sample_payload = Normal headers
      ∧ is_object headers
      ∧ (∀ index, index < 4 →
           obj_lookup headers (header_name index)
           = if bool_decide (field index = "") then None else Some (field index))
      ∧ ∀ name, name ∈ Object_keys headers →
          name ∈ ["CMCD-Object"; "CMCD-Request"; "CMCD-Session"; "CMCD-Status"].
Proof.
  apply (toHeaders_by_group sample_payload).
  - apply (bool_decide_unpack _). vm_compute. exact I.
  - exact sample_payload_plain_keys.
  - vm_compute. reflexivity.
Defined.

(** ** [apply_], whatever the payload *)

Lemma Object_assign_lookup {V} (target source : object V) (key : string) :
  is_object source →
  obj_lookup (Object_assign target source) key
  = from_option Some (obj_lookup target key) (obj_lookup source key).
Proof.
  unfold Object_assign, is_object. revert target.
  induction source as [|[k v] source IH]; intros target Hnodup; [done|].
  cbn [fmap list_fmap fst] in Hnodup. apply NoDup_cons in Hnodup as [Hk Hnodup].
  cbn [foldl obj_lookup]. rewrite IH by done. rewrite obj_lookup_set.
  destruct (decide (k = key)) as [->|Hne].
  - rewrite !bool_decide_true by done.
    apply obj_lookup_None in Hk. by rewrite Hk.
  - by rewrite !bool_decide_false.
Qed.

Lemma headers_loop_is_object (names : list string) (groups : list Data)
    (headers result : object string) :
  is_object headers →
  headers_loop names groups headers = Normal result →
  is_object result.
Proof.
  revert groups headers.
  induction names as [|name names IH]; intros groups headers Hobj;
    [cbn; by intros [= <-]|].
  destruct groups as [|group groups]; [cbn; by intros [= <-]|].
  cbn [headers_loop]. destruct (serialize group) as [value|]; [|done]. cbn.
  apply IH. case_bool_decide; [done|]. by apply obj_set_is_object.
Qed.

Lemma toHeaders_is_object (data : Data) (headers : object string) :
  toHeaders data = Normal headers → is_object headers.
Proof. apply headers_loop_is_object. apply NoDup_nil_2. Qed.

(** What [apply_] does on an enabled manager: the payload it builds, the
    request it leaves and the manager it leaves.  A throw of [toHeaders] or
    [toQuery] comes after the manager has changed. *)
Lemma apply__run (playerInterface_ : PlayerInterface) (request : Request)
    (data : Data) (useHeaders : option bool) (st : State) :
  enabled (config_ (this st)) = true →
  let data1 := obj_set "pr" (VNum (getPlaybackRate playerInterface_))
                 (Object_assign data (baseline playerInterface_ (this st))) in
  let consumed := starved_ (this st)
                  && (strict_eq (obj_get data "ot") (VStr ObjectType.VIDEO)
                      || strict_eq (obj_get data "ot") (VStr ObjectType.MUXED)) in
  let data2 := if consumed
               then obj_set "su" (VBool true) (obj_set "bs" (VBool true) data1)
               else data1 in
  let data3 := if is_nullish (obj_get data2 "su")
               then obj_set "su" (VBool (buffering_ (this st))) data2
               else data2 in
  apply_ playerInterface_ request data useHeaders st
  = ((if default (Cmcd.useHeaders (config_ (this st))) useHeaders
      then
        headers ← toHeaders data3;
        Normal (if bool_decide (length (Object_keys headers) = 0) then request
                else set_headers (Object_assign (Cmcd.headers request) headers)
                       request, data3)
      else
        query ← toQuery data3;
        Normal (if bool_decide (query = "") then request
                else set_uris ((λ uri, appendQueryToUri uri query)
                               <$> uris request) request, data3)),
     {| this := if consumed then set_starved_ false (this st) else this st;
        warned := warned st |}).
Proof.
  intros Hon data1 consumed data2 data3.
  assert (Hot : obj_get data1 "ot" = obj_get data "ot").
  { unfold data1. rewrite obj_get_set, bool_decide_false by done.
    apply obj_get_assign_baseline. not_in_list. }
  unfold apply_. run_method. rewrite Hon. cbn [negb].
  fold (baseline playerInterface_ (this st)). fold data1. rewrite Hot.
  fold consumed. clearbody consumed data1.
  destruct st as [this0 warned0]. cbn [this warned] in *.
  destruct consumed; cbn [this warned buffering_ set_starved_];
    fold data2; fold data3; clearbody data3;
    destruct (default _ useHeaders);
    [destruct (toHeaders data3)|destruct (toQuery data3)
    |destruct (toHeaders data3)|destruct (toQuery data3)];
    cbn; try done; by case_bool_decide.
Qed.

Lemma strict_eq_VStr (v : value) (s : string) :
  strict_eq v (VStr s) = true ↔ v = VStr s.
Proof.
  destruct v; cbn; try (split; [done|by intros [=]]).
  rewrite bool_decide_eq_true. split; [by intros ->|by intros [= ->]].
Qed.

(** The payload of [apply__run]: the fields [apply_] sets and those it
    leaves. *)
Lemma apply__fields (playerInterface_ : PlayerInterface)
    (this : CmcdManager) (data : Data) (consumed : bool) :
  let data1 := obj_set "pr" (VNum (getPlaybackRate playerInterface_))
                 (Object_assign data (baseline playerInterface_ this)) in
  let data2 := if consumed
               then obj_set "su" (VBool true) (obj_set "bs" (VBool true) data1)
               else data1 in
  let data3 := if is_nullish (obj_get data2 "su")
               then obj_set "su" (VBool (buffering_ this)) data2
               else data2 in
  (∀ key, key ≠ "su" → key ≠ "bs" →
     obj_get data3 key
     = if bool_decide (key = "pr") then VNum (getPlaybackRate playerInterface_)
       else default (obj_get data key)
              (obj_lookup (baseline playerInterface_ this) key))
  ∧ obj_get data3 "bs" = (if consumed then VBool true else obj_get data "bs")
  ∧ obj_get data3 "su"
    = (if consumed then VBool true
       else if is_nullish (obj_get data "su") then VBool (buffering_ this)
            else obj_get data "su")
  ∧ (is_object data → is_object data3).
Proof.
  intros data1 data2 data3.
  assert (H1 : ∀ key, obj_get data1 key
             = if bool_decide (key = "pr")
               then VNum (getPlaybackRate playerInterface_)
               else default (obj_get data key)
                      (obj_lookup (baseline playerInterface_ this) key)).
  { intros key. unfold data1, Object_assign, baseline. cbn [foldl obj_lookup].
    rewrite !obj_get_set.
    destruct (decide (key = "pr")) as [->|Hpr]; [done|].
    rewrite (bool_decide_false ("pr" = key)), (bool_decide_false (key = "pr"))
      by done.
    repeat match goal with
      | |- context [bool_decide (?a = key)] =>
          destruct (decide (a = key)) as [<-|Hkey];
          [by decide_keys
          |rewrite !(bool_decide_false (a = key)) by done; clear Hkey]
      end.
    done. }
  assert (Hsu : obj_get data1 "su" = obj_get data "su") by by rewrite H1.
  assert (Hbs : obj_get data1 "bs" = obj_get data "bs") by by rewrite H1.
  assert (H2 : ∀ key, key ≠ "su" → key ≠ "bs" →
             obj_get data2 key = obj_get data1 key).
  { intros key ??. unfold data2. destruct consumed; [|done].
    by rewrite !obj_get_set, !bool_decide_false. }
  split_and!.
  - intros key ??. rewrite <- H1, <- H2 by done. unfold data3.
    destruct (is_nullish _); [|done].
    by rewrite obj_get_set, bool_decide_false.
  - unfold data3, data2. destruct consumed.
    + rewrite (obj_get_set _ "su" "su"), bool_decide_true by done.
      cbn [is_nullish]. rewrite !obj_get_set. decide_keys; try done.
    + rewrite Hsu. destruct (is_nullish (obj_get data "su")); [|exact Hbs].
      rewrite obj_get_set. decide_keys. exact Hbs.
  - unfold data3, data2. destruct consumed.
    + rewrite (obj_get_set _ "su" "su"), bool_decide_true by done.
      cbn [is_nullish]. rewrite !obj_get_set. decide_keys; try done.
    + rewrite Hsu. destruct (is_nullish (obj_get data "su")); [|exact Hsu].
      rewrite obj_get_set. decide_keys; try done.
  - intros Hobj.
    assert (is_object data1).
    { apply obj_set_is_object. by apply Object_assign_is_object. }
    assert (is_object data2).
    { unfold data2. destruct consumed; [|done]. by do 2 apply obj_set_is_object. }
    unfold data3. destruct (is_nullish _); [|done]. by apply obj_set_is_object.
Qed.

(** X3: on an enabled manager, for a payload without symbols and with plain
    keys, and for strings without a lone surrogate (as all strings of the
    model are), [apply_] ends normally and the payload it sends has the
    version, the streaming format, the session id, the content id and the
    throughput of the manager and the playback rate of the player, whatever
    the caller put under these keys; [bs] and [su] apart, every other field is
    the caller's.  Where the manager is not starved or the request is not for
    video, [bs] is the caller's and so is [su], which a caller that leaves it
    out gets set to the buffering flag. *)
Theorem apply__payload (playerInterface_ : PlayerInterface) (request : Request)
    (data : Data) (useHeaders : option bool) (st : State) :
  enabled (config_ (this st)) = true →
  symbol_free data →
  plain_keys data →
  ∃ request' payload st',
    apply_ playerInterface_ request data useHeaders st
    = (Normal (request', payload), st')
    ∧ obj_get payload "v" = VNum Version
    ∧ obj_get payload "sf" = from_option VStr undefined (sf_ (this st))
    ∧ obj_get payload "sid" = VStr (sid_ (this st))
    ∧ obj_get payload "cid" = VStr (contentId (config_ (this st)))
    ∧ obj_get payload "mtp"
      = VNum (getBandwidthEstimate playerInterface_ / 1000)%float
    ∧ obj_get payload "pr" = VNum (getPlaybackRate playerInterface_)
    ∧ (∀ key, key ∉ ["v"; "sf"; "sid"; "cid"; "mtp"; "pr"; "bs"; "su"] →
         obj_get payload key = obj_get data key)
    ∧ (is_object data → is_object payload)
    ∧ (starved_ (this st) = false ∨ ¬ is_video data →
       st' = st
       ∧ obj_get payload "bs" = obj_get data "bs"
       ∧ obj_get payload "su"
         = if is_nullish (obj_get data "su")
           then VBool (buffering_ (this st)) else obj_get data "su").
Proof.
  intros Hon Hsf _.
  destruct (apply__enabled playerInterface_ request data useHeaders st Hon Hsf)
    as [request' Happly]. cbv zeta in Happly.
  set (consumed := starved_ (this st)
                   && (strict_eq (obj_get data "ot") (VStr ObjectType.VIDEO)
                       || strict_eq (obj_get data "ot") (VStr ObjectType.MUXED)))
    in Happly.
  destruct (apply__fields playerInterface_ (this st) data consumed)
    as (Hget & Hbs & Hsu & Hobj).
  eexists request', _, _. split; [exact Happly|].
  split_and!; try (by rewrite Hget); try done.
  - intros key Hkey. rewrite Hget by (intros ->; apply Hkey; in_list).
    rewrite bool_decide_false by (intros ->; apply Hkey; in_list).
    unfold baseline. cbn [obj_lookup].
    by repeat (rewrite bool_decide_false; [|intros <-; apply Hkey; in_list]).
  - intros Hkeep.
    assert (Hconsumed : consumed = false).
    { unfold consumed. destruct Hkeep as [->|Hvideo]; [done|].
      apply andb_false_intro2, orb_false_intro;
        apply not_true_is_false; rewrite strict_eq_VStr; unfold is_video in Hvideo;
        tauto. }
    rewrite Hbs, Hsu, Hconsumed. split_and!; [by destruct st|done..].
Qed.

Lemma sample_video_data_plain_keys : plain_keys sample_video_data.
Proof. repeat constructor; cbn; not_in_list. Defined.

Lemma apply__payload_witness :
  ∃ request' payload st',
    apply_ (sample_player None) sample_request sample_video_data None
      (sample_state true)
    = (Normal (request', payload), st')
    ∧ obj_get payload "v" = VNum Version
    ∧ obj_get payload "sf"
      = from_option VStr undefined (sf_ (this (sample_state true)))
    ∧ obj_get payload "sid" = VStr (sid_ (this (sample_state true)))
    ∧ obj_get payload "cid"
      = VStr (contentId (config_ (this (sample_state true))))
    ∧ obj_get payload "mtp"
      = VNum (getBandwidthEstimate (sample_player None) / 1000)%float
    ∧ obj_get payload "pr" = VNum (getPlaybackRate (sample_player None))
    ∧ (∀ key, key ∉ ["v"; "sf"; "sid"; "cid"; "mtp"; "pr"; "bs"; "su"] →
         obj_get payload key = obj_get sample_video_data key)
    ∧ (is_object sample_video_data → is_object payload)
    ∧ (starved_ (this (sample_state true)) = false
       ∨ ¬ is_video sample_video_data →
       st' = sample_state true
       ∧ obj_get payload "bs" = obj_get sample_video_data "bs"
       ∧ obj_get payload "su"
         = if is_nullish (obj_get sample_video_data "su")
           then VBool (buffering_ (this (sample_state true)))
           else obj_get sample_video_data "su").
Proof.
  apply (apply__payload (sample_player None) sample_request sample_video_data
           None (sample_state true)).
  - reflexivity.
  - repeat constructor.
  - exact sample_video_data_plain_keys.
Defined.

(** [apply__run] for a payload without symbols: the call ends normally. *)
Lemma apply__applied (playerInterface_ : PlayerInterface) (request : Request)
    (data : Data) (useHeaders : option bool) (st : State) :
  enabled (config_ (this st)) = true →
  symbol_free data →
  let data1 := obj_set "pr" (VNum (getPlaybackRate playerInterface_))
                 (Object_assign data (baseline playerInterface_ (this st))) in
  let consumed := starved_ (this st)
                  && (strict_eq (obj_get data "ot") (VStr ObjectType.VIDEO)
                      || strict_eq (obj_get data "ot") (VStr ObjectType.MUXED)) in
  let data2 := if consumed
               then obj_set "su" (VBool true) (obj_set "bs" (VBool true) data1)
               else data1 in
  let data3 := if is_nullish (obj_get data2 "su")
               then obj_set "su" (VBool (buffering_ (this st))) data2
               else data2 in
  ∃ request',
    apply_ playerInterface_ request data useHeaders st
    = (Normal (request', data3),
       {| this := if consumed then set_starved_ false (this st) else this st;
          warned := warned st |})
    ∧ applied (default (Cmcd.useHeaders (config_ (this st))) useHeaders)
        data3 request request'.
Proof.
  intros Hon Hsf.
  destruct (apply__enabled playerInterface_ request data useHeaders st Hon Hsf)
    as [request0 Happly0].
  pose proof (apply__run playerInterface_ request data useHeaders st Hon)
    as Happly.
  cbv zeta in Happly0, Happly. rewrite Happly in Happly0.
  cbv zeta. rewrite Happly. clear Happly.
  match type of Happly0 with
  | context [toHeaders ?d] => set (payload := d) in *
  end.
  clearbody payload. unfold applied.
  destruct (default _ useHeaders).
  - destruct (toHeaders payload) as [new|] eqn:Hnew; [|done].
    clear Happly0. eexists. split; [reflexivity|].
    case_bool_decide as Hempty.
    + split; [done|]. exists new. split; [done|]. intros name.
      by destruct new.
    + split; [done|]. exists new. split; [done|]. intros name.
      cbn [Cmcd.headers set_headers].
      apply Object_assign_lookup. by apply (toHeaders_is_object payload).
  - unfold toQuery in *.
    destruct (serialize payload) as [s|] eqn:Hs; [|done].
    clear Happly0. eexists. split; [reflexivity|].
    rewrite bool_decide_false by done. cbn. eauto.
Qed.

(** X4: what an enabled [apply_] leaves of the request, for a payload
    without symbols and with plain keys and for strings without a lone
    surrogate (as all strings of the model are).  In header mode the uris are
    kept and the headers are merged: a header [toHeaders] makes of the payload
    replaces the one of that name, every other header of the request stays,
    also one a former call has set.  In query mode the headers are kept and
    every uri gets the same query, [CMCD=] and the encoded serialization of
    the payload: the query is never empty, so no uri is left out for that
    reason. *)
Theorem apply__request (playerInterface_ : PlayerInterface) (request : Request)
    (data : Data) (useHeaders : option bool) (st : State) :
  enabled (config_ (this st)) = true →
  symbol_free data →
  plain_keys data →
  ∃ request' payload st',
    apply_ playerInterface_ request data useHeaders st
    = (Normal (request', payload), st')
    ∧ applied (default (Cmcd.useHeaders (config_ (this st))) useHeaders)
        payload request request'.
Proof.
  intros Hon Hsf _.
  destruct (apply__applied playerInterface_ request data useHeaders st Hon Hsf)
    as (request' & Happly & Happlied).
  by eexists request', _, _.
Qed.

Lemma apply__request_witness :
  ∃ request' payload st',
    apply_ (sample_player None) sample_request sample_video_data None
      (sample_state false)
    = (Normal (request', payload), st')
    ∧ applied (default (Cmcd.useHeaders (config_ (this (sample_state false))))
                 None)
        payload sample_request request'.
Proof.
  apply (apply__request (sample_player None) sample_request sample_video_data
           None (sample_state false)).
  - reflexivity.
  - repeat constructor.
  - exact sample_video_data_plain_keys.
Defined.

(** ** What the methods keep of the state *)

Section keeps.
Context (R : relation State) `{!PreOrder R}.

Lemma keeps_ret {A} (a : A) : keeps R (mret a).
Proof. intros st. by cbn. Qed.

Lemma keeps_get_this : keeps R get_this.
Proof. intros st. by cbn. Qed.

Lemma keeps_lift {A} (c : completion A) : keeps R (lift c).
Proof. intros st. by cbn. Qed.

Lemma keeps_bind {A B} (m : M A) (f : A → M B) :
  keeps R m → (∀ a, keeps R (f a)) → keeps R (m ≫= f).
Proof.
  intros Hm Hf st. specialize (Hm st). unfold mbind, M_bind.
  destruct (m st) as [[a|e] st1]; [|done].
  trans st1; [done|apply Hf].
Qed.

Lemma keeps_try_catch {A} (body : M A) (handler : exn → M A) :
  keeps R body → (∀ e, keeps R (handler e)) → keeps R (try_catch body handler).
Proof.
  intros Hbody Hhandler st. specialize (Hbody st). unfold try_catch.
  destruct (body st) as [[a|e] st1]; [done|].
  trans st1; [done|apply Hhandler].
Qed.

Lemma keeps_createData_ (playerInterface_ : PlayerInterface) :
  keeps R (createData_ playerInterface_).
Proof. intros st. by cbn. Qed.

Hypothesis keeps_warnOnce : ∀ id, keeps R (warnOnce id).
Hypothesis keeps_apply_ : ∀ playerInterface_ request data useHeaders,
  keeps R (apply_ playerInterface_ request data useHeaders).

Lemma keeps_applySegmentData (playerInterface_ : PlayerInterface)
    (request : Request) (segmentInfo : SegmentInfo) :
  keeps R (applySegmentData playerInterface_ request segmentInfo).
Proof.
  unfold applySegmentData.
  repeat first
    [ apply keeps_ret | apply keeps_get_this | apply keeps_lift
    | apply keeps_warnOnce | apply keeps_apply_
    | apply keeps_try_catch; [|intros ?]
    | apply keeps_bind; [|intros ?]
    | match goal with
      | |- keeps _ (if ?b then _ else _) => destruct b
      | |- keeps _ (match ?x with _ => _ end) => destruct x
      end
    | progress cbv zeta ].
Qed.

Lemma keeps_applyTextData (playerInterface_ : PlayerInterface)
    (request : Request) :
  keeps R (applyTextData playerInterface_ request).
Proof.
  unfold applyTextData.
  repeat first
    [ apply keeps_ret | apply keeps_warnOnce | apply keeps_apply_
    | apply keeps_try_catch; [|intros ?]
    | apply keeps_bind; [|intros ?]
    | match goal with
      | |- keeps _ (match ?x with _ => _ end) => destruct x
      end ].
Qed.

Lemma keeps_appendSrcData (playerInterface_ : PlayerInterface)
    (uri mimeType : string) :
  keeps R (appendSrcData playerInterface_ uri mimeType).
Proof.
  unfold appendSrcData.
  repeat first
    [ apply keeps_ret | apply keeps_get_this | apply keeps_lift
    | apply keeps_warnOnce | apply keeps_createData_
    | apply keeps_try_catch; [|intros ?]
    | apply keeps_bind; [|intros ?]
    | match goal with
      | |- keeps _ (if ?b then _ else _) => destruct b
      end
    | progress cbv zeta ].
Qed.

Lemma keeps_appendTextTrackData (playerInterface_ : PlayerInterface)
    (uri : string) :
  keeps R (appendTextTrackData playerInterface_ uri).
Proof.
  unfold appendTextTrackData.
  repeat first
    [ apply keeps_ret | apply keeps_get_this | apply keeps_lift
    | apply keeps_warnOnce | apply keeps_createData_
    | apply keeps_try_catch; [|intros ?]
    | apply keeps_bind; [|intros ?]
    | match goal with
      | |- keeps _ (if ?b then _ else _) => destruct b
      end
    | progress cbv zeta ].
Qed.

Hypothesis keeps_set_sf_ : ∀ v, keeps R (set_this (set_sf_ v)).

Lemma keeps_applyManifestData (playerInterface_ : PlayerInterface)
    (request : Request) (manifestInfo : ManifestInfo) :
  keeps R (applyManifestData playerInterface_ request manifestInfo).
Proof.
  unfold applyManifestData.
  repeat first
    [ apply keeps_ret | apply keeps_get_this | apply keeps_set_sf_
    | apply keeps_warnOnce | apply keeps_apply_
    | apply keeps_try_catch; [|intros ?]
    | apply keeps_bind; [|intros ?]
    | match goal with
      | |- keeps _ (if ?b then _ else _) => destruct b
      | |- keeps _ (match ?x with _ => _ end) => destruct x
      end
    | progress cbv zeta ].
Qed.

End keeps.

Lemma playback_kept_preorder : PreOrder playback_kept.
Proof.
  split.
  - by intros st.
  - intros st1 st2 st3 (?&?&?&?&?&?) (?&?&?&?&?&?).
    split_and!; try congruence; [tauto|by trans (warned st2)].
Qed.

Lemma format_kept_preorder : PreOrder format_kept.
Proof.
  split; [by intros st|]. intros st1 st2 st3. unfold format_kept. congruence.
Qed.

Lemma manager_kept_preorder : PreOrder manager_kept.
Proof.
  split; [by intros st|]. intros st1 st2 st3. unfold manager_kept. congruence.
Qed.

(** The state [apply_] leaves, whether it ends normally or by throwing. *)
Lemma apply__state (playerInterface_ : PlayerInterface) (request : Request)
    (data : Data) (useHeaders : option bool) (st : State) :
  ∃ consumed : bool,
    (consumed = true → starved_ (this st) = true)
    ∧ (apply_ playerInterface_ request data useHeaders st).2
      = {| this := if consumed then set_starved_ false (this st) else this st;
           warned := warned st |}.
Proof.
  destruct (enabled (config_ (this st))) eqn:Hon.
  - rewrite apply__run by done. cbv zeta. cbn [snd].
    eexists. split; [|done]. by intros [? _]%andb_true_iff.
  - rewrite apply__disabled by done. exists false. split; [done|].
    by destruct st.
Qed.

Lemma warnOnce_state (id : string) (st : State) :
  this (warnOnce id st).2 = this st
  ∧ warned st `prefix_of` warned (warnOnce id st).2.
Proof.
  unfold warnOnce. cbn [snd]. case_bool_decide; [done|].
  split; [done|]. by apply prefix_app_r.
Qed.

Lemma playback_kept_warnOnce (id : string) : keeps playback_kept (warnOnce id).
Proof.
  intros st. destruct (warnOnce_state id st) as [Hthis Hwarned].
  unfold playback_kept. by rewrite Hthis.
Qed.

Lemma playback_kept_apply_ (playerInterface_ : PlayerInterface)
    (request : Request) (data : Data) (useHeaders : option bool) :
  keeps playback_kept (apply_ playerInterface_ request data useHeaders).
Proof.
  intros st.
  destruct (apply__state playerInterface_ request data useHeaders st)
    as (consumed & Hconsumed & ->).
  unfold playback_kept. cbn [this warned].
  by destruct consumed; split_and!; auto.
Qed.

Lemma playback_kept_set_sf_ (v : option string) :
  keeps playback_kept (set_this (set_sf_ v)).
Proof. by intros st. Qed.

Lemma format_kept_warnOnce (id : string) : keeps format_kept (warnOnce id).
Proof.
  intros st. unfold format_kept. by destruct (warnOnce_state id st) as [-> _].
Qed.

Lemma format_kept_apply_ (playerInterface_ : PlayerInterface)
    (request : Request) (data : Data) (useHeaders : option bool) :
  keeps format_kept (apply_ playerInterface_ request data useHeaders).
Proof.
  intros st.
  destruct (apply__state playerInterface_ request data useHeaders st)
    as (consumed & Hconsumed & ->).
  unfold format_kept. cbn [this]. by destruct consumed.
Qed.

Lemma manager_kept_warnOnce (id : string) : keeps manager_kept (warnOnce id).
Proof. intros st. by destruct (warnOnce_state id st) as [? _]. Qed.

Lemma applyManifestData_format (playerInterface_ : PlayerInterface)
    (request : Request) (manifestInfo : ManifestInfo) (st : State) :
  sf_ (this (applyManifestData playerInterface_ request manifestInfo st).2)
  = if enabled (config_ (this st)) then Some (format manifestInfo)
    else sf_ (this st).
Proof.
  unfold applyManifestData. run_method.
  destruct (enabled (config_ (this st))) eqn:Hon; [|done]. cbn [negb].
  match goal with
  | |- context [apply_ ?p ?r ?d ?u ?s] =>
      pose proof (format_kept_apply_ p r d u s) as Hkept;
      destruct (apply_ p r d u s) as [[[request' payload]|e] st1]
  end; unfold format_kept in Hkept; cbn [snd this sf_ set_sf_] in *; [done|].
  by case_bool_decide.
Qed.

(** X5: what the request and uri methods leave of the manager, however they
    end.  None of them changes the configuration, the session id,
    [playbackStarted] or [buffering]; none sets [starved], which a request
    method may clear; the log keeps its entries.  The streaming format is
    changed by [applyManifestData] alone, which on an enabled manager records
    the format of the manifest; the two uri methods change nothing of the
    manager, so they neither report nor clear a starvation. *)
Theorem entry_points_frame (playerInterface_ : PlayerInterface)
    (request : Request) (manifestInfo : ManifestInfo)
    (segmentInfo : SegmentInfo) (uri mimeType : string) (st : State) :
  playback_kept st (applyManifestData playerInterface_ request manifestInfo st).2
  ∧ playback_kept st (applySegmentData playerInterface_ request segmentInfo st).2
  ∧ playback_kept st (applyTextData playerInterface_ request st).2
  ∧ sf_ (this (applyManifestData playerInterface_ request manifestInfo st).2)
    = (if enabled (config_ (this st)) then Some (format manifestInfo)
       else sf_ (this st))
  ∧ format_kept st (applySegmentData playerInterface_ request segmentInfo st).2
  ∧ format_kept st (applyTextData playerInterface_ request st).2
  ∧ manager_kept st (appendSrcData playerInterface_ uri mimeType st).2
  ∧ manager_kept st (appendTextTrackData playerInterface_ uri st).2.
Proof.
  pose proof playback_kept_preorder. pose proof format_kept_preorder.
  pose proof manager_kept_preorder.
  split_and!.
  - apply keeps_applyManifestData;
      auto using playback_kept_warnOnce, playback_kept_apply_, playback_kept_set_sf_
      with typeclass_instances.
  - apply keeps_applySegmentData;
      auto using playback_kept_warnOnce, playback_kept_apply_
      with typeclass_instances.
  - apply keeps_applyTextData;
      auto using playback_kept_warnOnce, playback_kept_apply_
      with typeclass_instances.
  - apply applyManifestData_format.
  - apply keeps_applySegmentData;
      auto using format_kept_warnOnce, format_kept_apply_
      with typeclass_instances.
  - apply keeps_applyTextData;
      auto using format_kept_warnOnce, format_kept_apply_
      with typeclass_instances.
  - apply keeps_appendSrcData;
      auto using manager_kept_warnOnce with typeclass_instances.
  - apply keeps_appendTextTrackData;
      auto using manager_kept_warnOnce with typeclass_instances.
Qed.

(** ** Sequences of calls *)

Lemma run_calls_snoc (calls : list call) (c : call) (st : State) :
  run_calls (calls ++ [c]) st = run_call c (run_calls calls st).
Proof. unfold run_calls. by rewrite foldl_app. Qed.

Lemma playback_kept_run_call (c : call) (st : State) :
  (∀ buffering, c ≠ call_setBuffering buffering) →
  playback_kept st (run_call c st).
Proof.
  intros Hc. pose proof playback_kept_preorder.
  destruct c as [buffering|p request m|p request s|p request|p uri mime|p uri];
    cbn [run_call].
  - by destruct (Hc buffering).
  - apply keeps_applyManifestData;
      auto using playback_kept_warnOnce, playback_kept_apply_, playback_kept_set_sf_
      with typeclass_instances.
  - apply keeps_applySegmentData;
      auto using playback_kept_warnOnce, playback_kept_apply_
      with typeclass_instances.
  - apply keeps_applyTextData;
      auto using playback_kept_warnOnce, playback_kept_apply_
      with typeclass_instances.
  - apply keeps_appendSrcData;
      auto using playback_kept_warnOnce with typeclass_instances.
  - apply keeps_appendTextTrackData;
      auto using playback_kept_warnOnce with typeclass_instances.
Qed.

(** X6: whatever calls a player makes on a manager from its construction on,
    the manager keeps the configuration it was constructed with and its
    session id (the configured one, or the random one where the configured
    one is empty); it is starved only once playback has started, and it is
    out of buffering only once playback has started. *)
Theorem manager_invariant (config : CmcdConfiguration) (randomUUID : string)
    (calls : list call) :
  let st := run_calls calls (new_state config randomUUID) in
  config_ (this st) = config
  ∧ sid_ (this st)
    = (if bool_decide (sessionId config = "") then randomUUID
       else sessionId config)
  ∧ (starved_ (this st) = true → playbackStarted_ (this st) = true)
  ∧ (buffering_ (this st) = false → playbackStarted_ (this st) = true).
Proof.
  induction calls as [|c calls IH] using rev_ind; [done|].
  rewrite run_calls_snoc. cbv zeta in IH.
  set (st := run_calls calls (new_state config randomUUID)) in *.
  clearbody st. destruct IH as (Hconfig & Hsid & Hstarved & Hbuffering).
  assert (Hother : (∀ buffering, c ≠ call_setBuffering buffering) →
            config_ (this (run_call c st)) = config
            ∧ sid_ (this (run_call c st))
              = (if bool_decide (sessionId config = "") then randomUUID
                 else sessionId config)
            ∧ (starved_ (this (run_call c st)) = true →
               playbackStarted_ (this (run_call c st)) = true)
            ∧ (buffering_ (this (run_call c st)) = false →
               playbackStarted_ (this (run_call c st)) = true)).
  { intros Hc.
    destruct (playback_kept_run_call c st Hc) as (Hc1 & Hc2 & Hc3 & Hc4 & Hc5 & _).
    rewrite Hc1, Hc2, Hc3, Hc4. split_and!; auto. }
  destruct c as [buffering| | | | |]; try (by apply Hother).
  cbn [run_call]. rewrite setBuffering_run.
  cbn [snd this config_ sid_ starved_ playbackStarted_ buffering_].
  split_and!; [done..| |].
  - destruct (starved_ (this st)), (playbackStarted_ (this st)), buffering;
      cbn; auto.
  - intros ->. apply orb_true_r.
Qed.

Lemma manager_invariant_witness :
  let st := run_calls
              [call_setBuffering false; call_setBuffering true;
               call_applySegmentData (sample_player None) sample_request
                 sample_segment;
               call_appendTextTrackData (sample_player None) "http://a/b"]
              (new_state (sample_config true) "uuid") in
  config_ (this st) = sample_config true
  ∧ sid_ (this st)
    = (if bool_decide (sessionId (sample_config true) = "") then "uuid"
       else sessionId (sample_config true))
  ∧ (starved_ (this st) = true → playbackStarted_ (this st) = true)
  ∧ (buffering_ (this st) = false → playbackStarted_ (this st) = true).
Proof.
  apply (manager_invariant (sample_config true) "uuid"
           [call_setBuffering false; call_setBuffering true;
            call_applySegmentData (sample_player None) sample_request
              sample_segment;
            call_appendTextTrackData (sample_player None) "http://a/b"]).
Defined.

(** ** The payload of each method *)

(** X7: on an enabled manager, with a player whose callbacks return, and
    with a session id, a content id and a format without a lone surrogate (as
    all strings of the model are),
    [applyManifestData] records the format of the manifest and ends normally,
    without a warning, with the request that has this payload applied: object type [m], [su] where playback has not
    started, and the baseline with the format just recorded.  It neither
    reports nor clears a starvation. *)
Theorem applyManifestData_payload (playerInterface_ : PlayerInterface)
    (request : Request) (manifestInfo : ManifestInfo) (st : State) :
  enabled (config_ (this st)) = true →
  ∃ request',
    applyManifestData playerInterface_ request manifestInfo st
    = (Normal request',
       {| this := set_sf_ (Some (format manifestInfo)) (this st);
          warned := warned st |})
    ∧ applied (useHeaders (config_ (this st)))
        [("ot", VStr ObjectType.MANIFEST);
         ("su", VBool (negb (playbackStarted_ (this st))));
         ("v", VNum Version);
         ("sf", VStr (format manifestInfo));
         ("sid", VStr (sid_ (this st)));
         ("cid", VStr (contentId (config_ (this st))));
         ("mtp", VNum (getBandwidthEstimate playerInterface_ / 1000)%float);
         ("pr", VNum (getPlaybackRate playerInterface_))]
        request request'.
Proof.
  intros Hon.
  set (st1 := {| this := set_sf_ (Some (format manifestInfo)) (this st);
                 warned := warned st |}).
  destruct (apply__applied playerInterface_ request
              [("ot", VStr ObjectType.MANIFEST);
               ("su", VBool (negb (playbackStarted_ (this st))))] None st1)
    as (request' & Happly & Happlied); [done|by repeat constructor|].
  cbv zeta in Happly, Happlied.
  match type of Happly with
  | context [starved_ ?c && ?b] =>
      change b with false in Happly, Happlied;
      rewrite (andb_false_r (starved_ c)) in Happly, Happlied
  end.
  exists request'. split; [|exact Happlied].
  unfold applyManifestData. run_method. rewrite Hon. cbn [negb].
  fold st1. by rewrite Happly.
Qed.

Lemma applyManifestData_payload_witness :
  ∃ request',
    applyManifestData (sample_player None) sample_request
      {| format := StreamingFormat.DASH |} (sample_state true)
    = (Normal request',
       {| this := set_sf_ (Some (format {| format := StreamingFormat.DASH |}))
                    (this (sample_state true));
          warned := warned (sample_state true) |})
    ∧ applied (useHeaders (config_ (this (sample_state true))))
        [("ot", VStr ObjectType.MANIFEST);
         ("su", VBool (negb (playbackStarted_ (this (sample_state true)))));
         ("v", VNum Version);
         ("sf", VStr (format {| format := StreamingFormat.DASH |}));
         ("sid", VStr (sid_ (this (sample_state true))));
         ("cid", VStr (contentId (config_ (this (sample_state true)))));
         ("mtp", VNum (getBandwidthEstimate (sample_player None) / 1000)%float);
         ("pr", VNum (getPlaybackRate (sample_player None)))]
        sample_request request'.
Proof.
  apply (applyManifestData_payload (sample_player None) sample_request
           {| format := StreamingFormat.DASH |} (sample_state true)).
  reflexivity.
Defined.

(** X8: on an enabled manager, with a player whose callbacks return, and
    with a session id, a content id and a format without a lone surrogate (as
    all strings of the model are),
    [applyTextData] ends normally, without a warning and without a change of
    the manager, with the request that has this payload applied: object type [c], [su] always, and the baseline.  A
    text request neither reports nor clears a starvation. *)
Theorem applyTextData_payload (playerInterface_ : PlayerInterface)
    (request : Request) (st : State) :
  enabled (config_ (this st)) = true →
  ∃ request',
    applyTextData playerInterface_ request st = (Normal request', st)
    ∧ applied (useHeaders (config_ (this st)))
        [("ot", VStr ObjectType.CAPTION);
         ("su", VBool true);
         ("v", VNum Version);
         ("sf", from_option VStr undefined (sf_ (this st)));
         ("sid", VStr (sid_ (this st)));
         ("cid", VStr (contentId (config_ (this st))));
         ("mtp", VNum (getBandwidthEstimate playerInterface_ / 1000)%float);
         ("pr", VNum (getPlaybackRate playerInterface_))]
        request request'.
Proof.
  intros Hon.
  destruct (apply__applied playerInterface_ request
              [("ot", VStr ObjectType.CAPTION); ("su", VBool true)] None st)
    as (request' & Happly & Happlied); [done|by repeat constructor|].
  cbv zeta in Happly, Happlied.
  match type of Happly with
  | context [starved_ ?c && ?b] =>
      change b with false in Happly, Happlied;
      rewrite (andb_false_r (starved_ c)) in Happly, Happlied
  end.
  exists request'. split; [|exact Happlied].
  unfold applyTextData. run_method. rewrite Happly. by destruct st.
Qed.

Lemma applyTextData_payload_witness :
  ∃ request',
    applyTextData (sample_player None) sample_request (sample_state true)
    = (Normal request', sample_state true)
    ∧ applied (useHeaders (config_ (this (sample_state true))))
        [("ot", VStr ObjectType.CAPTION);
         ("su", VBool true);
         ("v", VNum Version);
         ("sf", from_option VStr undefined (sf_ (this (sample_state true))));
         ("sid", VStr (sid_ (this (sample_state true))));
         ("cid", VStr (contentId (config_ (this (sample_state true)))));
         ("mtp", VNum (getBandwidthEstimate (sample_player None) / 1000)%float);
         ("pr", VNum (getPlaybackRate (sample_player None)))]
        sample_request request'.
Proof.
  apply (applyTextData_payload (sample_player None) sample_request
           (sample_state true)).
  reflexivity.
Defined.

Lemma getObjectTypeFromMimeType__not_symbol (mimeType : string) :
  is_symbol (getObjectTypeFromMimeType_ mimeType) = false.
Proof. unfold getObjectTypeFromMimeType_. by repeat case_match. Qed.

(** X9: on an enabled manager, with a player whose callbacks return, and
    with a session id, a content id and a format without a lone surrogate (as
    all strings of the model are), the two uri methods end normally, without
    a warning and without a change of the manager, with the uri that has the
    query of this payload appended: the baseline, the object type (the one of
    the mime type for [appendSrcData], [c] for [appendTextTrackData]) and
    [su].  The payload has neither the playback rate nor [bs]. *)
Theorem uri_methods_payload (playerInterface_ : PlayerInterface)
    (uri mimeType : string) (st : State) :
  enabled (config_ (this st)) = true →
  let payload ot : Data :=
    [("v", VNum Version);
     ("sf", from_option VStr undefined (sf_ (this st)));
     ("sid", VStr (sid_ (this st)));
     ("cid", VStr (contentId (config_ (this st))));
     ("mtp", VNum (getBandwidthEstimate playerInterface_ / 1000)%float);
     ("ot", ot);
     ("su", VBool true)] in
  (∃ s, serialize (payload (getObjectTypeFromMimeType_ mimeType)) = Normal s
        ∧ appendSrcData playerInterface_ uri mimeType st
          = (Normal (appendQueryToUri uri ("CMCD=" +:+ encodeURIComponent s)),
             st))
  ∧ (∃ s, serialize (payload (VStr ObjectType.CAPTION)) = Normal s
          ∧ appendTextTrackData playerInterface_ uri st
            = (Normal (appendQueryToUri uri ("CMCD=" +:+ encodeURIComponent s)),
               st)).
Proof.
  intros Hon payload.
  assert (Hsf : ∀ ot, is_symbol ot = false → symbol_free (payload ot)).
  { intros ot Hot. repeat constructor; try done. by destruct (sf_ (this st)). }
  split.
  - destruct (serialize_total (payload (getObjectTypeFromMimeType_ mimeType)))
      as [s Hs]; [apply Hsf, getObjectTypeFromMimeType__not_symbol|].
    exists s. split; [done|].
    unfold appendSrcData. run_method. rewrite Hon. cbn [negb].
    unfold toQuery.
    change (obj_set "su" _ (obj_set "ot" ?ot _)) with (payload ot).
    rewrite Hs. by destruct st.
  - destruct (serialize_total (payload (VStr ObjectType.CAPTION)))
      as [s Hs]; [by apply Hsf|].
    exists s. split; [done|].
    unfold appendTextTrackData. run_method. rewrite Hon. cbn [negb].
    unfold toQuery.
    change (obj_set "su" _ (obj_set "ot" ?ot _)) with (payload ot).
    rewrite Hs. by destruct st.
Qed.

Lemma uri_methods_payload_witness :
  let payload ot : Data :=
    [("v", VNum Version);
     ("sf", from_option VStr undefined (sf_ (this (sample_state false))));
     ("sid", VStr (sid_ (this (sample_state false))));
     ("cid", VStr (contentId (config_ (this (sample_state false)))));
     ("mtp", VNum (getBandwidthEstimate (sample_player None) / 1000)%float);
     ("ot", ot);
     ("su", VBool true)] in
  (∃ s, serialize (payload (getObjectTypeFromMimeType_ "video/mp4")) = Normal s
        ∧ appendSrcData (sample_player None) "http://a/b" "video/mp4"
            (sample_state false)
          = (Normal (appendQueryToUri "http://a/b"
                       ("CMCD=" +:+ encodeURIComponent s)),
             sample_state false))
  ∧ (∃ s, serialize (payload (VStr ObjectType.CAPTION)) = Normal s
          ∧ appendTextTrackData (sample_player None) "http://a/b"
              (sample_state false)
            = (Normal (appendQueryToUri "http://a/b"
                         ("CMCD=" +:+ encodeURIComponent s)),
               sample_state false)).
Proof.
  apply (uri_methods_payload (sample_player None) "http://a/b" "video/mp4"
           (sample_state false)).
  reflexivity.
Defined.

Lemma getObjectType__cases (segmentInfo : SegmentInfo) :
  getObjectType_ segmentInfo ∈
    [VStr ObjectType.INIT; VStr ObjectType.MUXED; VStr ObjectType.VIDEO;
     VStr ObjectType.AUDIO; VStr ObjectType.TIMED_TEXT;
     VStr ObjectType.CAPTION; undefined].
Proof. unfold getObjectType_. repeat case_match; in_list. Qed.

Lemma getObjectType__not_symbol (segmentInfo : SegmentInfo) :
  is_symbol (getObjectType_ segmentInfo) = false.
Proof. unfold getObjectType_. by repeat case_match. Qed.

(** X10: on an enabled manager, for a segment of type audio, video or text
    for which [getTopBandwidth_] returns, and with a session id, a content id
    and a format without a lone surrogate (as all strings of the model are),
    [applySegmentData] ends normally and without a warning with the request
    that has a payload applied which carries the duration in milliseconds,
    the stream type, the object type of the segment and the top bandwidth in
    kbps; the bitrate in kbps where the segment has a bandwidth
    other than 0 and NaN, and no bitrate otherwise; the buffer length where
    the object type is video, audio, muxed or timed text, and none otherwise.
    Where the manager is starved and the object type is video or muxed, [bs]
    and [su] are true and the manager is left not starved; otherwise there is
    no [bs], [su] is the buffering flag, and the manager is left as it is. *)
Theorem applySegmentData_payload (playerInterface_ : PlayerInterface)
    (request : Request) (segmentInfo : SegmentInfo) (st : State)
    (top : option number) :
  enabled (config_ (this st)) = true →
  segment_type segmentInfo ∈ ["audio"; "video"; "text"] →
  getTopBandwidth_ playerInterface_ (segment_type segmentInfo) = Normal top →
  let ot := getObjectType_ segmentInfo in
  let isMedia := strict_eq ot (VStr ObjectType.VIDEO)
                 || strict_eq ot (VStr ObjectType.AUDIO)
                 || strict_eq ot (VStr ObjectType.MUXED)
                 || strict_eq ot (VStr ObjectType.TIMED_TEXT) in
  let consumed := starved_ (this st)
                  && (strict_eq ot (VStr ObjectType.VIDEO)
                      || strict_eq ot (VStr ObjectType.MUXED)) in
  ∃ request' payload,
    applySegmentData playerInterface_ request segmentInfo st
    = (Normal request',
       {| this := if consumed then set_starved_ false (this st) else this st;
          warned := warned st |})
    ∧ applied (useHeaders (config_ (this st))) payload request request'
    ∧ obj_get payload "d" = VNum (segment_duration segmentInfo * 1000)%float
    ∧ obj_get payload "st" = VStr (getStreamType_ playerInterface_)
    ∧ obj_get payload "ot" = ot
    ∧ obj_get payload "tb" = VNum (default nan top / 1000)%float
    ∧ obj_get payload "br"
      = match segment_bandwidth segmentInfo with
        | Some bandwidth =>
            if ToBoolean (VNum bandwidth)
            then VNum (bandwidth / 1000)%float else undefined
        | None => undefined
        end
    ∧ (if isMedia
       then ∃ bl, getBufferLength_ playerInterface_ (segment_type segmentInfo)
                  = Normal bl
                  ∧ obj_get payload "bl" = VNum bl
       else obj_get payload "bl" = undefined)
    ∧ obj_get payload "bs" = (if consumed then VBool true else undefined)
    ∧ obj_get payload "su"
      = (if consumed then VBool true else VBool (buffering_ (this st))).
Proof.
  intros Hon _ Htop ot isMedia consumed.
  set (data_ot := obj_set "ot" ot
                    [("d", VNum (segment_duration segmentInfo * 1000)%float);
                     ("st", VStr (getStreamType_ playerInterface_))]).
  assert (Hbl : isMedia = true →
            ∃ bl, getBufferLength_ playerInterface_ (segment_type segmentInfo)
                  = Normal bl).
  { intros Hmedia. apply getBufferLength__media. fold ot. unfold isMedia in Hmedia.
    rewrite !orb_true_iff, !strict_eq_VStr in Hmedia.
    destruct Hmedia as [[[-> | ->] | ->] | ->]; in_list. }
  set (bl := match getBufferLength_ playerInterface_ (segment_type segmentInfo) with
             | Normal bl => bl
             | Throw _ => nan
             end).
  set (data_bl := if isMedia then obj_set "bl" (VNum bl) data_ot else data_ot).
  set (data_br := match segment_bandwidth segmentInfo with
                  | Some bandwidth =>
                      if ToBoolean (VNum bandwidth)
                      then obj_set "br" (VNum (bandwidth / 1000)%float) data_bl
                      else data_bl
                  | None => data_bl
                  end).
  set (data := obj_set "tb" (VNum (default nan top / 1000)%float) data_br).
  assert (Hot_sym : is_symbol ot = false) by apply getObjectType__not_symbol.
  assert (Hsf : symbol_free data).
  { assert (symbol_free data_ot).
    { apply obj_set_symbol_free; [by repeat constructor|done]. }
    assert (symbol_free data_bl).
    { unfold data_bl. destruct isMedia; [|done]. by apply obj_set_symbol_free. }
    assert (symbol_free data_br).
    { unfold data_br. destruct (segment_bandwidth segmentInfo); [|done].
      destruct (ToBoolean _); [|done]. by apply obj_set_symbol_free. }
    by apply obj_set_symbol_free. }
  assert (Hget_ot : ∀ key, obj_get data_ot key
            = if bool_decide (key = "ot") then ot
              else if bool_decide (key = "d")
                   then VNum (segment_duration segmentInfo * 1000)%float
              else if bool_decide (key = "st")
                   then VStr (getStreamType_ playerInterface_)
              else undefined).
  { intros key. unfold data_ot. rewrite obj_get_set. unfold obj_get.
    cbn [obj_lookup].
    destruct (decide (key = "ot")) as [->|?]; [by decide_keys|].
    rewrite (bool_decide_false ("ot" = key)), (bool_decide_false (key = "ot"))
      by done.
    destruct (decide (key = "d")) as [->|?]; [by decide_keys|].
    rewrite (bool_decide_false ("d" = key)), (bool_decide_false (key = "d"))
      by done.
    destruct (decide (key = "st")) as [->|?]; [by decide_keys|].
    by rewrite (bool_decide_false ("st" = key)), (bool_decide_false (key = "st")). }
  assert (Hget_bl : ∀ key, obj_get data_bl key
            = if bool_decide (key = "bl")
              then (if isMedia then VNum bl else undefined)
              else obj_get data_ot key).
  { intros key. unfold data_bl. destruct isMedia.
    - rewrite obj_get_set.
      destruct (decide (key = "bl")) as [->|?]; [by decide_keys|].
      by rewrite (bool_decide_false ("bl" = key)), (bool_decide_false (key = "bl")).
    - case_bool_decide as Hkey; [|done]. rewrite Hkey, Hget_ot. by decide_keys. }
  assert (Hget_br : ∀ key, obj_get data_br key
            = if bool_decide (key = "br")
              then match segment_bandwidth segmentInfo with
                   | Some bandwidth =>
                       if ToBoolean (VNum bandwidth)
                       then VNum (bandwidth / 1000)%float else undefined
                   | None => undefined
                   end
              else obj_get data_bl key).
  { intros key.
    assert (Hnone : obj_get data_bl "br" = undefined).
    { rewrite Hget_bl, Hget_ot. by decide_keys. }
    unfold data_br. destruct (segment_bandwidth segmentInfo) as [bandwidth|].
    - destruct (ToBoolean _).
      + rewrite obj_get_set.
        destruct (decide (key = "br")) as [->|?]; [by decide_keys|].
        by rewrite (bool_decide_false ("br" = key)),
             (bool_decide_false (key = "br")).
      + case_bool_decide as Hkey; [|done]. by rewrite Hkey.
    - case_bool_decide as Hkey; [|done]. by rewrite Hkey. }
  assert (Hget : ∀ key, obj_get data key
            = if bool_decide (key = "tb")
              then VNum (default nan top / 1000)%float
              else obj_get data_br key).
  { intros key. unfold data. rewrite obj_get_set.
    destruct (decide (key = "tb")) as [->|?]; [by decide_keys|].
    by rewrite (bool_decide_false ("tb" = key)), (bool_decide_false (key = "tb")). }
  assert (Hdata_ot : obj_get data "ot" = ot).
  { rewrite Hget, Hget_br, Hget_bl, Hget_ot. by decide_keys. }
  destruct (apply__applied playerInterface_ request data None st Hon Hsf)
    as (request' & Happly & Happlied).
  cbv zeta in Happly, Happlied. rewrite Hdata_ot in Happly, Happlied.
  fold consumed in Happly, Happlied.
  destruct (apply__fields playerInterface_ (this st) data consumed)
    as (Hpayload & Hbs & Hsu & _).
  cbv zeta in Hpayload, Hbs, Hsu.
  eexists request', _. split_and!; [|exact Happlied|..].
  - unfold applySegmentData. run_method. rewrite Hon. cbn [negb].
    rewrite obj_get_set, bool_decide_true by done.
    fold ot. fold isMedia. fold data_ot.
    destruct isMedia eqn:Hmedia.
    + destruct (Hbl eq_refl) as [bl' Hbl']. rewrite Hbl'.
      assert (bl = bl') as <- by (by unfold bl; rewrite Hbl').
      fold data_bl. fold data_br. rewrite Htop. fold data. by rewrite Happly.
    + fold data_bl. fold data_br. rewrite Htop. fold data. by rewrite Happly.
  - rewrite Hpayload by done. rewrite Hget, Hget_br, Hget_bl, Hget_ot.
    by decide_keys.
  - rewrite Hpayload by done. rewrite Hget, Hget_br, Hget_bl, Hget_ot.
    by decide_keys.
  - rewrite Hpayload by done. rewrite Hget, Hget_br, Hget_bl, Hget_ot.
    by decide_keys.
  - rewrite Hpayload by done. rewrite Hget. by decide_keys.
  - rewrite Hpayload by done. rewrite Hget, Hget_br. by decide_keys.
  - destruct isMedia eqn:Hmedia.
    + destruct (Hbl eq_refl) as [bl' Hbl']. exists bl'. split; [done|].
      rewrite Hpayload by done. rewrite Hget, Hget_br, Hget_bl.
      decide_keys. cbn. unfold bl. by rewrite Hbl'.
    + rewrite Hpayload by done. rewrite Hget, Hget_br, Hget_bl. by decide_keys.
  - rewrite Hbs, Hget, Hget_br, Hget_bl, Hget_ot. by decide_keys.
  - rewrite Hsu, Hget, Hget_br, Hget_bl, Hget_ot. by decide_keys.
Qed.

Lemma applySegmentData_payload_witness :
  let ot := getObjectType_ sample_segment in
  let isMedia := strict_eq ot (VStr ObjectType.VIDEO)
                 || strict_eq ot (VStr ObjectType.AUDIO)
                 || strict_eq ot (VStr ObjectType.MUXED)
                 || strict_eq ot (VStr ObjectType.TIMED_TEXT) in
  let consumed := starved_ (this sample_starved_state)
                  && (strict_eq ot (VStr ObjectType.VIDEO)
                      || strict_eq ot (VStr ObjectType.MUXED)) in
  ∃ request' payload,
    applySegmentData (sample_player None) sample_request sample_segment
      sample_starved_state
    = (Normal request',
       {| this := if consumed then set_starved_ false (this sample_starved_state)
                  else this sample_starved_state;
          warned := warned sample_starved_state |})
    ∧ applied (useHeaders (config_ (this sample_starved_state))) payload
        sample_request request'
    ∧ obj_get payload "d" = VNum (segment_duration sample_segment * 1000)%float
    ∧ obj_get payload "st" = VStr (getStreamType_ (sample_player None))
    ∧ obj_get payload "ot" = ot
    ∧ obj_get payload "tb" = VNum (default nan (Some nan) / 1000)%float
    ∧ obj_get payload "br"
      = match segment_bandwidth sample_segment with
        | Some bandwidth =>
            if ToBoolean (VNum bandwidth)
            then VNum (bandwidth / 1000)%float else undefined
        | None => undefined
        end
    ∧ (if isMedia
       then ∃ bl, getBufferLength_ (sample_player None)
                    (segment_type sample_segment)
                  = Normal bl
                  ∧ obj_get payload "bl" = VNum bl
       else obj_get payload "bl" = undefined)
    ∧ obj_get payload "bs" = (if consumed then VBool true else undefined)
    ∧ obj_get payload "su"
      = (if consumed then VBool true
         else VBool (buffering_ (this sample_starved_state))).
Proof.
  apply (applySegmentData_payload (sample_player None) sample_request
           sample_segment sample_starved_state (Some nan));
    [reflexivity|in_list|reflexivity].
Defined.

(** ** [getTopBandwidth_] *)

Lemma foldl_top_among (candidates : list (option number)) (first : option number) :
  foldl (λ top stream, if bandwidth_gt stream top then stream else top)
        first candidates ∈ first :: candidates.
Proof.
  revert first. induction candidates as [|b candidates IH]; intros first;
    [left|].
  cbn [foldl]. destruct (bandwidth_gt b first).
  - right. apply IH.
  - specialize (IH first). apply elem_of_cons in IH as [->|?]; [left|].
    by do 2 right.
Qed.

(** The order of the numbers, through the specification of the primitive
    comparison: less-than is transitive and irreflexive, NaN included (it
    compares false with everything). *)
Lemma SFltb_trans (x y z : spec_float) :
  SFltb x y = true → SFltb y z = true → SFltb x z = true.
Proof.
  unfold SFltb, SFcompare.
  destruct x as [[]|[]| |[] mx ex], y as [[]|[]| |[] my ey],
    z as [[]|[]| |[] mz ez]; try done.
  all: rewrite ?Pos.compare_cont_spec; cbn [Pos.switch_Eq].
  all: destruct (Z.compare_spec ex ey), (Z.compare_spec ey ez),
         (Z.compare_spec ex ez); try done; try lia; subst.
  all: destruct (Pos.compare_spec mx my), (Pos.compare_spec my mz),
         (Pos.compare_spec mx mz); try done; try lia.
Qed.

Lemma SFltb_irrefl (x : spec_float) : SFltb x x = false.
Proof.
  unfold SFltb, SFcompare. destruct x as [[]|[]| |[] m e]; try done.
  all: by rewrite Z.compare_refl, ?Pos.compare_cont_spec, Pos.compare_refl.
Qed.

Lemma bandwidth_gt_trans (a b c : option number) :
  bandwidth_gt a b = true → bandwidth_gt b c = true → bandwidth_gt a c = true.
Proof.
  unfold bandwidth_gt. rewrite !ltb_spec. intros Hab Hbc.
  by apply (SFltb_trans _ (Prim2SF (default nan b))).
Qed.

Lemma bandwidth_gt_irrefl (a : option number) : bandwidth_gt a a = false.
Proof. unfold bandwidth_gt. rewrite ltb_spec. apply SFltb_irrefl. Qed.

(** The loop of [getTopBandwidth_]: no stream it has seen is above the top
    it ends with. *)
Lemma foldl_top_highest (candidates seen : list (option number))
    (first : option number) :
  (∀ c, c ∈ seen → bandwidth_gt c first = false) →
  ∀ c, c ∈ seen ++ candidates →
       bandwidth_gt c
         (foldl (λ top stream, if bandwidth_gt stream top then stream else top)
                first candidates) = false.
Proof.
  revert seen first.
  induction candidates as [|b candidates IH]; intros seen first Hseen c Hc.
  { rewrite app_nil_r in Hc. by apply Hseen. }
  cbn [foldl]. apply (IH (seen ++ [b])); [|by rewrite <- app_assoc].
  intros c' [Hc'|Hc']%elem_of_app.
  - destruct (bandwidth_gt b first) eqn:Hb; [|by apply Hseen].
    apply not_true_is_false. intros Hgt.
    pose proof (bandwidth_gt_trans _ _ _ Hgt Hb) as Hfirst.
    by rewrite (Hseen c' Hc') in Hfirst.
  - apply list_elem_of_singleton in Hc' as ->.
    destruct (bandwidth_gt b first) eqn:Hb; [|done].
    apply bandwidth_gt_irrefl.
Qed.

(** X11: for the type audio, video or text and a manifest that has a stream
    to look at for it, [getTopBandwidth_] returns the highest bandwidth.  The
    candidates are the bandwidths of the text streams for [text]; for [audio]
    and [video], of each variant, the bandwidth of its stream of that type
    where it has one and its own bandwidth otherwise.  The result is one of
    the candidates and no candidate compares greater than it (a bandwidth
    that is missing compares as NaN does). *)
Theorem getTopBandwidth__highest (playerInterface_ : PlayerInterface)
    (type : string) (manifest : Manifest) :
  let candidates : list (option number) :=
    if bool_decide (type = "text")
    then (λ stream, stream_bandwidth stream) <$> textStreams manifest
    else (λ variant,
            match (if bool_decide (type = "audio")
                   then variant_audio variant else variant_video variant) with
            | Some stream => stream_bandwidth stream
            | None => Some (variant_bandwidth variant)
            end) <$> variants manifest in
  getManifest playerInterface_ = Some manifest →
  type ∈ ["audio"; "video"; "text"] →
  candidates ≠ [] →
  ∃ top, getTopBandwidth_ playerInterface_ type = Normal top
         ∧ top ∈ candidates
         ∧ ∀ candidate, candidate ∈ candidates →
             (default nan top <? default nan candidate)%float = false.
Proof.
  intros candidates Hmanifest Htype Hcandidates.
  unfold getTopBandwidth_. rewrite Hmanifest.
  assert (Hsame : (if bool_decide (type = "text")
                   then stream_bandwidth <$> textStreams manifest
                   else (λ variant, variant_stream_bandwidth variant type)
                        <$> variants manifest) = candidates).
  { unfold candidates, variant_stream_bandwidth.
    repeat (apply elem_of_cons in Htype as [->|Htype]);
      [..|by apply elem_of_nil in Htype]; by decide_keys. }
  rewrite Hsame. clearbody candidates.
  destruct candidates as [|first candidates]; [done|].
  eexists. split; [done|]. cbn [foldl].
  assert (Hfirst : (if bandwidth_gt first first then first else first) = first)
    by by destruct (bandwidth_gt first first).
  rewrite Hfirst. split; [apply foldl_top_among|].
  intros candidate Hcandidate.
  apply (foldl_top_highest candidates [first] first).
  - intros c ->%list_elem_of_singleton. apply bandwidth_gt_irrefl.
  - done.
Qed.

Lemma getTopBandwidth__highest_witness :
  let manifest :=
    {| variants :=
         [{| variant_audio := None;
             variant_video := Some {| stream_bandwidth := Some 300000%float |};
             variant_bandwidth := 400000 |};
          {| variant_audio := None; variant_video := None;
             variant_bandwidth := 900000 |}];
       textStreams := [] |} in
  let candidates : list (option number) :=
    (λ variant,
       match variant_video variant with
       | Some stream => stream_bandwidth stream
       | None => Some (variant_bandwidth variant)
       end) <$> variants manifest in
  ∃ top, getTopBandwidth_ (sample_player (Some manifest)) "video" = Normal top
         ∧ top ∈ candidates
         ∧ ∀ candidate, candidate ∈ candidates →
             (default nan top <? default nan candidate)%float = false.
Proof.
  intros manifest candidates.
  apply (getTopBandwidth__highest (sample_player (Some manifest)) "video"
           manifest); [done|in_list|done].
Defined.

(** ** [getBufferLength_] *)

Lemma find_first {A} (f : A → bool) (l : list A) :
  match find f l with
  | Some x => ∃ i, l !! i = Some x ∧ f x = true
                   ∧ ∀ j y, j < i → l !! j = Some y → f y = false
  | None => ∀ y, y ∈ l → f y = false
  end.
Proof.
  induction l as [|a l IH]; cbn [find]; [by intros y ?%elem_of_nil|].
  destruct (f a) eqn:Ha.
  - exists 0. split_and!; [done..|]. intros j y Hj. lia.
  - destruct (find f l) as [x|].
    + destruct IH as (i & Hi & Hx & Hbefore). exists (S i).
      split_and!; [done..|]. intros [|j] y Hj; cbn; [by intros [= <-]|].
      apply Hbefore. lia.
    + intros y [->|Hy]%elem_of_cons; auto.
Qed.

(** X12: for a type that is no name inherited from [Object.prototype]:
    where the buffered info has ranges under the type, [getBufferLength_]
    returns the milliseconds from the current time to the end of the first
    range that contains the current time, and NaN where no range contains it
    (so also where there is no range); where the buffered info has nothing
    under the type, it throws. *)
Theorem getBufferLength__first_range (playerInterface_ : PlayerInterface)
    (type : string) :
  type ∉ inherited →
  let time := getCurrentTime playerInterface_ in
  match BufferedInfo_get (getBufferedInfo playerInterface_) type with
  | Some ranges =>
      ∃ bl, getBufferLength_ playerInterface_ type = Normal bl
        ∧ ((∃ i range,
              ranges !! i = Some range
              ∧ contains range time = true
              ∧ (∀ j earlier, j < i → ranges !! j = Some earlier →
                              contains earlier time = false)
              ∧ bl = ((range_end range - time) * 1000)%float)
           ∨ (bl = nan ∧ ∀ range, range ∈ ranges → contains range time = false))
  | None => getBufferLength_ playerInterface_ type = Throw TypeError
  end.
Proof.
  intros _ time. unfold getBufferLength_.
  destruct (BufferedInfo_get _ type) as [ranges|]; [|done].
  case_bool_decide as Hempty.
  - exists nan. split; [done|]. right. split; [done|].
    destruct ranges; [|done]. by intros range ?%elem_of_nil.
  - pose proof (find_first (λ r, contains r time) ranges) as Hfind.
    unfold contains in Hfind at 1. fold time.
    destruct (find _ ranges) as [range|].
    + destruct Hfind as (i & Hi & Hin & Hbefore).
      eexists. split; [done|]. left. by exists i, range.
    + exists nan. split; [done|]. by right.
Qed.

Lemma getBufferLength__first_range_witness :
  let time := getCurrentTime (sample_player None) in
  match BufferedInfo_get (getBufferedInfo (sample_player None)) "video" with
  | Some ranges =>
      ∃ bl, getBufferLength_ (sample_player None) "video" = Normal bl
        ∧ ((∃ i range,
              ranges !! i = Some range
              ∧ contains range time = true
              ∧ (∀ j earlier, j < i → ranges !! j = Some earlier →
                              contains earlier time = false)
              ∧ bl = ((range_end range - time) * 1000)%float)
           ∨ (bl = nan ∧ ∀ range, range ∈ ranges → contains range time = false))
  | None => getBufferLength_ (sample_player None) "video" = Throw TypeError
  end.
Proof.
  apply (getBufferLength__first_range (sample_player None) "video").
  not_in_list.
Defined.

(** ** [toQuery] *)

Lemma list_ascii_of_string_app (s t : string) :
  list_ascii_of_string (s +:+ t)
  = list_ascii_of_string s ++ list_ascii_of_string t.
Proof. induction s as [|a s IH]; [done|]. cbn. by rewrite <- IH. Qed.

Lemma hex_digit_unreserved (n : nat) : uri_unreserved (hex_digit n) = true.
Proof. do 16 (destruct n as [|n]; [by vm_compute|]). by vm_compute. Qed.

Lemma percent_safe (byte : nat) :
  Forall (λ c, uri_unreserved c = true ∨ c = "%"%char)
         (list_ascii_of_string (percent byte)).
Proof.
  unfold percent. cbn [list_ascii_of_string].
  repeat apply Forall_cons_2; [by right|left..|constructor];
    apply hex_digit_unreserved.
Qed.

Lemma encodeURIComponent_safe (s : string) :
  Forall (λ c, uri_unreserved c = true ∨ c = "%"%char)
         (list_ascii_of_string (encodeURIComponent s)).
Proof.
  induction s as [|a s IH]; [constructor|].
  cbn [encodeURIComponent]. rewrite list_ascii_of_string_app.
  apply Forall_app. split; [|done]. unfold encode_unit.
  destruct (uri_unreserved a) eqn:Ha.
  - cbn [list_ascii_of_string]. apply Forall_cons_2; [by left|constructor].
  - destruct (_ <? 128); rewrite ?list_ascii_of_string_app, ?Forall_app;
      auto using percent_safe.
Qed.

(** X13: the query [toQuery] returns is [CMCD=] followed by the encoded
    serialization of the payload, so it is never empty, and what follows
    [CMCD=] has only unreserved characters and percent escapes: none of the
    separators of a uri or of the serialization (ampersand, equals, question
    mark, hash, colon, slash, comma, space, double quote) reaches the uri
    unescaped. *)
Theorem toQuery_url_safe (data : Data) (query : string) :
  toQuery data = Normal query →
  ∃ s, serialize data = Normal s
       ∧ query = "CMCD=" +:+ encodeURIComponent s
       ∧ query ≠ ""
       ∧ Forall (λ c, uri_unreserved c = true ∨ c = "%"%char)
                (list_ascii_of_string (encodeURIComponent s))
       ∧ ∀ c, c ∈ list_ascii_of_string (encodeURIComponent s) →
              c ∉ dquote :: list_ascii_of_string "&=?#:/, ".
Proof.
  unfold toQuery. destruct (serialize data) as [s|]; [|done].
  cbn. intros [= <-]. exists s. split_and!; try done.
  - apply encodeURIComponent_safe.
  - intros c Hc Hsep.
    pose proof (encodeURIComponent_safe s) as Hsafe.
    rewrite Forall_forall in Hsafe. specialize (Hsafe c Hc).
    cbn [list_ascii_of_string] in Hsep.
    repeat (apply elem_of_cons in Hsep as [->|Hsep];
            [by destruct Hsafe as [Hsafe|Hsafe]; vm_compute in Hsafe|]).
    by apply elem_of_nil in Hsep.
Qed.

Lemma toQuery_url_safe_witness :
  ∃ s, serialize sample_payload = Normal s
       ∧ "CMCD=br%3D500%2Cot%3Dv%2Csu" = "CMCD=" +:+ encodeURIComponent s
       ∧ "CMCD=br%3D500%2Cot%3Dv%2Csu" ≠ ""
       ∧ Forall (λ c, uri_unreserved c = true ∨ c = "%"%char)
                (list_ascii_of_string (encodeURIComponent s))
       ∧ ∀ c, c ∈ list_ascii_of_string (encodeURIComponent s) →
              c ∉ dquote :: list_ascii_of_string "&=?#:/, ".
Proof.
  apply (toQuery_url_safe sample_payload). vm_compute. reflexivity.
Defined.

(** ** [appendQueryToUri], once more *)

Lemma append_prefix_inv (t0 : string) (c : ascii) (after a b : string) :
  c ∉ list_ascii_of_string b →
  (t0 +:+ String c "") +:+ after = a +:+ b →
  ∃ after', a = (t0 +:+ String c "") +:+ after'.
Proof.
  intros Hc. revert a.
  induction t0 as [|x t0 IH]; intros a Heq;
    rewrite ?append_nil_l, ?append_cons in Heq.
  - destruct a as [|h a]; rewrite ?append_nil_l, ?append_cons in Heq.
    + destruct Hc. rewrite <- Heq. left.
    + injection Heq as -> ->. exists a.
      by rewrite append_nil_l, append_cons, append_nil_l.
  - destruct a as [|h a]; rewrite ?append_nil_l, ?append_cons in Heq.
    + destruct Hc. rewrite <- Heq. cbn [list_ascii_of_string].
      rewrite !list_ascii_of_string_app. right.
      rewrite !elem_of_app. left. right. left.
    + injection Heq as -> Heq. destruct (IH a Heq) as [after' ->].
      exists after'. by rewrite !append_cons.
Qed.

Lemma includes_app_inv (t0 : string) (c : ascii) (a b : string) :
  c ∉ list_ascii_of_string b →
  includes (a +:+ b) (t0 +:+ String c "") = true →
  includes a (t0 +:+ String c "") = true.
Proof.
  intros Hc. rewrite !includes_spec. intros (before & after & Heq).
  revert a Heq. induction before as [|h before IH]; intros a Heq;
    rewrite ?append_nil_l, ?append_cons in Heq.
  - symmetry in Heq.
    destruct (append_prefix_inv t0 c after a b Hc Heq) as [after' ->].
    exists "", after'. by rewrite append_nil_l.
  - destruct a as [|h' a]; rewrite ?append_nil_l, ?append_cons in Heq.
    + destruct Hc. rewrite Heq. cbn [list_ascii_of_string].
      rewrite !list_ascii_of_string_app. right.
      rewrite !elem_of_app. right. left. right. left.
    + injection Heq as -> Heq. destruct (IH a Heq) as (before' & after' & ->).
      exists (String h before'), after'. by rewrite !append_cons.
Qed.

Lemma includes_app_l (a b t : string) :
  includes a t = true → includes (a +:+ b) t = true.
Proof.
  rewrite !includes_spec. intros (before & after & ->).
  exists before, (after +:+ b). by rewrite !append_assoc.
Qed.

(** X14: a uri that has got a query gets the next one after an ampersand.
    Where the uri is not an offline one and the first query is not empty and
    has no colon (as the queries of [toQuery], whose colons are escaped), the
    uri with the query is not an offline one either and has a question mark,
    so a second query that is not empty is appended to it after [&]: the
    query a former call has appended is neither replaced nor removed. *)
Theorem appendQueryToUri_again (uri query query' : string) :
  query ≠ "" → query' ≠ "" →
  ¬ occurs_in "offline:" uri →
  ":"%char ∉ list_ascii_of_string query →
  ¬ occurs_in "offline:" (appendQueryToUri uri query)
  ∧ occurs_in "?" (appendQueryToUri uri query)
  ∧ appendQueryToUri (appendQueryToUri uri query) query'
    = appendQueryToUri uri query +:+ "&" +:+ query'.
Proof.
  intros Hquery Hquery' Huri Hcolon.
  rewrite <- !includes_spec in *. apply not_true_is_false in Huri.
  assert (Happend : ∃ separator,
            appendQueryToUri uri query = uri +:+ separator +:+ query
            ∧ (separator = "?" ∨ separator = "&" ∧ includes uri "?" = true)).
  { rewrite appendQueryToUri_cases, bool_decide_false, Huri by done.
    destruct (includes uri "?") eqn:Hmark; eauto. }
  destruct Happend as (separator & Happend & Hseparator).
  assert (Hoffline : includes (appendQueryToUri uri query) "offline:" = false).
  { rewrite Happend. apply not_true_is_false. intros Hin.
    apply (includes_app_inv "offline" ":" uri (separator +:+ query)) in Hin;
      [change (includes uri "offline:" = true) in Hin; congruence|].
    rewrite list_ascii_of_string_app, elem_of_app. intros [Hsep|?]; [|done].
    destruct Hseparator as [->|[-> _]]; cbn in Hsep;
      by apply list_elem_of_singleton in Hsep. }
  assert (Hmark : includes (appendQueryToUri uri query) "?" = true).
  { rewrite Happend. destruct Hseparator as [->|[-> Hmark]].
    - apply includes_spec. by exists uri, query.
    - by apply includes_app_l. }
  split_and!; [congruence|done|].
  by rewrite (appendQueryToUri_cases (appendQueryToUri uri query)),
       bool_decide_false, Hoffline, Hmark.
Qed.

Lemma appendQueryToUri_again_witness :
  ¬ occurs_in "offline:" (appendQueryToUri "http://a/b" "CMCD=su")
  ∧ occurs_in "?" (appendQueryToUri "http://a/b" "CMCD=su")
  ∧ appendQueryToUri (appendQueryToUri "http://a/b" "CMCD=su") "CMCD=bs"
    = appendQueryToUri "http://a/b" "CMCD=su" +:+ "&" +:+ "CMCD=bs".
Proof.
  apply (appendQueryToUri_again "http://a/b" "CMCD=su" "CMCD=bs"); try done.
  - rewrite <- includes_spec. by vm_compute.
  - cbn [list_ascii_of_string]. apply (bool_decide_unpack _). by vm_compute.
Defined.

(** ** [serialize] and the fields it ignores *)

Lemma filter_ext_in {A} (P Q : A → Prop) `{!∀ x, Decision (P x)}
    `{!∀ x, Decision (Q x)} (l : list A) :
  (∀ x, x ∈ l → P x ↔ Q x) → filter P l = filter Q l.
Proof.
  induction l as [|x l IH]; intros Hext; [done|].
  rewrite !filter_cons.
  rewrite IH by (intros y Hy; apply Hext; by right).
  destruct (decide (P x)) as [HP|HP], (decide (Q x)) as [HQ|HQ]; try done;
    destruct (Hext x); try left; tauto.
Qed.

Lemma valid_fields_lookup (data : Data) (key : string) :
  is_object data →
  obj_lookup (valid_fields data) key
  = match obj_lookup data key with
    | Some v => if isValid v then Some v else None
    | None => None
    end.
Proof.
  unfold valid_fields, is_object.
  induction data as [|[k w] data IH]; intros Hnodup; [done|].
  cbn [fmap list_fmap fst] in Hnodup. apply NoDup_cons in Hnodup as [Hk Hnodup].
  rewrite filter_cons. cbn [snd obj_lookup].
  destruct (decide (k = key)) as [->|Hne].
  - rewrite bool_decide_true by done.
    destruct (isValid w) eqn:Hw.
    + rewrite decide_True by done. cbn [obj_lookup].
      by rewrite bool_decide_true.
    + rewrite decide_False by done. rewrite IH by done.
      apply obj_lookup_None in Hk. by rewrite Hk.
  - rewrite bool_decide_false by done.
    destruct (decide (isValid w = true)); [|by apply IH].
    cbn [obj_lookup]. rewrite bool_decide_false by done. by apply IH.
Qed.

Lemma valid_fields_keys (data : Data) :
  is_object data →
  Object_keys (valid_fields data)
  = filter (λ key, isValid (obj_get data key) = true) (Object_keys data).
Proof.
  unfold valid_fields, is_object, Object_keys.
  induction data as [|[k w] data IH]; intros Hnodup; [done|].
  cbn [fmap list_fmap fst] in *. apply NoDup_cons in Hnodup as [Hk Hnodup].
  rewrite !filter_cons. cbn [snd].
  assert (Hrest : filter (λ key, isValid (obj_get ((k, w) :: data) key) = true)
                    data.*1
                  = filter (λ key, isValid (obj_get data key) = true) data.*1).
  { apply filter_ext_in. intros key Hkey. unfold obj_get. cbn [obj_lookup].
    rewrite bool_decide_false; [done|]. by intros ->. }
  rewrite Hrest, <- IH by done.
  assert (Hw : obj_get ((k, w) :: data) k = w).
  { unfold obj_get. cbn [obj_lookup]. by rewrite bool_decide_true. }
  rewrite Hw. by destruct (decide (isValid w = true)).
Qed.

Lemma serialize_loop_filter (P : string → Prop) `{!∀ key, Decision (P key)}
    (data group : Data) (keys : list string) :
  (∀ key, P key → obj_get group key = obj_get data key) →
  (∀ key, ¬ P key → serialize_key data key = Normal None) →
  serialize_loop group (filter P keys) = serialize_loop data keys.
Proof.
  intros Hget Hnone. induction keys as [|key keys IH]; [done|].
  rewrite filter_cons. destruct (decide (P key)) as [HP|HP].
  - cbn [serialize_loop]. rewrite IH.
    by rewrite (serialize_key_ext data group) by auto.
  - cbn [serialize_loop]. rewrite IH, (Hnone key HP). cbn.
    by destruct (serialize_loop data keys).
Qed.

(** X15: the fields [serialize] ignores leave no trace in its result.  The
    serialization of a payload object is the serialization of its fields
    that have a valid value (one other than NaN, null, undefined, the empty
    string and false): an ignored field changes neither the other tokens nor
    their order, adds no comma, and does not make the call throw. *)
Theorem serialize_ignores_invalid (data : Data) :
  is_object data →
  serialize (valid_fields data) = serialize data.
Proof.
  intros Hobj. unfold serialize.
  rewrite valid_fields_keys by done.
  rewrite (sort_filter (λ key, isValid (obj_get data key) = true)).
  rewrite (serialize_loop_filter
             (λ key, isValid (obj_get data key) = true) data); [done| |].
  - intros key Hkey. unfold obj_get in *. rewrite valid_fields_lookup by done.
    destruct (obj_lookup data key) as [v|]; [|done]. cbn in *. by rewrite Hkey.
  - intros key Hkey. unfold serialize_key.
    by destruct (isValid (obj_get data key)).
Qed.

Lemma serialize_ignores_invalid_witness :
  serialize (valid_fields (("bs", VBool false) :: ("bl", VNum nan)
                             :: sample_payload))
  = serialize (("bs", VBool false) :: ("bl", VNum nan) :: sample_payload).
Proof.
  apply (serialize_ignores_invalid
           (("bs", VBool false) :: ("bl", VNum nan) :: sample_payload)).
  apply (bool_decide_unpack _). by vm_compute.
Defined.

(** ** Headers across calls *)

Lemma header_index_status (key : string) :
  header_index key = 3 → key = "bs" ∨ key = "rtp".
Proof.
  unfold header_index, headerMap. cbn [obj_lookup].
  repeat (case_bool_decide as Hkey;
          [subst key; cbn; intros; (done || auto)|clear Hkey]).
  done.
Qed.

Lemma filter_none {A} (P : A → Prop) `{!∀ x, Decision (P x)} (l : list A) :
  (∀ x, x ∈ l → ¬ P x) → filter P l = [].
Proof.
  induction l as [|x l IH]; intros Hnone; [done|].
  rewrite filter_cons, decide_False by (apply Hnone; left).
  apply IH. intros y Hy. apply Hnone. by right.
Qed.

Lemma filter_only (P : string * string → Prop) `{!∀ x, Decision (P x)}
    (l : list (string * string)) (x : string * string) :
  NoDup l.*1 → x ∈ l → P x → (∀ y, y ∈ l → P y → y.1 = x.1) →
  filter P l = [x].
Proof.
  induction l as [|y l IH]; intros Hnodup Hx HP Honly;
    [by apply elem_of_nil in Hx|].
  cbn [fmap list_fmap] in Hnodup. apply NoDup_cons in Hnodup as [Hy Hnodup].
  rewrite filter_cons. apply elem_of_cons in Hx as [->|Hx].
  - rewrite decide_True by done. f_equal. apply filter_none.
    intros z Hz HPz. apply Hy. rewrite <- (Honly z) by (by right || done).
    by apply list_elem_of_fmap_2.
  - rewrite decide_False.
    + apply IH; [done..|]. intros z Hz. apply Honly. by right.
    + intros HPy. apply Hy. rewrite (Honly y) by (by left || done).
      by apply list_elem_of_fmap_2.
Qed.

Lemma apply__fields_symbol_free (playerInterface_ : PlayerInterface)
    (this : CmcdManager) (data : Data) (consumed : bool) :
  symbol_free data →
  let data1 := obj_set "pr" (VNum (getPlaybackRate playerInterface_))
                 (Object_assign data (baseline playerInterface_ this)) in
  let data2 := if consumed
               then obj_set "su" (VBool true) (obj_set "bs" (VBool true) data1)
               else data1 in
  let data3 := if is_nullish (obj_get data2 "su")
               then obj_set "su" (VBool (buffering_ this)) data2
               else data2 in
  symbol_free data3.
Proof.
  intros Hsf data1 data2 data3.
  assert (symbol_free data1).
  { apply obj_set_symbol_free; [|done].
    apply Object_assign_symbol_free; [done|apply baseline_symbol_free]. }
  assert (symbol_free data2).
  { unfold data2. destruct consumed; [|done].
    apply obj_set_symbol_free; [apply obj_set_symbol_free|]; done. }
  unfold data3. destruct (is_nullish _); [|done].
  by apply obj_set_symbol_free.
Qed.

(** The header of the fourth group (Status) of a payload object that has no
    [rtp]: [bs] where [bs] is true, none where [bs] is missing. *)
Lemma toHeaders_status (data : Data) (headers : object string) :
  is_object data → symbol_free data →
  obj_get data "rtp" = undefined →
  obj_get data "bs" = VBool true ∨ obj_get data "bs" = undefined →
  toHeaders data = Normal headers →
  obj_lookup headers "CMCD-Status"
  = match obj_get data "bs" with VBool true => Some "bs" | _ => None end.
Proof.
  intros Hobj Hsf Hrtp Hbs Hheaders.
  destruct (serialize_tokens_total data (sort (Object_keys data)) Hsf)
    as [tokens Htokens].
  pose proof (toHeaders_fields data tokens Hobj Htokens) as Hfields.
  cbv zeta in Hfields. rewrite Hheaders in Hfields. injection Hfields as ->.
  destruct (serialize_tokens_keys _ _ _ Htokens) as (Hsub & Hkept & Hall).
  rewrite Forall_forall in Hall.
  assert (Hnodup : NoDup tokens.*1).
  { apply (sublist_NoDup _ (sort (Object_keys data))); [|done].
    by rewrite sort_Permutation. }
  assert (Hnot_rtp : ∀ kt, kt ∈ tokens → kt.1 ≠ "rtp").
  { intros kt Hkt Heq. destruct (Hall kt Hkt) as [(_ & _ & Hundef & _) _].
    rewrite Heq in Hundef. done. }
  set (status := filter (λ kt, header_index kt.1 = 3) tokens).
  assert (Hstatus : status = match obj_get data "bs" with
                             | VBool true => [("bs", "bs")]
                             | _ => []
                             end).
  { destruct Hbs as [Htrue|Hundef].
    - rewrite Htrue.
      assert (Hin : "bs" ∈ tokens.*1).
      { apply Hkept.
        - rewrite sort_Permutation. apply dec_stable. intros Hnone.
          apply obj_lookup_None in Hnone. unfold obj_get in Htrue.
          by rewrite Hnone in Htrue.
        - unfold kept. rewrite Htrue. cbn. by split_and!; try done; intros []. }
      apply list_elem_of_fmap in Hin as ([key token] & Hkey & Hin).
      cbn in Hkey. subst key.
      destruct (Hall _ Hin) as [_ (v & Hformat & Hpair)]. cbn [fst snd] in *.
      rewrite Htrue in Hformat. vm_compute in Hformat. injection Hformat as <-.
      vm_compute in Hpair. injection Hpair as <-.
      apply (filter_only (λ kt, header_index kt.1 = 3)); [done..|].
      intros kt Hkt Hindex. cbn [fst].
      destruct (header_index_status _ Hindex) as [?|?]; [done|].
      by destruct (Hnot_rtp kt Hkt).
    - rewrite Hundef. apply filter_none. intros kt Hkt Hindex.
      destruct (header_index_status _ Hindex) as [Heq|?];
        [|by destruct (Hnot_rtp kt Hkt)].
      destruct (Hall kt Hkt) as [(_ & _ & Hdef & _) _].
      rewrite Heq in Hdef. done. }
  fold status. rewrite Hstatus. clear Hstatus. clearbody status.
  destruct Hbs as [-> | ->].
  - change (join "," [("bs", "bs")].*2) with "bs".
    rewrite (bool_decide_false ("bs" = "")) by done.
    repeat match goal with
      | |- context [bool_decide (join "," ?l = "")] =>
          destruct (bool_decide (join "," l = ""))
      end; by vm_compute.
  - change (join "," ([] : list (string * string)).*2) with "".
    rewrite (bool_decide_true ("" = "")) by done.
    repeat match goal with
      | |- context [bool_decide (join "," ?l = "")] =>
          destruct (bool_decide (join "," l = ""))
      end; by vm_compute.
Qed.

(** X16: in header mode, on an enabled manager and for a payload object
    without symbols and with plain keys to which the caller gave neither [bs]
    nor [rtp] (no caller in the class gives them), and for strings without a
    lone surrogate (as all strings of the model are), [apply_] writes the
    header [CMCD-Status] with the value [bs] where it consumes a starvation,
    and writes no [CMCD-Status] header otherwise: the request then keeps the
    one it had, if any. *)
Theorem apply__status_header (playerInterface_ : PlayerInterface)
    (request : Request) (data : Data) (useHeaders : option bool) (st : State) :
  enabled (config_ (this st)) = true →
  default (Cmcd.useHeaders (config_ (this st))) useHeaders = true →
  is_object data → symbol_free data → plain_keys data →
  obj_get data "bs" = undefined → obj_get data "rtp" = undefined →
  let consumed := starved_ (this st)
                  && (strict_eq (obj_get data "ot") (VStr ObjectType.VIDEO)
                      || strict_eq (obj_get data "ot") (VStr ObjectType.MUXED)) in
  ∃ request' payload st',
    apply_ playerInterface_ request data useHeaders st
    = (Normal (request', payload), st')
    ∧ starved_ (this st') = (starved_ (this st) && negb consumed)
    ∧ obj_lookup (headers request') "CMCD-Status"
      = if consumed then Some "bs"
        else obj_lookup (headers request) "CMCD-Status".
Proof.
  intros Hon Hmode Hobj Hsf _ Hbs Hrtp consumed.
  destruct (apply__applied playerInterface_ request data useHeaders st Hon Hsf)
    as (request' & Happly & Happlied).
  pose proof (apply__fields playerInterface_ (this st) data consumed)
    as (Hget & Hbs' & _ & Hobj').
  pose proof (apply__fields_symbol_free playerInterface_ (this st) data consumed
                Hsf) as Hsf'.
  cbv zeta in Happly, Happlied, Hget, Hbs', Hobj', Hsf'.
  fold consumed in Happly, Happlied.
  rewrite Hmode in Happlied. destruct Happlied as (_ & new & Hnew & Hlookup).
  eexists request', _, _. split; [exact Happly|]. split.
  { cbn [this]. by destruct consumed, (starved_ (this st)). }
  rewrite Hlookup.
  rewrite (toHeaders_status _ new (Hobj' Hobj) Hsf'); [| | |done].
  - rewrite Hbs', Hbs. by destruct consumed.
  - rewrite Hget by done. rewrite bool_decide_false by done.
    unfold baseline. cbn [obj_lookup]. by decide_keys.
  - rewrite Hbs', Hbs. destruct consumed; auto.
Qed.

Lemma apply__status_header_witness :
  let consumed :=
    starved_ (this sample_starved_state)
    && (strict_eq (obj_get sample_video_data "ot") (VStr ObjectType.VIDEO)
        || strict_eq (obj_get sample_video_data "ot") (VStr ObjectType.MUXED)) in
  ∃ request' payload st',
    apply_ (sample_player None) sample_request sample_video_data None
      sample_starved_state
    = (Normal (request', payload), st')
    ∧ starved_ (this st')
      = (starved_ (this sample_starved_state) && negb consumed)
    ∧ obj_lookup (headers request') "CMCD-Status"
      = if consumed then Some "bs"
        else obj_lookup (headers sample_request) "CMCD-Status".
Proof.
  apply (apply__status_header (sample_player None) sample_request
           sample_video_data None sample_starved_state); try reflexivity.
  - apply (bool_decide_unpack _). by vm_compute.
  - repeat constructor.
  - exact sample_video_data_plain_keys.
Defined.

(** ** Calling twice *)

Lemma obj_set_same {V} (o : object V) (key : string) (v : V) :
  obj_lookup o key = Some v → obj_set key v o = o.
Proof.
  induction o as [|[k w] o IH]; cbn [obj_lookup obj_set]; [done|].
  case_bool_decide as Hk.
  - by intros [= ->].
  - intros Hlookup. by rewrite IH.
Qed.

Lemma Object_assign_same {V} (target source : object V) :
  (∀ key v, (key, v) ∈ source → obj_lookup target key = Some v) →
  Object_assign target source = target.
Proof.
  unfold Object_assign. induction source as [|[k v] source IH];
    intros Hsame; [done|].
  cbn [foldl]. rewrite obj_set_same by (apply Hsame; left).
  apply IH. intros key w Hin. apply Hsame. by right.
Qed.

Lemma Object_assign_idemp {V} (target source : object V) :
  is_object source →
  Object_assign (Object_assign target source) source
  = Object_assign target source.
Proof.
  intros Hobj. apply Object_assign_same. intros key v Hin.
  rewrite Object_assign_lookup by done.
  by rewrite (obj_lookup_unique source key v).
Qed.

(** X17: in header mode, on an enabled manager, a second [applyTextData]
    call on the request the first call has returned (same manager state, same
    answers of the player) returns that request again: the headers are
    written over themselves.  (In query mode the second call appends a
    second query.) *)
Theorem applyTextData_twice (playerInterface_ : PlayerInterface)
    (request : Request) (st : State) :
  enabled (config_ (this st)) = true →
  useHeaders (config_ (this st)) = true →
  ∃ request',
    applyTextData playerInterface_ request st = (Normal request', st)
    ∧ applyTextData playerInterface_ request' st = (Normal request', st).
Proof.
  intros Hon Hmode.
  assert (Hrun : ∃ new,
            is_object new
            ∧ ∀ request0,
                applyTextData playerInterface_ request0 st
                = (Normal (if bool_decide (length (Object_keys new) = 0)
                           then request0
                           else set_headers
                                  (Object_assign (headers request0) new)
                                  request0),
                   st)).
  { pose proof (λ request0,
                  apply__run playerInterface_ request0
                    [("ot", VStr ObjectType.CAPTION); ("su", VBool true)] None
                    st Hon) as Happly.
    cbv zeta in Happly. cbn [default] in Happly. rewrite Hmode in Happly.
    match type of Happly with
    | context [starved_ ?c && ?b] =>
        change b with false in Happly;
        rewrite (andb_false_r (starved_ c)) in Happly
    end.
    match type of Happly with
    | context [toHeaders ?d] =>
        destruct (toHeaders_total d) as [new Hnew];
        [|rewrite Hnew in Happly]
    end.
    { apply (apply__fields_symbol_free playerInterface_ (this st)
               [("ot", VStr ObjectType.CAPTION); ("su", VBool true)] false).
      by repeat constructor. }
    exists new. split; [by apply toHeaders_is_object in Hnew|].
    intros request0. unfold applyTextData. run_method. rewrite Happly.
    by destruct st. }
  destruct Hrun as (new & Hobj & Hrun).
  eexists. split; [apply Hrun|]. rewrite Hrun.
  case_bool_decide as Hempty; [done|].
  cbn [headers set_headers]. by rewrite Object_assign_idemp.
Qed.

Lemma applyTextData_twice_witness :
  ∃ request',
    applyTextData (sample_player None) sample_request (sample_state true)
    = (Normal request', sample_state true)
    ∧ applyTextData (sample_player None) request' (sample_state true)
      = (Normal request', sample_state true).
Proof.
  apply (applyTextData_twice (sample_player None) sample_request
           (sample_state true)); reflexivity.
Defined.
